(** * Versioning core of the ghost editor: lines, versions, blocks, timelines

    Shallow embedding of
    - [src/backend/vcs/db/proxies/vcs-proxies/block-proxy.ts]  (class [BlockProxy],
      the persisted block working on the relational store),
    - [src/backend/vcs/core/block.ts]                          (class [Block], the
      in-memory block, and class [DBBlock], the first persisted draft),
    and the properties of the timeline / apply-index engine, the head
    computation, the edit engine and the tag round trip stated about them. *)

From Stdlib Require Import ZArith List String Ascii Bool Lia QArith Permutation Sorted DecimalString.
Import ListNotations.
Local Open Scope string_scope.
Local Open Scope Z_scope.

(* ================================================================== *)
(** ** Outcomes of a call: a value or a thrown exception *)
(* ================================================================== *)

(** The exceptions the modelled methods can raise.  [OutOfBounds i n] is the
    [Error] of [applyIndex], [NoActiveLines] the one of [asBlockInfo],
    [NotFound] is what [findFirstOrThrow] raises, [TypeError] is a property
    read on [undefined] or [null]. *)
Inductive Exception : Type :=
| OutOfBounds (targetIndex : Z) (timelineLength : Z)
| LatestHeadNotInTimeline
| InvalidLineNumber
| NoActiveLines
| NotFound
| TypeError.

Inductive Result (A : Type) : Type :=
| Ok (a : A)
| Throw (e : Exception).
Arguments Ok {A} a.
Arguments Throw {A} e.

Definition result_bind {A B} (r : Result A) (k : A -> Result B) : Result B :=
  match r with
  | Ok a => k a
  | Throw e => Throw e
  end.

Definition of_option {A} (o : option A) (e : Exception) : Result A :=
  match o with
  | Some a => Ok a
  | None => Throw e
  end.

Declare Scope result_scope.
Delimit Scope result_scope with result.
Notation "'let?' x ':=' r 'in' k" := (result_bind r (fun x => k))
  (at level 10, x pattern, r at level 100, k at level 200) : result_scope.
Local Open Scope result_scope.

(* ================================================================== *)
(** ** Arrays: stable sort, indexing, de-duplication *)
(* ================================================================== *)

Section Arrays.
Context {A : Type}.

(** [Array.prototype.sort] and the store's [orderBy] are modelled by a stable
    insertion sort: [le a b] says that [a] may stay in front of [b]. *)
Fixpoint insert_by (le : A -> A -> bool) (x : A) (l : list A) : list A :=
  match l with
  | [] => [x]
  | y :: l' => if le x y then x :: l else y :: insert_by le x l'
  end.

Definition sort_by (le : A -> A -> bool) (l : list A) : list A :=
  fold_right (insert_by le) [] l.

(** [a[i]] for a JavaScript number [i] that holds an integer: [undefined]
    (here [None]) outside of [0 .. length-1]. *)
Definition at_index (l : list A) (i : Z) : option A :=
  if i <? 0 then None else nth_error l (Z.to_nat i).

(** [a.filter((_, index) => lo <= index + 1 && index + 1 <= hi)]. *)
Fixpoint filter_line_numbers_from (n : Z) (lo hi : Z) (l : list A) : list A :=
  match l with
  | [] => []
  | x :: l' =>
      let rest := filter_line_numbers_from (n + 1) lo hi l' in
      if (lo <=? n) && (n <=? hi) then x :: rest else rest
  end.

Definition filter_line_numbers (lo hi : Z) (l : list A) : list A :=
  filter_line_numbers_from 1 lo hi l.

(** [a.indexOf(x, 0)]: position of the first occurrence. *)
Fixpoint indexOf_from (eqb : A -> A -> bool) (n : Z) (x : A) (l : list A) : option Z :=
  match l with
  | [] => None
  | y :: l' => if eqb y x then Some n else indexOf_from eqb (n + 1) x l'
  end.

Definition indexOf (eqb : A -> A -> bool) (x : A) (l : list A) : option Z :=
  indexOf_from eqb 0 x l.

(** The elements of [new Set(l)] in insertion order. *)
Fixpoint dedup (eqb : A -> A -> bool) (l : list A) : list A :=
  match l with
  | [] => []
  | x :: l' => x :: filter (fun y => negb (eqb x y)) (dedup eqb l')
  end.

Definition last_opt (l : list A) : option A :=
  match rev l with
  | [] => None
  | x :: _ => Some x
  end.

Definition zlength (l : list A) : Z := Z.of_nat (List.length l).
End Arrays.

(** [Promise.all(a.map(f))] and [a.map(f)] for an [f] that may throw: the
    first exception, from the left, is the outcome. *)
Fixpoint map_result {A B} (f : A -> Result B) (l : list A) : Result (list B) :=
  match l with
  | [] => Ok []
  | x :: l' =>
      let? y := f x in
      let? ys := map_result f l' in
      Ok (y :: ys)
  end.

(** A [Map] with numbers as keys, as the list of its entries in insertion
    order.  [m.set(k, v)]: a key that is there keeps its place and takes the
    new value, a new key goes to the end. *)
Section Maps.
Context {V : Type}.

Fixpoint map_set (m : list (Z * V)) (k : Z) (v : V) : list (Z * V) :=
  match m with
  | [] => [(k, v)]
  | kv :: m' => if fst kv =? k then (k, v) :: m' else kv :: map_set m' k v
  end.

Definition map_get (m : list (Z * V)) (k : Z) : option V :=
  option_map snd (find (fun kv => fst kv =? k) m).
End Maps.

(* ================================================================== *)
(** ** Strings as the edit engine uses them *)
(* ================================================================== *)

(** A JavaScript string is the sequence of its UTF-16 code units.  The
    strings of the model are those of code units below 256: a character of a
    [string] stands for the code unit of its number, so that [length],
    the columns of an edit and the white space of [trim] are counted and
    told apart as JavaScript does.  (Character 160 is the no-break space
    U+00A0, not a byte of an encoding.) *)
Module Str.

(** [s.length]: the number of code units. *)
Definition length (s : string) : Z := Z.of_nat (String.length s).

Definition startsWith (s p : string) : bool := String.prefix p s.

Fixpoint rev_string (s : string) : string :=
  match s with
  | EmptyString => EmptyString
  | String c s' => rev_string s' ++ String c EmptyString
  end.

Definition endsWith (s p : string) : bool :=
  String.prefix (rev_string p) (rev_string s).

(** The white space and the line terminators that [trim], [trimStart] and
    [trimEnd] remove, as far as they lie below 256: TAB, LF, VT, FF, CR,
    the space and the no-break space U+00A0.  (The others, U+FEFF, U+2028,
    U+2029 and the space separators from U+1680 on, are code units from 256
    on.) *)
Definition is_space (c : ascii) : bool :=
  let n := nat_of_ascii c in
  (Nat.eqb n 32 || Nat.eqb n 9 || Nat.eqb n 10 || Nat.eqb n 11
   || Nat.eqb n 12 || Nat.eqb n 13 || Nat.eqb n 160)%bool.

Fixpoint trimStart (s : string) : string :=
  match s with
  | EmptyString => EmptyString
  | String c s' => if is_space c then trimStart s' else s
  end.

Definition trimEnd (s : string) : string := rev_string (trimStart (rev_string s)).

Definition trim (s : string) : string := trimEnd (trimStart s).

(** [s.split(sep)] for a non-empty separator.  [skip] counts the characters
    of a separator occurrence that are still to be dropped, [cur] is the
    piece being read, reversed. *)
Fixpoint split_aux (sep : string) (s : string) (skip : nat) (cur : string) : list string :=
  match s with
  | EmptyString => [rev_string cur]
  | String c s' =>
      match skip with
      | S k => split_aux sep s' k cur
      | O =>
          if String.prefix sep s
          then rev_string cur :: split_aux sep s' (String.length sep - 1) EmptyString
          else split_aux sep s' O (String c cur)
      end
  end.

Definition split (s sep : string) : list string := split_aux sep s O EmptyString.

(** [a.join(sep)]. *)
Fixpoint join (sep : string) (l : list string) : string :=
  match l with
  | [] => EmptyString
  | [x] => x
  | x :: l' => x ++ sep ++ join sep l'
  end.

End Str.

(* ================================================================== *)
(** ** The data model shared by the persisted and the in-memory code *)
(* ================================================================== *)

Inductive VersionType : Type :=
| IMPORTED | PRE_INSERTION | INSERTION | CHANGE | DELETION | CLONE.

Definition VersionType_eqb (a b : VersionType) : bool :=
  match a, b with
  | IMPORTED, IMPORTED | PRE_INSERTION, PRE_INSERTION | INSERTION, INSERTION
  | CHANGE, CHANGE | DELETION, DELETION | CLONE, CLONE => true
  | _, _ => false
  end.

Module BlockType.
Inductive t : Type := ROOT | INLINE | CLONE.
Definition eqb (a b : t) : bool :=
  match a, b with
  | ROOT, ROOT | INLINE, INLINE | CLONE, CLONE => true
  | _, _ => false
  end.
End BlockType.

(** One row of the [Version] table; for the in-memory code, one
    [LineNodeVersion] object, [id] standing for the identity of the object. *)
Record Version : Type := mkVersion {
  id            : Z;
  lineId        : Z;
  timestamp     : Z;
  type          : VersionType;
  isActive      : bool;
  content       : string;
  sourceBlockId : option Z;
  originId      : option Z
}.

Definition option_Z_eqb (a b : option Z) : bool :=
  match a, b with
  | Some x, Some y => x =? y
  | None, None => true
  | _, _ => false
  end.

Definition Version_eqb (a b : Version) : bool :=
  (id a =? id b) && (lineId a =? lineId b) && (timestamp a =? timestamp b)
  && VersionType_eqb (type a) (type b) && Bool.eqb (isActive a) (isActive b)
  && String.eqb (content a) (content b)
  && option_Z_eqb (sourceBlockId a) (sourceBlockId b)
  && option_Z_eqb (originId a) (originId b).

Definition timestamp_asc (a b : Version) : bool := timestamp a <=? timestamp b.
Definition timestamp_desc (a b : Version) : bool := timestamp b <=? timestamp a.

(** [data: { sourceBlockId }] of an update of a version row. *)
Definition with_sourceBlockId (v : Version) (block : option Z) : Version :=
  mkVersion (id v) (lineId v) (timestamp v) (type v) (isActive v) (content v) block (originId v).

(** Modelled from the spec: the class [TimestampProvider] of
    [core/metadata/timestamps] is missing; it is the "single global source per
    process" that "produces strictly increasing" integers and "exposes
    next() and last()" ([getTimestamp] and [getLastTimestamp] in the code).
    The state of the provider is the last timestamp handed out. *)
Module TimestampProvider.
Definition t := Z.
Definition getLastTimestamp (p : t) : Z := p.
Definition getTimestamp (p : t) : Z * t := (p + 1, p + 1).
End TimestampProvider.

(* ================================================================== *)
(** ** The relational store behind [BlockProxy] and [DBBlock] *)
(* ================================================================== *)

Module FileRow.
Record t : Type := mk { id : Z; eol : string }.
End FileRow.

(** [order] is the dense key that places a line in its file. *)
Module LineRow.
Record t : Type := mk { id : Z; fileId : Z; order : Q }.
End LineRow.

Module BlockRow.
Record t : Type := mk {
  id        : Z;
  blockId   : string;
  fileId    : Z;
  type      : BlockType.t;
  timestamp : Z;
  parentId  : option Z;
  originId  : option Z
}.
Definition setTimestamp (b : t) (newTimestamp : Z) : t :=
  mk (id b) (blockId b) (fileId b) (type b) newTimestamp (parentId b) (originId b).
End BlockRow.

Module HeadRow.
Record t : Type := mk { blockId : Z; lineId : Z; versionId : Z }.
End HeadRow.

Module TagRow.
Record t : Type := mk { tagId : string; blockId : Z; name : string; timestamp : Z; code : string }.
End TagRow.

Module Store.
(** [blockLines] is the many-to-many relation between blocks and the lines
    they claim, as pairs (block id, line id); [clock] is the state of the
    [TimestampProvider]. *)
Record t : Type := mk {
  files      : list FileRow.t;
  lines      : list LineRow.t;
  versions   : list Version;
  blocks     : list BlockRow.t;
  blockLines : list (Z * Z);
  heads      : list HeadRow.t;
  tags       : list TagRow.t;
  clock      : TimestampProvider.t
}.

Definition with_versions (s : t) (vs : list Version) : t :=
  mk (files s) (lines s) vs (blocks s) (blockLines s) (heads s) (tags s) (clock s).
Definition with_lines (s : t) (ls : list LineRow.t) : t :=
  mk (files s) ls (versions s) (blocks s) (blockLines s) (heads s) (tags s) (clock s).
Definition with_blocks (s : t) (bs : list BlockRow.t) : t :=
  mk (files s) (lines s) (versions s) bs (blockLines s) (heads s) (tags s) (clock s).
Definition with_blockLines (s : t) (bl : list (Z * Z)) : t :=
  mk (files s) (lines s) (versions s) (blocks s) bl (heads s) (tags s) (clock s).
Definition with_heads (s : t) (hs : list HeadRow.t) : t :=
  mk (files s) (lines s) (versions s) (blocks s) (blockLines s) hs (tags s) (clock s).
Definition with_clock (s : t) (c : TimestampProvider.t) : t :=
  mk (files s) (lines s) (versions s) (blocks s) (blockLines s) (heads s) (tags s) c.

Definition line_of (s : t) (lid : Z) : option LineRow.t :=
  find (fun l => LineRow.id l =? lid) (lines s).

Definition block_of (s : t) (bid : Z) : option BlockRow.t :=
  find (fun b => BlockRow.id b =? bid) (blocks s).

(** [blocks: { some: { id } }] on a line, [lines: { some: { id } }] on a block. *)
Definition connected (s : t) (bid lid : Z) : bool :=
  existsb (fun p => (fst p =? bid) && (snd p =? lid)) (blockLines s).

(** [connect]: relating what is related already changes nothing. *)
Definition connect (s : t) (bid lid : Z) : t :=
  if connected s bid lid then s else with_blockLines s (blockLines s ++ [(bid, lid)]).

(** The key of [orderBy: { line: { order } }] on a version. *)
Definition order_of (s : t) (v : Version) : Q :=
  match line_of s (lineId v) with
  | Some l => LineRow.order l
  | None => 0%Q
  end.

Definition fresh_id (ids : list Z) : Z := fold_right Z.max 0 ids + 1.
End Store.

Definition Qlt_bool (a b : Q) : bool := negb (Qle_bool b a).
Definition line_order_asc (a b : LineRow.t) : bool := Qle_bool (LineRow.order a) (LineRow.order b).
Definition line_order_desc (a b : LineRow.t) : bool := Qle_bool (LineRow.order b) (LineRow.order a).

(** The largest and the smallest timestamp of a group of versions. *)
Definition max_timestamp (d : Z) (vs : list Version) : Z :=
  fold_left (fun m v => Z.max m (timestamp v)) vs d.
Definition min_timestamp (d : Z) (vs : list Version) : Z :=
  fold_left (fun m v => Z.min m (timestamp v)) vs d.

(** [groupBy({ by: ["lineId"], _max: { timestamp } })] and its [_min] twin:
    one pair (line id, aggregate) per line that has a row in [vs]. *)
Definition group_by_line (agg : Z -> list Version -> Z) (vs : list Version) : list (Z * Z) :=
  map (fun lid =>
         match filter (fun v => lineId v =? lid) vs with
         | [] => (lid, 0)
         | v :: rest => (lid, agg (timestamp v) rest)
         end)
      (dedup Z.eqb (map lineId vs)).

(** [where: { OR: keys }] with keys of the shape [{ lineId, timestamp }]. *)
Definition matches_key (keys : list (Z * Z)) (v : Version) : bool :=
  existsb (fun k => (lineId v =? fst k) && (timestamp v =? snd k)) keys.

Definition string_of_Z (n : Z) : string := NilZero.string_of_int (Z.to_int n).

(* ================================================================== *)
(** ** Collaborators of [BlockProxy] whose files are not at hand *)
(* ================================================================== *)

Module LineProxy.

(** Modelled from the spec: [LineProxy.getBlocks] is missing (only
    [addBlock] and [addBlocks] of the class are in the sources); by the data
    model a line knows "the set of Blocks it currently belongs to". *)
Definition getBlocks (s : Store.t) (line : Z) : list BlockRow.t :=
  filter (fun b => Store.connected s (BlockRow.id b) line) (Store.blocks s).

(** Modelled from the spec: [LineProxy.getBlockIds] is missing; it yields
    the string ids of the blocks of [getBlocks]. *)
Definition getBlockIds (s : Store.t) (line : Z) : list string :=
  map BlockRow.blockId (getBlocks s line).

(** [addBlock(block, headVersion)], from the sources: relate the line to the
    block and create the head row of the block on the line. *)
Definition addBlock (s : Store.t) (line : Z) (block : BlockRow.t) (headVersion : Version)
  : Store.t :=
  let s1 := Store.connect s (BlockRow.id block) line in
  Store.with_heads s1
    (Store.heads s1 ++ [HeadRow.mk (BlockRow.id block) line (id headVersion)]).

(** [addBlocks(headInfo)], from the sources: relate the line to every block
    of the map and create one head row per block. *)
Definition addBlocks (s : Store.t) (line : Z) (headInfo : list (BlockRow.t * Version)) : Store.t :=
  let s1 := fold_left (fun acc bv => Store.connect acc (BlockRow.id (fst bv)) line) headInfo s in
  Store.with_heads s1
    (Store.heads s1 ++ map (fun bv => HeadRow.mk (BlockRow.id (fst bv)) line (id (snd bv)))
                           headInfo).

End LineProxy.

Module FileProxy.

Definition getEol (s : Store.t) (file : Z) : Result string :=
  of_option (option_map FileRow.eol (find (fun f => FileRow.id f =? file) (Store.files s)))
            NotFound.

(** Modelled from the spec: part of the missing [FileProxy.insertLines]; the
    key of the [k]-th of [n] new lines, "a dense rational" that "lies strictly
    between" the keys of the neighbours. *)
Definition order_between (previous next : option Q) (n k : Z) : Q :=
  match previous, next with
  | Some p, Some q => Qred (p + (inject_Z (k + 1) * (q - p)) / inject_Z (n + 1))%Q
  | Some p, None => Qred (p + inject_Z (k + 1))%Q
  | None, Some q => Qred (q - inject_Z (n - k))%Q
  | None, None => inject_Z (k + 1)
  end.

(** Modelled from the spec: part of the missing [FileProxy.insertLines]; one
    line after the other is given its row, its PRE_INSERTION at a new
    timestamp and its INSERTION at the next one. *)
Fixpoint insertLines_from (file sourceBlock : Z) (previous next : option Q) (n k : Z)
         (lineContents : list string) (s : Store.t)
  : list (LineRow.t * Version * Version) * Store.t :=
  match lineContents with
  | [] => ([], s)
  | c :: rest =>
      let line := LineRow.mk (Store.fresh_id (map LineRow.id (Store.lines s))) file
                             (order_between previous next n k) in
      let '(t0, clock0) := TimestampProvider.getTimestamp (Store.clock s) in
      let '(t1, clock1) := TimestampProvider.getTimestamp clock0 in
      let vid := Store.fresh_id (map id (Store.versions s)) in
      let v0 := mkVersion vid (LineRow.id line) t0 PRE_INSERTION false "" (Some sourceBlock) None in
      let v1 := mkVersion (vid + 1) (LineRow.id line) t1 INSERTION true c (Some sourceBlock) None in
      let s1 := Store.with_clock
                  (Store.with_versions
                     (Store.with_lines s (Store.lines s ++ [line]))
                     (Store.versions s ++ [v0; v1]))
                  clock1 in
      let '(created, s2) := insertLines_from file sourceBlock previous next n (k + 1) rest s1 in
      ((line, v0, v1) :: created, s2)
  end.

(** Modelled from the spec: [FileProxy.insertLines] is missing.  "It
    allocates a fresh Line with two Versions: PRE_INSERTION
    (is_active=false) at timestamp t, INSERTION (is_active=true, content) at
    t+1", "the new line's order lies strictly between" its neighbours, and
    the "block timestamp [is] advanced" for the block performing the edit. *)
Definition insertLines (s : Store.t) (file : Z) (lineContents : list string)
           (previous next : option LineRow.t) (sourceBlock : BlockRow.t)
  : list (LineRow.t * Version * Version) * Store.t :=
  let '(created, s1) :=
    insertLines_from file (BlockRow.id sourceBlock)
                     (option_map LineRow.order previous) (option_map LineRow.order next)
                     (zlength lineContents) 0 lineContents s in
  match last_opt created with
  | None => (created, s1)
  | Some (_, _, v1) =>
      (created,
       Store.with_blocks s1
         (map (fun b => if BlockRow.id b =? BlockRow.id sourceBlock
                        then BlockRow.setTimestamp b (timestamp v1) else b)
              (Store.blocks s1)))
  end.

End FileProxy.

(* ================================================================== *)
(** ** [BlockProxy]: the read side *)
(* ================================================================== *)

(** What [asBlockInfo] hands to the editor. *)
Module VCSBlockInfo.
Record t : Type := mk {
  blockId             : string;
  type                : BlockType.t;
  startLine           : Z;
  endLine             : Z;
  userVersionCount    : Z;
  currentVersionIndex : Z;
  tags                : list TagRow.t
}.
End VCSBlockInfo.

Module VCSBlockRange.
Record t : Type := mk { startLine : Z; endLine : Z }.
End VCSBlockRange.

(** A replacement of text as the editor reports it: the replaced range, the
    text put in its place, and the text of the touched lines after the edit. *)
Module MultiLineChange.
Record t : Type := mk {
  startLineNumber : Z;
  startColumn     : Z;
  endLineNumber   : Z;
  endColumn       : Z;
  insertedText    : string;
  lineText        : string
}.
End MultiLineChange.

Module BlockProxy.

Section Queries.
(** The store, and the proxy the method is called on.  A proxy caches the
    columns of its row and [setTimestamp] writes row and cache together, so
    [this.timestamp] is the [timestamp] of the row [this]. *)
Variable s : Store.t.
Variable this : BlockRow.t.

(** [line: { blocks: { some: { id: this.id } } }] *)
Definition line_in_block (l : LineRow.t) : bool :=
  Store.connected s (BlockRow.id this) (LineRow.id l).

(** [line: { fileId: this.file.id, blocks: { some: { id: this.id } } }] *)
Definition line_in_file_block (l : LineRow.t) : bool :=
  (LineRow.fileId l =? BlockRow.fileId this) && line_in_block l.

Definition on_block_line (v : Version) : bool :=
  match Store.line_of s (lineId v) with
  | Some l => line_in_block l
  | None => false
  end.

Definition on_file_block_line (v : Version) : bool :=
  match Store.line_of s (lineId v) with
  | Some l => line_in_file_block l
  | None => false
  end.

Definition getCloneCount : Z :=
  zlength (filter (fun b => option_Z_eqb (BlockRow.originId b) (Some (BlockRow.id this)))
                  (Store.blocks s)).

Definition getChildren : list BlockRow.t :=
  filter (fun b => option_Z_eqb (BlockRow.parentId b) (Some (BlockRow.id this)))
         (Store.blocks s).

Definition getChildrenCount : Z := zlength getChildren.

Definition getLineCount : Z := zlength (filter line_in_block (Store.lines s)).

Definition getVersionCount : Z :=
  zlength (filter (fun v => on_block_line v && negb (VersionType_eqb (type v) CLONE))
                  (Store.versions s)).

Definition getLines : list LineRow.t :=
  sort_by line_order_asc (filter line_in_block (Store.lines s)).

Definition getTags : list TagRow.t :=
  filter (fun t => TagRow.blockId t =? BlockRow.id this) (Store.tags s).

Definition getOriginalLineCount : Z :=
  zlength (filter (fun v => on_block_line v && VersionType_eqb (type v) IMPORTED)
                  (Store.versions s)).

(** The aggregation all head computations start with: per claimed line the
    largest version timestamp not after [this.timestamp]. *)
Definition potentiallyActiveHeads : list (Z * Z) :=
  group_by_line max_timestamp
    (filter (fun v => on_file_block_line v && (timestamp v <=? BlockRow.timestamp this))
            (Store.versions s)).

Definition order_asc (a b : Version) : bool :=
  Qle_bool (Store.order_of s a) (Store.order_of s b).
Definition order_desc (a b : Version) : bool :=
  Qle_bool (Store.order_of s b) (Store.order_of s a).

Definition preInsertionHeads : list (Z * Z) :=
  group_by_line min_timestamp
    (filter (fun v => on_file_block_line v
                      && negb (existsb (fun k => fst k =? lineId v) potentiallyActiveHeads))
            (Store.versions s)).

(** [getHeads]: for the lines left over by [potentiallyActiveHeads], the
    lines not yet born, the smallest timestamp of each; then the versions
    with these line ids and timestamps, in the order of their lines. *)
Definition getHeads : list Version :=
  let heads := (potentiallyActiveHeads ++ preInsertionHeads)%list in
  sort_by order_asc (filter (matches_key heads) (Store.versions s)).

(** [getHeads(true)]: every head together with the row of its line. *)
Definition getHeadsWithLines : list (Version * LineRow.t) :=
  flat_map (fun v => match Store.line_of s (lineId v) with
                     | Some l => [(v, l)]
                     | None => []
                     end) getHeads.

Definition getActiveHeads : list Version :=
  sort_by order_asc
    (filter (fun v => matches_key potentiallyActiveHeads v && isActive v) (Store.versions s)).

Definition getActiveLineCount : Z :=
  zlength (filter (fun v => matches_key potentiallyActiveHeads v && isActive v)
                  (Store.versions s)).

Definition getActiveLines : list LineRow.t :=
  sort_by line_order_asc
    (filter (fun l =>
               existsb (fun k =>
                          (LineRow.id l =? fst k)
                          && existsb (fun v => (lineId v =? LineRow.id l)
                                               && (timestamp v =? snd k) && isActive v)
                                     (Store.versions s))
                       potentiallyActiveHeads)
            (Store.lines s)).

(** [getHeadFor(line)]: the latest version of the line not after
    [this.timestamp]; failing that, [findFirstOrThrow] over the versions of
    all lines of the block, earliest first. *)
Definition getHeadFor (line : Z) : Result Version :=
  let head := hd_error (sort_by timestamp_desc
                (filter (fun v => (lineId v =? line)
                                  && (timestamp v <=? BlockRow.timestamp this))
                        (Store.versions s))) in
  match head with
  | Some head => Ok head
  | None =>
      of_option (hd_error (sort_by timestamp_asc
                             (filter on_file_block_line (Store.versions s))))
                NotFound
  end.

Definition getLastImportedVersion : option Version :=
  hd_error (sort_by timestamp_desc
              (filter (fun v => on_file_block_line v && VersionType_eqb (type v) IMPORTED)
                      (Store.versions s))).

Definition getCurrentVersion : Result Version :=
  of_option (hd_error (sort_by order_desc
                         (filter (matches_key potentiallyActiveHeads) (Store.versions s))))
            NotFound.

Definition getTimelineIndexFor (version : Version) : Z :=
  zlength (filter (fun v => on_file_block_line v
                            && negb (VersionType_eqb (type v) IMPORTED
                                     || VersionType_eqb (type v) CLONE)
                            && (timestamp v <? timestamp version))
                  (Store.versions s)).

Definition getTimeline : list Version :=
  let lastImportedLine := getLastImportedVersion in
  sort_by timestamp_asc
    (filter (fun v => on_file_block_line v
                      && negb (VersionType_eqb (type v) CLONE)
                      && match lastImportedLine with
                         | Some l => timestamp l <=? timestamp v
                         | None => true
                         end)
            (Store.versions s)).

(** [getLinesInRange].  The callback of the last [filter] reads
    [firstVersion.line] and, for a version at or behind it,
    [lastVersion.line]; [firstVersion] itself is among the heads, so the
    read of an [undefined] bound raises as soon as there is any head. *)
Definition getLinesInRange (range : VCSBlockRange.t) : Result (list LineRow.t) :=
  let versions := getHeadsWithLines in
  let activeVersions := filter (fun vl => isActive (fst vl)) versions in
  let firstVersion := at_index activeVersions (VCSBlockRange.startLine range - 1) in
  let lastVersion := at_index activeVersions (VCSBlockRange.endLine range - 1) in
  match versions with
  | [] => Ok []
  | _ :: _ =>
      match firstVersion, lastVersion with
      | Some f, Some l =>
          Ok (map snd
                (filter (fun vl =>
                           Qle_bool (LineRow.order (snd f)) (LineRow.order (snd vl))
                           && Qle_bool (LineRow.order (snd vl)) (LineRow.order (snd l)))
                        versions))
      | _, _ => Throw TypeError
      end
  end.

Definition getActiveLinesInRange (range : VCSBlockRange.t) : list LineRow.t :=
  filter_line_numbers (VCSBlockRange.startLine range) (VCSBlockRange.endLine range)
                      getActiveLines.

(** The sibling test of [createChild]:
    [block.findFirst({ where: { parentId: this.id, lines: { some: { id: { in } } } } })]. *)
Definition overlappingChild (linesInRange : list LineRow.t) : option BlockRow.t :=
  find (fun b => option_Z_eqb (BlockRow.parentId b) (Some (BlockRow.id this))
                 && existsb (fun l => Store.connected s (BlockRow.id b) (LineRow.id l))
                            linesInRange)
       (Store.blocks s).

Definition asBlockInfo : Result VCSBlockInfo.t :=
  let originalLineCount := getOriginalLineCount in
  let activeLineCount := getActiveLineCount in
  let versionCount := getVersionCount in
  let lastImportedVersion := getLastImportedVersion in
  let? firstLine :=
    of_option (hd_error (sort_by line_order_asc (filter line_in_file_block (Store.lines s))))
              NotFound in
  let? currentVersion := getCurrentVersion in
  let tags := getTags in
  if activeLineCount =? 0 then Throw NoActiveLines
  else
    let userVersionCount :=
      versionCount - originalLineCount
      + match lastImportedVersion with Some _ => 1 | None => 0 end in
    let? range :=
      match BlockRow.parentId this with
      | None => Ok (1, activeLineCount)
      | Some parentId =>
          let? parent := of_option (Store.block_of s parentId) NotFound in
          let parentTimestamp := BlockRow.timestamp parent in
          let potentiallyActiveHeadsBeforeBlock :=
            group_by_line max_timestamp
              (filter (fun v =>
                         match Store.line_of s (lineId v) with
                         | Some l => (LineRow.fileId l =? BlockRow.fileId this)
                                     && negb (line_in_block l)
                                     && Qlt_bool (LineRow.order l) (LineRow.order firstLine)
                         | None => false
                         end
                         && (timestamp v <=? parentTimestamp))
                      (Store.versions s)) in
          let activeLinesBeforeBlock :=
            zlength (filter (fun v => matches_key potentiallyActiveHeadsBeforeBlock v
                                      && isActive v)
                            (Store.versions s)) in
          Ok (activeLinesBeforeBlock + 1, activeLinesBeforeBlock + activeLineCount)
      end in
    let currentVersionIndex := getTimelineIndexFor currentVersion in
    Ok (VCSBlockInfo.mk (BlockRow.blockId this) (BlockRow.type this)
                        (fst range) (snd range)
                        userVersionCount currentVersionIndex tags).

End Queries.

(** *** The write side *)

Inductive BlockReference : Type := Previous | Next.

Definition reload (s : Store.t) (this : BlockRow.t) : BlockRow.t :=
  match Store.block_of s (BlockRow.id this) with
  | Some b => b
  | None => this
  end.

(** [setTimestamp]: the row and the cached column are written together. *)
Definition setTimestamp (s : Store.t) (this : BlockRow.t) (newTimestamp : Z) : Store.t :=
  Store.with_blocks s
    (map (fun b => if BlockRow.id b =? BlockRow.id this
                   then BlockRow.setTimestamp b newTimestamp else b)
         (Store.blocks s)).

Definition applyTimestamp (s : Store.t) (this : BlockRow.t) (timestamp : Z) : Store.t :=
  setTimestamp s this timestamp.

Definition applyIndex (s : Store.t) (this : BlockRow.t) (targetIndex : Z)
  : Result unit * Store.t :=
  let timeline := getTimeline s this in
  if (targetIndex <? 0) || (zlength timeline <=? targetIndex)
  then (Throw (OutOfBounds targetIndex (zlength timeline)), s)
  else match at_index timeline targetIndex with
       | Some selectedVersion => (Ok tt, applyTimestamp s this (timestamp selectedVersion))
       | None => (Throw TypeError, s)
       end.

Definition inlineCopy (s : Store.t) (this : BlockRow.t) (lines : list LineRow.t)
  : BlockRow.t * Store.t :=
  let childrenCount := getChildrenCount s this in
  let block := BlockRow.mk (Store.fresh_id (map BlockRow.id (Store.blocks s)))
                           (BlockRow.blockId this ++ ":inline" ++ string_of_Z childrenCount)
                           (BlockRow.fileId this) BlockType.INLINE (BlockRow.timestamp this)
                           (Some (BlockRow.id this)) None in
  let s1 := Store.with_blocks s (Store.blocks s ++ [block]) in
  (block, fold_left (fun acc l => Store.connect acc (BlockRow.id block) (LineRow.id l)) lines s1).

(** [createChild]: [Ok None] is the [null] handed back on overlap. *)
Definition createChild (s : Store.t) (this : BlockRow.t) (range : VCSBlockRange.t)
  : Result (option BlockRow.t) * Store.t :=
  match getLinesInRange s this range with
  | Throw e => (Throw e, s)
  | Ok linesInRange =>
      match overlappingChild s this linesInRange with
      | Some _ => (Ok None, s)
      | None => let '(child, s1) := inlineCopy s this linesInRange in (Ok (Some child), s1)
      end
  end.

Definition insertLines (s : Store.t) (this : BlockRow.t) (lineContents : list string)
           (previous next : option LineRow.t) (blockReference : option BlockReference)
  : list (LineRow.t * Version * Version) * Store.t :=
  let '(lines, s1) := FileProxy.insertLines s (BlockRow.fileId this) lineContents
                                            previous next this in
  match blockReference with
  | None => (lines, s1)
  | Some blockReference =>
      let blockReferenceLine :=
        match blockReference with
        | Previous => match previous with Some p => Some p | None => next end
        | Next => match next with Some n => Some n | None => previous end
        end in
      match blockReferenceLine with
      | None => (lines, s1)
      | Some blockReferenceLine =>
          let blocks := LineProxy.getBlocks s1 (LineRow.id blockReferenceLine) in
          (lines,
           fold_left
             (fun acc lineInfo =>
                let '(line, v0, v1) := lineInfo in
                LineProxy.addBlocks acc (LineRow.id line)
                  (map (fun block => (block, if BlockRow.id block =? BlockRow.id this
                                             then v1 else v0)) blocks))
             lines s1)
      end
  end.

Definition prependLines (s : Store.t) (this : BlockRow.t) (lineContents : list string)
  : Result (list (LineRow.t * Version * Version)) * Store.t :=
  match hd_error (sort_by line_order_asc (filter (line_in_file_block s this) (Store.lines s))) with
  | None => (Throw NotFound, s)
  | Some nextLine =>
      let previousLine :=
        hd_error (sort_by line_order_desc
                    (filter (fun l => (LineRow.fileId l =? BlockRow.fileId this)
                                      && negb (line_in_block s this l)
                                      && Qlt_bool (LineRow.order l) (LineRow.order nextLine))
                            (Store.lines s))) in
      let '(lines, s1) := insertLines s this lineContents previousLine (Some nextLine) (Some Next) in
      (Ok lines, s1)
  end.

Definition appendLines (s : Store.t) (this : BlockRow.t) (lineContents : list string)
  : Result (list (LineRow.t * Version * Version)) * Store.t :=
  match hd_error (sort_by line_order_desc (filter (line_in_file_block s this) (Store.lines s))) with
  | None => (Throw NotFound, s)
  | Some previousLine =>
      let nextLine :=
        hd_error (sort_by line_order_asc
                    (filter (fun l => (LineRow.fileId l =? BlockRow.fileId this)
                                      && negb (line_in_block s this l)
                                      && Qlt_bool (LineRow.order previousLine) (LineRow.order l))
                            (Store.lines s))) in
      let '(lines, s1) := insertLines s this lineContents (Some previousLine) nextLine (Some Previous) in
      (Ok lines, s1)
  end.

(** The line number an insertion is carried out at. *)
Definition insertionLineNumber (s : Store.t) (this : BlockRow.t) (lineNumber : Z) : Z :=
  let lastLineNumber := getActiveLineCount s this in
  let newLastLine := lastLineNumber + 1 in
  Z.min (Z.max lineNumber 1) newLastLine.

Definition insertLinesAt (s : Store.t) (this : BlockRow.t) (lineNumber : Z)
           (lineContents : list string) : Result (list LineRow.t) * Store.t :=
  let lastLineNumber := getActiveLineCount s this in
  let newLastLine := lastLineNumber + 1 in
  let insertionLineNumber := Z.min (Z.max lineNumber 1) newLastLine in
  if insertionLineNumber =? 1 then
    match prependLines s this lineContents with
    | (Ok lines, s1) => (Ok (map (fun l => fst (fst l)) lines), s1)
    | (Throw e, s1) => (Throw e, s1)
    end
  else if insertionLineNumber =? newLastLine then
    match appendLines s this lineContents with
    | (Ok lines, s1) => (Ok (map (fun l => fst (fst l)) lines), s1)
    | (Throw e, s1) => (Throw e, s1)
    end
  else
    let activeLines := getActiveLines s this in
    match at_index activeLines (insertionLineNumber - 2),
          at_index activeLines (insertionLineNumber - 1) with
    | Some previousLine, Some currentLine =>
        let '(lines, s1) := insertLines s this lineContents (Some previousLine)
                                        (Some currentLine) (Some Previous) in
        (Ok (map (fun l => fst (fst l)) lines), s1)
    | _, _ => (Throw TypeError, s)
    end.

(** [lines[0]] of [insertLinesAt(lineNumber, [content])]. *)
Definition insertLineAt (s : Store.t) (this : BlockRow.t) (lineNumber : Z) (content : string)
  : Result (option LineRow.t) * Store.t :=
  match insertLinesAt s this lineNumber [content] with
  | (Ok lines, s1) => (Ok (hd_error lines), s1)
  | (Throw e, s1) => (Throw e, s1)
  end.

Definition cloneOutdatedHeads (s : Store.t) (this : BlockRow.t) : Store.t :=
  let heads := getHeads s this in
  let linesToUpdate :=
    filter (fun l => line_in_file_block s this l
                     && existsb (fun v => (lineId v =? LineRow.id l)
                                          && (BlockRow.timestamp this <? timestamp v))
                                (Store.versions s))
           (Store.lines s) in
  let headsToClone :=
    filter (fun head => existsb (fun line => LineRow.id line =? lineId head) linesToUpdate)
           heads in
  match headsToClone with
  | [] => s
  | _ :: _ =>
      let '(cloneTimestamp, clock1) := TimestampProvider.getTimestamp (Store.clock s) in
      let firstId := Store.fresh_id (map id (Store.versions s)) in
      let clones :=
        map (fun hk => mkVersion (firstId + Z.of_nat (snd hk)) (lineId (fst hk)) cloneTimestamp
                                 CLONE (isActive (fst hk)) (content (fst hk))
                                 (Some (BlockRow.id this)) (Some (id (fst hk))))
            (combine headsToClone (seq 0 (List.length headsToClone))) in
      setTimestamp
        (Store.with_clock (Store.with_versions s (Store.versions s ++ clones)) clock1)
        this cloneTimestamp
  end.

(** *** The edit engine *)

(** [deleteLine] and [updateLine], the local functions of [changeLines]: the
    line is recorded as affected, a timestamp is drawn and the new version
    is queued; the queue is written in one transaction. *)
Definition newVersion (s : Store.t) (this : BlockRow.t) (line : LineRow.t)
           (type : VersionType) (isActive : bool) (content : string) : Z * Store.t :=
  let '(latestTimestamp, clock1) := TimestampProvider.getTimestamp (Store.clock s) in
  let v := mkVersion (Store.fresh_id (map id (Store.versions s))) (LineRow.id line)
                     latestTimestamp type isActive content (Some (BlockRow.id this)) None in
  (latestTimestamp, Store.with_clock (Store.with_versions s (Store.versions s ++ [v])) clock1).

Definition deleteLine (this : BlockRow.t) (acc : Z * Store.t) (line : LineRow.t) : Z * Store.t :=
  newVersion (snd acc) this line DELETION false "".

Definition updateLine (this : BlockRow.t) (acc : Z * Store.t) (lc : LineRow.t * string)
  : Z * Store.t :=
  newVersion (snd acc) this (fst lc) CHANGE true (snd lc).

Definition changeLines (s : Store.t) (this : BlockRow.t) (change : MultiLineChange.t)
  : Result (list string) * Store.t :=
  match FileProxy.getEol s (BlockRow.fileId this) with
  | Throw e => (Throw e, s)
  | Ok eol =>
  let heads := getHeadsWithLines s this in
  let activeHeads := filter (fun h => isActive (fst h)) heads in
  let splitChangeString := Str.split (MultiLineChange.insertedText change) eol in
  match at_index activeHeads (MultiLineChange.startLineNumber change - 1) with
  | None => (Throw TypeError, s)
  | Some startHead =>
  let startLineContent := content (fst startHead) in
  let insertedBeforeCode :=
    MultiLineChange.startColumn change
    <=? Str.length startLineContent - Str.length (Str.trimStart startLineContent) + 1 in
  let startsWithEol := Str.startsWith (MultiLineChange.insertedText change) eol in
  let endsWithEol :=
    Str.endsWith (MultiLineChange.insertedText change) eol
    || match last_opt splitChangeString with
       | Some piece => Str.length (Str.trim piece) =? 0
       | None => false
       end in
  let insertedAtStartOfStartLine := insertedBeforeCode in
  let insertedAtEndOfStartLine :=
    Str.length startLineContent <? MultiLineChange.startColumn change in
  let oneLineModification :=
    MultiLineChange.startLineNumber change =? MultiLineChange.endLineNumber change in
  let oneLineInsertOnly :=
    oneLineModification
    && (MultiLineChange.startColumn change =? MultiLineChange.endColumn change) in
  let pushStartLineDown := insertedAtStartOfStartLine && endsWithEol in
  let pushStartLineUp := insertedAtEndOfStartLine && startsWithEol in
  let noModifications := oneLineInsertOnly && (pushStartLineUp || pushStartLineDown) in
  let allLines := Str.split (MultiLineChange.lineText change) eol in
  let '(modifiedLines, startLine, endLine) :=
    if pushStartLineUp
    then (tl allLines, MultiLineChange.startLineNumber change + 1,
          MultiLineChange.endLineNumber change)
    else if pushStartLineDown
    then (removelast allLines, MultiLineChange.startLineNumber change,
          MultiLineChange.endLineNumber change - 1)
    else (allLines, MultiLineChange.startLineNumber change,
          MultiLineChange.endLineNumber change) in
  let vcsLines :=
    if noModifications then []
    else filter_line_numbers startLine endLine (map snd activeHeads) in
  let deleted := rev (skipn (List.length modifiedLines) vcsLines) in
  let updated := combine vcsLines modifiedLines in
  let affectedLines := (deleted ++ map fst updated)%list in
  let acc0 := (BlockRow.timestamp this, s) in
  let acc1 := fold_left (deleteLine this) deleted acc0 in
  let '(latestTimestamp, s2) := fold_left (updateLine this) updated acc1 in
  let s3 := setTimestamp s2 this latestTimestamp in
  let linesToInsert := skipn (List.length vcsLines) modifiedLines in
  match insertLinesAt s3 (reload s3 this) (startLine + zlength vcsLines) linesToInsert with
  | (Throw e, s4) => (Throw e, s4)
  | (Ok _, s4) =>
      let affectedBlocks :=
        dedup String.eqb
              (flat_map (fun line => LineProxy.getBlockIds s4 (LineRow.id line)) affectedLines) in
      (Ok affectedBlocks, s4)
  end
  end
  end.

(** *** Blocks from files and from blocks *)

(** The static [createRootBlock(file, filePath)]: the new block claims every
    line of the file, its timestamp is the latest timestamp of their versions
    (0 without any), and it becomes the source block of these versions. *)
Definition createRootBlock (s : Store.t) (file : Z) (filePath : string)
  : string * BlockRow.t * Store.t :=
  let lines :=
    sort_by line_order_asc (filter (fun l => LineRow.fileId l =? file) (Store.lines s)) in
  let versions :=
    sort_by timestamp_asc
      (flat_map (fun line => filter (fun v => lineId v =? LineRow.id line) (Store.versions s))
                lines) in
  let latestTimestamp :=
    match last_opt versions with
    | Some v => timestamp v
    | None => 0
    end in
  let blockId := filePath ++ ":root" in
  let block := BlockRow.mk (Store.fresh_id (map BlockRow.id (Store.blocks s))) blockId file
                           BlockType.ROOT latestTimestamp None None in
  let s1 := Store.with_blocks s (Store.blocks s ++ [block]) in
  let s2 :=
    fold_left (fun acc l => Store.connect acc (BlockRow.id block) (LineRow.id l)) lines s1 in
  let s3 :=
    Store.with_versions s2
      (map (fun v => if existsb (fun w => id w =? id v) versions
                     then with_sourceBlockId v (Some (BlockRow.id block)) else v)
           (Store.versions s2)) in
  (blockId, block, s3).

(** [copy()]: a CLONE block on the lines of the heads of this block, at the
    latest timestamp of these heads.  ([sort] works in place: the lines are
    connected in the order of the sorted heads.) *)
Definition copy (s : Store.t) (this : BlockRow.t) : BlockRow.t * Store.t :=
  let cloneCount := getCloneCount s this in
  let versions := sort_by timestamp_asc (getHeads s this) in
  let latestTimestamp :=
    match last_opt versions with
    | Some v => timestamp v
    | None => 0
    end in
  let block := BlockRow.mk (Store.fresh_id (map BlockRow.id (Store.blocks s)))
                           (BlockRow.blockId this ++ ":inline" ++ string_of_Z cloneCount)
                           (BlockRow.fileId this) BlockType.CLONE latestTimestamp
                           None (Some (BlockRow.id this)) in
  let s1 := Store.with_blocks s (Store.blocks s ++ [block]) in
  (block,
   fold_left (fun acc version => Store.connect acc (BlockRow.id block) (lineId version))
             versions s1).

(** *** The text of a block *)

(** [clonesToConsider.find(clone => clone.origin.id === this.id)]; a block
    that is no clone has no [origin] to read the [id] of. *)
Fixpoint findCloneOf (this : BlockRow.t) (clonesToConsider : list BlockRow.t)
  : Result (option BlockRow.t) :=
  match clonesToConsider with
  | [] => Ok None
  | clone :: rest =>
      match BlockRow.originId clone with
      | None => Throw TypeError
      | Some origin =>
          if origin =? BlockRow.id this then Ok (Some clone) else findCloneOf this rest
      end
  end.

(** [getVersionsForText(accumulation)]: the heads of this block, then those of
    its children and of their children, written into one [Map] from line id
    to version, a later block overwriting an earlier one; a block with a
    clone among [clonesToConsider] is replaced by that clone.  The recursion
    follows the rows of the store and need not end: [fuel] bounds its depth,
    [None] is the call that has not returned. *)
Fixpoint getVersionsForText (fuel : nat) (s : Store.t) (this : BlockRow.t)
         (clonesToConsider : option (list BlockRow.t))
         (collectedVersions : option (list (Z * Version)))
  : option (Result (list (Z * Version))) :=
  match fuel with
  | O => None
  | S fuel =>
      match match clonesToConsider with
            | Some clones => findCloneOf this clones
            | None => Ok None
            end with
      | Throw e => Some (Throw e)
      | Ok (Some clone) => getVersionsForText fuel s clone clonesToConsider collectedVersions
      | Ok None =>
          let versions := match collectedVersions with Some m => m | None => [] end in
          let blockVersions := getHeads s this in
          let versions :=
            fold_left (fun m version => map_set m (lineId version) version)
                      blockVersions versions in
          (fix children_loop (children : list BlockRow.t) (versions : list (Z * Version))
             : option (Result (list (Z * Version))) :=
             match children with
             | [] => Some (Ok versions)
             | child :: rest =>
                 match getVersionsForText fuel s child clonesToConsider (Some versions) with
                 | Some (Ok versions) => children_loop rest versions
                 | other => other
                 end
             end) (getChildren s this) versions
      end
  end.

(** [getText(clonesToConsider)]: for every line of the block, in the order
    of the lines, the content of the version collected for it if that version
    is active; the pieces are joined by the line terminator of the file. *)
Definition getText (fuel : nat) (s : Store.t) (this : BlockRow.t)
           (clonesToConsider : option (list BlockRow.t)) : option (Result string) :=
  let lines := getLines s this in
  match FileProxy.getEol s (BlockRow.fileId this) with
  | Throw e => Some (Throw e)
  | Ok eol =>
      match getVersionsForText fuel s this clonesToConsider None with
      | None => None
      | Some (Throw e) => Some (Throw e)
      | Some (Ok versions) =>
          Some (let? content :=
                  map_result (fun line =>
                                match map_get versions (LineRow.id line) with
                                | Some version =>
                                    Ok (if isActive version then Some (content version)
                                        else None)
                                | None => Throw TypeError
                                end) lines in
                Ok (Str.join eol (flat_map (fun c => match c with
                                                      | Some c => [c]
                                                      | None => []
                                                      end) content)))
      end
  end.

End BlockProxy.

(** [customTrimEnd(input, eol)], the function at the end of the file of
    [BlockProxy]: every line loses the spaces and tabs it ends with.
    [trimEndBlanks] is [line.replace(/[ \t]+$/, )] with the empty string put
    in. *)
Definition is_blank (c : ascii) : bool :=
  (Nat.eqb (nat_of_ascii c) 32 || Nat.eqb (nat_of_ascii c) 9)%bool.

Fixpoint dropBlanks (s : string) : string :=
  match s with
  | EmptyString => EmptyString
  | String c s' => if is_blank c then dropBlanks s' else s
  end.

Definition trimEndBlanks (s : string) : string :=
  Str.rev_string (dropBlanks (Str.rev_string s)).

Definition customTrimEnd (input eol : string) : string :=
  Str.join eol (map trimEndBlanks (Str.split input eol)).

(* ================================================================== *)
(** ** [DBBlock]: the first persisted draft *)
(* ================================================================== *)

Module DBBlock.

Definition getTimeline (s : Store.t) (this : BlockRow.t) : list Version :=
  sort_by timestamp_asc
    (filter (fun v => BlockProxy.on_block_line s this v
                      && negb (VersionType_eqb (type v) IMPORTED
                               || VersionType_eqb (type v) INSERTION))
            (Store.versions s)).


(** [getTimelineIndexFor(version)]: the count of the timeline entries not
    later than the version, less one. *)
Definition getTimelineIndexFor (s : Store.t) (this : BlockRow.t) (version : Version) : Z :=
  zlength (filter (fun v => BlockProxy.on_block_line s this v
                            && negb (VersionType_eqb (type v) IMPORTED
                                     || VersionType_eqb (type v) INSERTION)
                            && (timestamp v <=? timestamp version))
                  (Store.versions s))
  - 1.

End DBBlock.

(* ================================================================== *)
(** ** [Block]: the in-memory block *)
(* ================================================================== *)

Module LineType.
Inductive t : Type := Original | Inserted.
End LineType.

Module InsertionState.
Inductive t : Type := Normal | PreInsertionEngaged | PreInsertionReleased.
Definition eqb (a b : t) : bool :=
  match a, b with
  | Normal, Normal | PreInsertionEngaged, PreInsertionEngaged
  | PreInsertionReleased, PreInsertionReleased => true
  | _, _ => false
  end.
End InsertionState.

(** A [Line] is the view one block has of a line node: the node, its history
    and the head the block currently shows.  The classes [Line], [LineNode] and
    [LineNodeVersion] ([core/line], [core/version]) are not in the sources. *)
Module Line.
Record t : Type := mk {
  node           : Z;
  lineType       : LineType.t;
  position       : Z;
  history        : list Version;
  currentVersion : Version
}.

(** Modelled from the spec: the getters [isInserted], [isActive] and
    [currentContent] of the missing [Line]; lines "are created on file import"
    or "via edits", and what a block shows of a line is the head: its
    [is_active] and its [content]. *)
Definition isInserted (l : t) : bool :=
  match lineType l with LineType.Inserted => true | LineType.Original => false end.
Definition isActive (l : t) : bool := isActive (currentVersion l).
Definition currentContent (l : t) : string := content (currentVersion l).

(** Modelled from the spec: [Line.getPosition] is missing; a position is the
    "absolute position within the root block, counting for both, visible and
    hidden lines", kept here as an attribute of the view. *)
Definition getPosition (l : t) : Z := position l.

(** Modelled from the spec: the head computation of the missing
    [Line.loadTimestamp].  [head_at(t)] is "the last Version with timestamp
    <= t; if none exists (line not yet born at t), returns the earliest
    Version on the line". *)
Definition head_at (hist : list Version) (t : Z) : option Version :=
  match last_opt (filter (fun v => timestamp v <=? t) hist) with
  | Some v => Some v
  | None => hd_error hist
  end.

(** Modelled from the spec: [Line.loadTimestamp] is missing; "all read
    operations re-derive content from head_at(t) per line", so loading a
    timestamp makes [head_at] of it the head of the view. *)
Definition loadTimestamp (l : t) (timestamp : Z) : t :=
  match head_at (history l) timestamp with
  | Some v => mk (node l) (lineType l) (position l) (history l) v
  | None => l
  end.
End Line.

(** Modelled from the spec: the getter [isPreInsertion] of the missing
    [LineNodeVersion]; PRE_INSERTION is the hidden first version of a line born
    by an edit. *)
Definition isPreInsertion (v : Version) : bool := VersionType_eqb (type v) PRE_INSERTION.

(** Modelled from the spec: the class [Tag] ([core/tag]) is missing.  A tag
    holds a "captured timestamp" and "reopens a Block's state by setting
    block.timestamp = tag.timestamp". *)
Module Tag.
Record t : Type := mk { id : string; timestamp : Z }.
End Tag.

Module Block.

(** The fields of the class that the methods below read or write: [lines] is
    the linked list of the views of the claimed lines, first to last,
    [parent] and [children] are the blocks around it, [tags] is the [Map] from
    tag id to tag in insertion order, [lastModifiedLine] is the node of the
    line version merging remembers.  ([isDeleted], [origin] and the
    subscriptions are not touched by these methods.) *)
#[local] Unset Elimination Schemes.
Inductive t : Type := mk {
  id                   : string;
  eol                  : string;
  lines                : list Line.t;
  parent               : option t;
  children             : list t;
  tags                 : list (string * Tag.t);
  enableVersionMerging : bool;
  lastModifiedLine     : option Z
}.
#[local] Set Elimination Schemes.

Definition with_lines (b : t) (ls : list Line.t) : t :=
  mk (id b) (eol b) ls (parent b) (children b) (tags b) (enableVersionMerging b)
     (lastModifiedLine b).

Definition isRoot (b : t) : bool :=
  match parent b with None => true | Some _ => false end.

(** *** Version merging *)

Definition resetVersionMerging (b : t) : t :=
  mk (id b) (eol b) (lines b) (parent b) (children b) (tags b) (enableVersionMerging b) None.

Definition setupVersionMerging (b : t) (line : Line.t) : t :=
  if enableVersionMerging b
  then mk (id b) (eol b) (lines b) (parent b) (children b) (tags b) (enableVersionMerging b)
          (Some (Line.node line))
  else b.

(** *** Line data accessors *)

Definition getLines (b : t) : list Line.t := lines b.
Definition getActiveLines (b : t) : list Line.t := filter Line.isActive (lines b).
Definition getLineCount (b : t) : Z := zlength (lines b).
Definition getLineContent (b : t) : list string := map Line.currentContent (getActiveLines b).
Definition getCurrentText (b : t) : string := Str.join (eol b) (getLineContent b).

Definition getVersions (b : t) : list Version := flat_map Line.history (lines b).
Definition getVersionCount (b : t) : Z := zlength (getVersions b).

(** [firstLine.isActive ? firstLine : firstLine.getNextActiveLine()]: a
    block without lines has no [firstLine] to read from, and the search of
    the missing [getNextActiveLine] is taken to end with the block. *)
Definition getFirstActiveLine (b : t) : Result (option Line.t) :=
  match lines b with
  | [] => Throw TypeError
  | _ :: _ => Ok (hd_error (getActiveLines b))
  end.

Definition getLastActiveLine (b : t) : Result (option Line.t) :=
  match lines b with
  | [] => Throw TypeError
  | _ :: _ => Ok (last_opt (getActiveLines b))
  end.

(** Modelled from the spec: [Line.getLineNumber] is missing; the line
    number is the 1-based "line number within the editor, if this line is
    displayed", that is the rank of the line among the active lines of its
    block ([getActiveLineCount] is [getLastLineNumber]). *)
Definition getLineNumber (b : t) (l : Line.t) : option Z :=
  if Line.isActive l
  then option_map (fun i => i + 1)
                  (indexOf (fun x y => Line.node x =? Line.node y) l (getActiveLines b))
  else None.

Definition getFirstLineNumber (b : t) : Result Z :=
  let? l := getFirstActiveLine b in
  let? l := of_option l TypeError in
  of_option (getLineNumber b l) TypeError.

Definition getLastLineNumber (b : t) : Result Z :=
  let? l := getLastActiveLine b in
  let? l := of_option l TypeError in
  of_option (getLineNumber b l) TypeError.

Definition getFirstPosition (b : t) : Result Z :=
  of_option (option_map Line.getPosition (hd_error (lines b))) TypeError.
Definition getLastPosition (b : t) : Result Z :=
  of_option (option_map Line.getPosition (last_opt (lines b))) TypeError.

Definition containsPosition (b : t) (position : Z) : Result bool :=
  let? first := getFirstPosition b in
  if first <=? position
  then let? last := getLastPosition b in Ok (position <=? last)
  else Ok false.

Definition containsLineNumber (b : t) (lineNumber : Z) : Result bool :=
  let? first := getFirstLineNumber b in
  if first <=? lineNumber
  then let? last := getLastLineNumber b in Ok (lineNumber <=? last)
  else Ok false.

Definition getLineByLineNumber (b : t) (lineNumber : Z) : Result Line.t :=
  let? inside := containsLineNumber b lineNumber in
  if negb inside then Throw InvalidLineNumber
  else of_option (find (fun l => match getLineNumber b l with
                                 | Some n => n =? lineNumber
                                 | None => false
                                 end) (lines b))
                 InvalidLineNumber.

Definition lineNumberToPosition (b : t) (lineNumber : Z) : Result Z :=
  let? inside := containsLineNumber b lineNumber in
  if negb inside then Throw InvalidLineNumber
  else let? l := getLineByLineNumber b lineNumber in Ok (Line.getPosition l).

(** *** Children *)

Definition getChildren (b : t) : list t := children b.

Fixpoint filter_result {A} (f : A -> Result bool) (l : list A) : Result (list A) :=
  match l with
  | [] => Ok []
  | x :: l' =>
      let? keep := f x in
      let? rest := filter_result f l' in
      Ok (if keep then x :: rest else rest)
  end.

Definition getChildrenByPosition (b : t) (position : Z) : Result (list t) :=
  filter_result (fun child => containsPosition child position) (getChildren b).

Definition getChildrenByLineNumber (b : t) (lineNumber : Z) : Result (list t) :=
  let? position := lineNumberToPosition b lineNumber in
  getChildrenByPosition b position.

(** [overlapsWith(range)], on the line numbers of the first and the last
    active line. *)
Definition overlapsWith (b : t) (range : VCSBlockRange.t) : Result bool :=
  let? first := getFirstLineNumber b in
  if first <=? VCSBlockRange.endLine range
  then let? last := getLastLineNumber b in Ok (VCSBlockRange.startLine range <=? last)
  else Ok false.

(** [a.find(f)] for a callback that can throw. *)
Fixpoint find_result {A} (f : A -> Result bool) (l : list A) : Result (option A) :=
  match l with
  | [] => Ok None
  | x :: l' =>
      let? found := f x in
      if found then Ok (Some x) else find_result f l'
  end.

(** The statements of [createChild] in front of
    [new InlineBlock(this, firstLine, lastLine)]: [Ok None] is the [null]
    handed back on overlap, [Ok (Some (firstLine, lastLine))] are the lines
    the child is built from. *)
Definition createChild_firstAndLastLine (b : t) (range : VCSBlockRange.t)
  : Result (option (Line.t * Line.t)) :=
  let? overlappingSnapshot :=
    find_result (fun snapshot => overlapsWith snapshot range) (getChildren b) in
  match overlappingSnapshot with
  | Some _ => Ok None
  | None =>
      let? firstLine := getLineByLineNumber b (VCSBlockRange.startLine range) in
      let? lastLine := getLineByLineNumber b (VCSBlockRange.endLine range) in
      Ok (Some (firstLine, lastLine))
  end.

(** *** Edit mechanics *)

(** The line number [insertLine] works with. *)
Definition adjustedLineNumber (lastLineNumber lineNumber : Z) : Z :=
  let newLastLine := lastLineNumber + 1 in
  Z.min (Z.max lineNumber 1) newLastLine.

(** The opening statements of [insertLine], up to and including the
    computation of [expandedChildren]; the creation of the line
    ([Line.create]) and the widening of the children follow them. *)
Definition insertLine_expandedChildren (b : t) (lineNumber : Z) : Result (list t) * t :=
  let b := resetVersionMerging b in
  (let? lastLineNumber := getLastLineNumber b in
   let adjusted := adjustedLineNumber lastLineNumber lineNumber in
   getChildrenByLineNumber b (Z.min (adjusted - 1) lastLineNumber),
   b).

(** *** Snapshot functionality *)

Definition getHeads (b : t) : list Version := map Line.currentVersion (lines b).

Definition getOriginalLineCount (b : t) : Z :=
  zlength (filter (fun l => negb (Line.isInserted l)) (lines b)).

Definition getUserVersionCount (b : t) : Z := getVersionCount b - getLineCount b + 1.

(** Modelled from the spec: the history a [LineNodeVersion] is linked into;
    "each Line stores its versions in timestamp-ascending order", and the
    version belongs to the line whose id it carries. *)
Definition historyOf (b : t) (v : Version) : list Version :=
  match find (fun l => Line.node l =? lineId v) (lines b) with
  | Some l => Line.history l
  | None => []
  end.

(** Modelled from the spec: the link [previous] of the missing
    [LineNodeVersion], the neighbour in front of the version in the history of
    its line. *)
Definition previous (b : t) (v : Version) : option Version :=
  match indexOf Version_eqb v (historyOf b v) with
  | Some i => at_index (historyOf b v) (i - 1)
  | None => None
  end.

(** Modelled from the spec: the link [next] of the missing
    [LineNodeVersion], the neighbour behind the version in the history of its
    line ("[prev.next]", "[sel.next]" of the snap rules). *)
Definition next (b : t) (v : Version) : option Version :=
  match indexOf Version_eqb v (historyOf b v) with
  | Some i => at_index (historyOf b v) (i + 1)
  | None => None
  end.

(** [version.previous?.isPreInsertion] *)
Definition previousIsPreInsertion (b : t) (v : Version) : bool :=
  match previous b v with
  | Some p => isPreInsertion p
  | None => false
  end.

Definition getTimeline (b : t) : list Version :=
  let timeline := sort_by timestamp_asc
                    (filter (fun version => negb (previousIsPreInsertion b version))
                            (getVersions b)) in
  skipn (Z.to_nat (getOriginalLineCount b - 1)) timeline.

Definition getCurrentVersion (b : t) : option Version :=
  hd_error (sort_by timestamp_desc (filter (fun head => negb (isPreInsertion head)) (getHeads b))).

Definition getCurrentVersionIndex (b : t) : Result Z :=
  let? currentVersion := of_option (getCurrentVersion b) TypeError in
  let currentVersion :=
    if previousIsPreInsertion b currentVersion
    then match previous b currentVersion with Some p => p | None => currentVersion end
    else currentVersion in
  of_option (indexOf Version_eqb currentVersion (getTimeline b)) LatestHeadNotInTimeline.

Definition getLatestVersion (b : t) : Result (option Version) :=
  let? index := getCurrentVersionIndex b in
  Ok (at_index (getTimeline b) index).

(** Modelled from the spec: [isHeadOf] of the missing [LineNodeVersion]: the
    version "is the current head" of the block. *)
Definition isHeadOf (b : t) (v : Version) : bool := existsb (Version_eqb v) (getHeads b).

(** Modelled from the spec: [insertionState] of the missing
    [LineNodeVersion]: a PRE_INSERTION is "currently engaged (the
    corresponding Line is hidden)" or "currently released (line is
    visible)"; every other version is in the normal state. *)
Definition insertionState (b : t) (v : Version) : InsertionState.t :=
  if isPreInsertion v
  then match find (fun l => Line.node l =? lineId v) (lines b) with
       | Some l => if Line.isActive l
                   then InsertionState.PreInsertionReleased
                   else InsertionState.PreInsertionEngaged
       | None => InsertionState.Normal
       end
  else InsertionState.Normal.

Definition applyTimestamp (b : t) (timestamp : Z) : list Version * t :=
  let b' := with_lines b (map (fun line => Line.loadTimestamp line timestamp) (lines b)) in
  (getHeads b', b').

(** [f(v)] for a version that may be [undefined], as in [v?.f()] and in
    [v === latest && v.f()] with a defined [latest]. *)
Definition defined_and (f : Version -> bool) (v : option Version) : bool :=
  match v with
  | Some v => f v
  | None => false
  end.

(** The version [applyIndex] decides to apply; [None] is [undefined]. *)
Definition snapVersion (b : t) (selectedVersion : Version)
           (previousVersion nextVersion : option Version) (latestVersion : Version)
  : option Version :=
  if defined_and (fun p => Version_eqb p latestVersion
                           && InsertionState.eqb (insertionState b p)
                                                 InsertionState.PreInsertionEngaged)
                 previousVersion
  then match previousVersion with Some p => next b p | None => None end
  else if defined_and (fun n => Version_eqb n latestVersion
                                && InsertionState.eqb (insertionState b n)
                                                      InsertionState.PreInsertionReleased)
                      nextVersion
  then nextVersion
  else if isPreInsertion selectedVersion
          && (isHeadOf b selectedVersion || defined_and (isHeadOf b) nextVersion)
  then next b selectedVersion
  else Some selectedVersion.

Definition applyIndex (b : t) (targetIndex : Z) : Result (list Version) * t :=
  let b := resetVersionMerging b in
  let timeline := getTimeline b in
  if (targetIndex <? 0) || (zlength timeline <=? targetIndex)
  then (Throw (OutOfBounds targetIndex (zlength timeline)), b)
  else
    match at_index timeline targetIndex with
    | None => (Throw TypeError, b)
    | Some selectedVersion =>
        let previousVersion :=
          if 0 <=? targetIndex - 1 then at_index timeline (targetIndex - 1) else None in
        let nextVersion :=
          if targetIndex + 1 <? zlength timeline then at_index timeline (targetIndex + 1)
          else None in
        match getCurrentVersionIndex b with
        | Throw e => (Throw e, b)
        | Ok latestIndex =>
            match at_index timeline latestIndex with
            | None => (Throw TypeError, b)
            | Some latestVersion =>
                match snapVersion b selectedVersion previousVersion nextVersion
                                  latestVersion with
                | None => (Throw TypeError, b)
                | Some version =>
                    let '(heads, b') := applyTimestamp b (timestamp version) in
                    (Ok heads, b')
                end
            end
        end
    end.

(** *** Tags *)

(** Modelled from the spec: [Tag.applyTo] is missing; "a Tag reopens a
    Block's state by setting block.timestamp = tag.timestamp". *)
Definition Tag_applyTo (tag : Tag.t) (b : t) : t := snd (applyTimestamp b (Tag.timestamp tag)).

(** [new Tag(this, TimestampProvider.getLastTimestamp())]; the id of the tag is
    of no concern to the methods below. *)
Definition createCurrentTag (clock : TimestampProvider.t) (b : t) : Tag.t :=
  Tag.mk "" (TimestampProvider.getLastTimestamp clock).

Definition tags_get (b : t) (id : string) : option Tag.t :=
  option_map snd (find (fun kv => String.eqb (fst kv) id) (tags b)).

(** [getFullText(selectedLines)]: the lines a block further down has chosen
    win over the lines of the blocks above it. *)
Definition select (selectedLines : list (Z * Line.t)) (ls : list Line.t) : list (Z * Line.t) :=
  fold_left (fun sel line =>
               if existsb (fun kv => fst kv =? Line.node line) sel then sel
               else (sel ++ [(Line.node line, line)])%list)
            ls selectedLines.

Fixpoint selectedContents (selectedLines : list (Z * Line.t)) (ls : list Line.t)
  : Result (list string) :=
  match ls with
  | [] => Ok []
  | line :: rest =>
      let? l := of_option (option_map snd
                             (find (fun kv => fst kv =? Line.node line) selectedLines))
                          TypeError in
      let? cs := selectedContents selectedLines rest in
      Ok (Line.currentContent l :: cs)
  end.

Fixpoint getFullText (b : t) (selectedLines : option (list (Z * Line.t))) : Result string :=
  match parent b, selectedLines with
  | None, None => Ok (getCurrentText b)
  | _, _ =>
      let selectedLines :=
        select (match selectedLines with Some sel => sel | None => [] end) (lines b) in
      match parent b with
      | Some p => getFullText p (Some selectedLines)
      | None =>
          let? contents := selectedContents selectedLines (lines b) in
          Ok (Str.join (eol b) contents)
      end
  end.

Definition loadTag (b : t) (id : string) : Result string * t :=
  match tags_get b id with
  | None => (Throw TypeError, b)
  | Some tag =>
      let b' := Tag_applyTo tag b in
      (getFullText b' None, b')
  end.

Definition getTextForVersion (clock : TimestampProvider.t) (b : t) (id : string)
  : Result string * t :=
  let recoveryPoint := createCurrentTag clock b in
  match loadTag b id with
  | (Throw e, b') => (Throw e, b')
  | (Ok text, b') => (Ok text, Tag_applyTo recoveryPoint b')
  end.

End Block.

(* ================================================================== *)
(** ** The statements of the specification, in its own words *)
(* ================================================================== *)

Module Spec.

(** "The last Version with timestamp <= t; if none exists (line not yet born
    at t), the earliest Version on the line": [h] is the head at [t] of the
    line whose versions are [vs]. *)
Definition is_head_at (vs : list Version) (t : Z) (h : Version) : Prop :=
  In h vs
  /\ ((timestamp h <= t /\ forall v, In v vs -> timestamp v <= t -> timestamp v <= timestamp h)
      \/ ((forall v, In v vs -> t < timestamp v)
          /\ forall v, In v vs -> timestamp h <= timestamp v)).

(** "Versions on claimed lines with kind not in {IMPORTED, CLONE}, ascending
    by timestamp", in front of them "the last" IMPORTED version "as the
    original anchor"; [vs] are the versions on the claimed lines. *)
Definition is_edit (v : Version) : bool :=
  negb (VersionType_eqb (type v) IMPORTED || VersionType_eqb (type v) CLONE).

Definition is_imported (v : Version) : bool := VersionType_eqb (type v) IMPORTED.

Definition is_clone (v : Version) : bool := VersionType_eqb (type v) CLONE.

Definition anchor (vs : list Version) : list Version :=
  match hd_error (sort_by timestamp_desc (filter is_imported vs)) with
  | Some v => [v]
  | None => []
  end.

Definition timeline (vs : list Version) : list Version :=
  (anchor vs ++ sort_by timestamp_asc (filter is_edit vs))%list.

(** "total_versions_on_claimed_lines - imported_line_count + (1 if any
    imported line else 0)"; [ls] are the ids of the claimed lines. *)
Definition is_imported_line (vs : list Version) (line : Z) : bool :=
  existsb (fun v => (lineId v =? line) && is_imported v) vs.

Definition userVersionCount (ls : list Z) (vs : list Version) : Z :=
  zlength vs - zlength (filter (is_imported_line vs) ls)
  + (if existsb (is_imported_line vs) ls then 1 else 0).

(** The four snap rules.  [sel], [prev], [next] are the timeline entries at
    and around the chosen index, [latest] is the entry at the current index,
    [successor] is the version that follows a version on its line. *)
Section SnapRules.
Variables (engaged released isHead : Version -> Prop).
Variable successor : Version -> option Version.
Variables (sel : Version) (prev next : option Version) (latest : Version).

Definition rule1 (p : Version) : Prop :=
  prev = Some p /\ p = latest /\ isPreInsertion p = true /\ engaged p.
Definition rule2 (n : Version) : Prop :=
  next = Some n /\ n = latest /\ isPreInsertion n = true /\ released n.
Definition rule3 : Prop :=
  isPreInsertion sel = true /\ (isHead sel \/ exists n, next = Some n /\ isHead n).

Inductive snap : option Version -> Prop :=
| snap_reveal p :
    rule1 p -> snap (successor p)
| snap_hide n :
    (forall p, ~ rule1 p) -> rule2 n -> snap (Some n)
| snap_skip :
    (forall p, ~ rule1 p) -> (forall n, ~ rule2 n) -> rule3 -> snap (successor sel)
| snap_selected :
    (forall p, ~ rule1 p) -> (forall n, ~ rule2 n) -> ~ rule3 -> snap (Some sel).
End SnapRules.

(** What the rules mean on a persisted block: a version is a head when the
    head computation yields it, and its successor is the next version of
    its line. *)
Definition isHeadOf (s : Store.t) (this : BlockRow.t) (v : Version) : Prop :=
  In v (BlockProxy.getHeads s this).

Definition successor (s : Store.t) (v : Version) : option Version :=
  hd_error (sort_by timestamp_asc
              (filter (fun w => (lineId w =? lineId v) && (timestamp v <? timestamp w))
                      (Store.versions s))).

(** The requested lines overlap "a claimed Line of an existing sibling
    INLINE child". *)
Definition overlaps_sibling (s : Store.t) (this : BlockRow.t) (lines : list LineRow.t) : Prop :=
  exists c l,
    In c (Store.blocks s)
    /\ BlockRow.parentId c = Some (BlockRow.id this)
    /\ BlockRow.type c = BlockType.INLINE
    /\ In l lines
    /\ Store.connected s (BlockRow.id c) (LineRow.id l) = true.

(** Integrity of the store: only INLINE blocks have a parent, and the
    relation between blocks and lines relates blocks of the store. *)
Definition children_are_inline (s : Store.t) : Prop :=
  forall c, In c (Store.blocks s) -> BlockRow.parentId c <> None ->
            BlockRow.type c = BlockType.INLINE.

Definition relation_on_blocks (s : Store.t) : Prop :=
  forall p, In p (Store.blockLines s) ->
            exists b, In b (Store.blocks s) /\ BlockRow.id b = fst p.

(** "[apply_index(i)] selects the version [v] by the four snap rules and
    then performs [apply_timestamp(v.timestamp)]", said of a persisted block
    for a given reading of "engaged", "released" and of the latest entry. *)
Definition persisted_applyIndex_snaps (engaged released : Version -> Prop) (latest : Version)
           (s : Store.t) (this : BlockRow.t) (i : Z) : Prop :=
  forall sel v,
    at_index (BlockProxy.getTimeline s this) i = Some sel ->
    snap engaged released (isHeadOf s this) (successor s) sel
         (at_index (BlockProxy.getTimeline s this) (i - 1))
         (at_index (BlockProxy.getTimeline s this) (i + 1))
         latest (Some v) ->
    BlockProxy.applyIndex s this i
    = (Ok tt, BlockProxy.applyTimestamp s this (timestamp v)).

End Spec.

(* ================================================================== *)
(** ** Names for the steps and the states that the statements speak of *)
(* ================================================================== *)

(** *** The steps of [cloneOutdatedHeads], by name *)

(** [linesToUpdate]: a line of the block is outdated when it has a version
    later than the timestamp of the block. *)
Definition outdated (s : Store.t) (this : BlockRow.t) (l : LineRow.t) : bool :=
  BlockProxy.line_in_file_block s this l
  && existsb (fun v => (lineId v =? LineRow.id l) && (BlockRow.timestamp this <? timestamp v))
             (Store.versions s).

(** [headsToClone]: the heads on the outdated lines. *)
Definition headsToClone (s : Store.t) (this : BlockRow.t) : list Version :=
  filter (fun head => existsb (fun line => LineRow.id line =? lineId head)
                              (filter (outdated s this) (Store.lines s)))
         (BlockProxy.getHeads s this).

(** The rows of [version.createMany]: one CLONE per head, at the next
    timestamp of the provider. *)
Definition clones (s : Store.t) (this : BlockRow.t) : list Version :=
  map (fun hk => mkVersion (Store.fresh_id (map id (Store.versions s)) + Z.of_nat (snd hk))
                           (lineId (fst hk)) (Store.clock s + 1) CLONE (isActive (fst hk))
                           (content (fst hk)) (Some (BlockRow.id this)) (Some (id (fst hk))))
      (combine (headsToClone s this) (seq 0 (List.length (headsToClone s this)))).

(** The row of the line of a version. *)
Definition lineOf (s : Store.t) (h : Version) : LineRow.t :=
  match Store.line_of s (lineId h) with
  | Some l => l
  | None => LineRow.mk 0 0 0
  end.

(** What [getVersionsForText] may hand back over the versions collected in
    [base]: a TypeError, or a map whose new keys are lines with a version. *)
Definition collects (s : Store.t) (base : list (Z * Version))
           (r : Result (list (Z * Version))) : Prop :=
  match r with
  | Throw e => e = TypeError
  | Ok M => forall key, map_get M key <> None ->
                        map_get base key <> None
                        \/ exists v, In v (Store.versions s) /\ lineId v = key
  end.

(** The versions of a store are well formed: their ids are unique, a line
    has one version per timestamp, and no timestamp is later than the last
    one the provider handed out. *)
Definition well_formed_versions (s : Store.t) : Prop :=
  NoDup (map id (Store.versions s))
  /\ NoDup (map (fun v => (lineId v, timestamp v)) (Store.versions s))
  /\ forall v, In v (Store.versions s) -> timestamp v <= Store.clock s.

(** [s'] has the versions of [s], in place, and behind them versions that
    are stamped later than anything [s] had handed out. *)
Definition extends_history (s s' : Store.t) : Prop :=
  Store.clock s <= Store.clock s'
  /\ exists added,
       Store.versions s' = (Store.versions s ++ added)%list
       /\ forall v, In v added -> Store.clock s < timestamp v <= Store.clock s'.

(** [s'] extends the history of [s] and is well formed when [s] is. *)
Definition grows (s s' : Store.t) : Prop :=
  extends_history s s' /\ (well_formed_versions s -> well_formed_versions s').

(* ================================================================== *)
(** ** Files, stores and blocks used as concrete inputs *)
(* ================================================================== *)

Module Examples.

Definition LF : string := String (ascii_of_nat 10) EmptyString.

Definition imported (i line t : Z) (c : string) : Version :=
  mkVersion i line t IMPORTED true c None None.

(** [load_file("/a", LF, "x LF y LF z")]: three lines, a root block. *)
Definition loaded : Store.t :=
  Store.mk [FileRow.mk 1 LF]
           [LineRow.mk 1 1 (1 # 1); LineRow.mk 2 1 (2 # 1); LineRow.mk 3 1 (3 # 1)]
           [imported 1 1 1 "x"; imported 2 2 2 "y"; imported 3 3 3 "z"]
           [BlockRow.mk 1 "/a:root" 1 BlockType.ROOT 3 None None]
           [(1, 1); (1, 2); (1, 3)] [] [] 3.

(** The same file with its lines imported "at a shared timestamp". *)
Definition loadedAtOnce : Store.t :=
  Store.mk [FileRow.mk 1 LF]
           [LineRow.mk 1 1 (1 # 1); LineRow.mk 2 1 (2 # 1); LineRow.mk 3 1 (3 # 1)]
           [imported 1 1 1 "x"; imported 2 2 1 "y"; imported 3 3 1 "z"]
           [BlockRow.mk 1 "/a:root" 1 BlockType.ROOT 1 None None]
           [(1, 1); (1, 2); (1, 3)] [] [] 1.

Definition no_block : BlockRow.t := BlockRow.mk 0 "" 0 BlockType.ROOT 0 None None.

(** The proxy of the block with the given id, read from the store. *)
Definition proxy (s : Store.t) (block : Z) : BlockRow.t :=
  match Store.block_of s block with
  | Some b => b
  | None => no_block
  end.

(** [insert_line_at(2, "new")] on the root. *)
Definition afterInsert : Store.t :=
  snd (BlockProxy.insertLineAt loaded (proxy loaded 1) 2 "new").

(** ... followed by [apply_index(0)]: the root is back at the imported text. *)
Definition scrubbedBack : Store.t :=
  snd (BlockProxy.applyIndex afterInsert (proxy afterInsert 1) 0).

(** Line 2 of the loaded file becomes "Y", the root is scrubbed back to the
    original and its outdated heads are cloned. *)
Definition editLine2 : MultiLineChange.t := MultiLineChange.mk 2 1 2 2 "Y" "Y".

Definition afterEdit : Store.t :=
  snd (BlockProxy.changeLines loaded (proxy loaded 1) editLine2).

Definition afterClone : Store.t :=
  let s := snd (BlockProxy.applyIndex afterEdit (proxy afterEdit 1) 0) in
  BlockProxy.cloneOutdatedHeads s (proxy s 1).

(** The no-break space U+00A0, typed in front of the text of line 2. *)
Definition noBreakSpace : string := String (ascii_of_nat 160) EmptyString.

Definition typeNoBreakSpace : MultiLineChange.t :=
  MultiLineChange.mk 2 1 2 1 noBreakSpace (noBreakSpace ++ "y").

(** Lines 2 and 3 edited, the block scrubbed back to the imported text, and
    both heads cloned in one call. *)
Definition editLine3 : MultiLineChange.t := MultiLineChange.mk 3 1 3 2 "Z" "Z".

Definition twoClones : Store.t :=
  let s1 := snd (BlockProxy.changeLines afterEdit (proxy afterEdit 1) editLine3) in
  let s2 := snd (BlockProxy.applyIndex s1 (proxy s1 1) 0) in
  BlockProxy.cloneOutdatedHeads s2 (proxy s2 1).

(** The return key pressed at the end of line 1 of the loaded file. *)
Definition pressReturn : MultiLineChange.t :=
  MultiLineChange.mk 1 2 1 2 LF ("x" ++ LF).

(** A child on lines 2-3 of the loaded file. *)
Definition withChild : Store.t :=
  snd (BlockProxy.createChild loaded (proxy loaded 1) (VCSBlockRange.mk 2 3)).

(** The lines a persisted block shows, top to bottom. *)
Definition shown (s : Store.t) (block : Z) : list string :=
  map content (BlockProxy.getActiveHeads s (proxy s block)).

(** The in-memory root after the same insertion: "new" was born between "x"
    and "y" and is shown. *)
Definition preInsertion (i line t : Z) : Version :=
  mkVersion i line t PRE_INSERTION false "" None None.
Definition insertion (i line t : Z) (c : string) : Version :=
  mkVersion i line t INSERTION true c None None.
Definition change (i line t : Z) (c : string) : Version :=
  mkVersion i line t CHANGE true c None None.

Definition inserted : Block.t :=
  Block.mk "root" LF
    [Line.mk 1 LineType.Original 1 [imported 1 1 1 "x"] (imported 1 1 1 "x");
     Line.mk 4 LineType.Inserted 2 [preInsertion 4 4 4; insertion 5 4 5 "new"]
             (insertion 5 4 5 "new");
     Line.mk 2 LineType.Original 3 [imported 2 2 2 "y"] (imported 2 2 2 "y");
     Line.mk 3 LineType.Original 4 [imported 3 3 3 "z"] (imported 3 3 3 "z")]
    None [] [] false None.

(** An in-memory root of one line, "x", edited to "y", tagged "T", edited to
    "z"; the provider has handed out three timestamps. *)
Definition history1 : list Version :=
  [imported 1 1 1 "x"; change 2 1 2 "y"; change 3 1 3 "z"].

Definition tagged : Block.t :=
  Block.mk "root" LF
    [Line.mk 1 LineType.Original 1 history1 (change 3 1 3 "z")]
    None [] [("T", Tag.mk "T" 2)] false None.

Definition taggedClock : TimestampProvider.t := 3.

(** ... and scrubbed back to its first timeline entry. *)
Definition taggedScrubbed : Block.t := snd (Block.applyIndex tagged 0).

(** The same root with version merging switched on, after [updateLine] has
    remembered line 1 as the last modified line. *)
Definition merging : Block.t :=
  Block.mk "root" LF
    [Line.mk 1 LineType.Original 1 history1 (change 3 1 3 "z")]
    None [] [] true (Some 1).

(** The edited file, scrubbed back to the imported text. *)
Definition scrubbedEdit : Store.t :=
  snd (BlockProxy.applyIndex afterEdit (proxy afterEdit 1) 0).

(** The loaded file with a fourth line that the root claims and that has no
    version. *)
Definition orphaned : Store.t :=
  Store.mk [FileRow.mk 1 LF]
           [LineRow.mk 1 1 (1 # 1); LineRow.mk 2 1 (2 # 1); LineRow.mk 3 1 (3 # 1);
            LineRow.mk 4 1 (4 # 1)]
           [imported 1 1 1 "x"; imported 2 2 2 "y"; imported 3 3 3 "z"]
           [BlockRow.mk 1 "/a:root" 1 BlockType.ROOT 3 None None]
           [(1, 1); (1, 2); (1, 3); (1, 4)] [] [] 3.

End Examples.

(* ================================================================== *)
(** ** Facts about arrays *)
(* ================================================================== *)

Section SortFacts.
Context {A : Type}.
Variable le : A -> A -> bool.

Lemma insert_by_perm (x : A) (l : list A) : Permutation (insert_by le x l) (x :: l).
Proof.
  induction l as [|y l IH]; simpl.
  - apply Permutation_refl.
  - destruct (le x y).
    + apply Permutation_refl.
    + eapply perm_trans; [apply perm_skip, IH | apply perm_swap].
Qed.

Lemma sort_by_perm (l : list A) : Permutation (sort_by le l) l.
Proof.
  induction l as [|x l IH]; simpl.
  - constructor.
  - eapply perm_trans; [apply insert_by_perm | apply perm_skip, IH].
Qed.

Lemma sort_by_In (x : A) (l : list A) : In x (sort_by le l) <-> In x l.
Proof.
  split; intro H.
  - eapply Permutation_in; [apply sort_by_perm | exact H].
  - eapply Permutation_in; [apply Permutation_sym, sort_by_perm | exact H].
Qed.

Lemma sort_by_length (l : list A) : List.length (sort_by le l) = List.length l.
Proof. apply Permutation_length, sort_by_perm. Qed.

Lemma sort_by_nil (l : list A) : sort_by le l = [] -> l = [].
Proof.
  intro H. apply length_zero_iff_nil. rewrite <- sort_by_length, H. reflexivity.
Qed.

Hypothesis le_total : forall a b, le a b = false -> le b a = true.
Hypothesis le_trans : forall a b c, le a b = true -> le b c = true -> le a c = true.

Lemma insert_by_sorted (x : A) (l : list A) :
  StronglySorted (fun a b => le a b = true) l ->
  StronglySorted (fun a b => le a b = true) (insert_by le x l).
Proof.
  induction 1 as [|y l Hs IH Hy]; simpl.
  - constructor; constructor.
  - destruct (le x y) eqn:E.
    + constructor.
      * constructor; assumption.
      * constructor; [exact E|].
        rewrite Forall_forall in *. intros z Hz. eapply le_trans; [exact E | auto].
    + constructor; [exact IH|].
      rewrite Forall_forall in *. intros z Hz.
      apply (Permutation_in _ (insert_by_perm x l)) in Hz.
      destruct Hz as [<- | Hz]; auto.
Qed.

Lemma sort_by_sorted (l : list A) : StronglySorted (fun a b => le a b = true) (sort_by le l).
Proof.
  induction l as [|x l IH]; simpl.
  - constructor.
  - apply insert_by_sorted, IH.
Qed.

(** The first element of the sorted array is in front of every element. *)
Lemma sort_by_hd (l : list A) (m : A) :
  hd_error (sort_by le l) = Some m ->
  In m l /\ forall x, In x l -> x = m \/ le m x = true.
Proof.
  intro H. pose proof (sort_by_sorted l) as Hs.
  destruct (sort_by le l) as [|m' r] eqn:E; [discriminate|].
  injection H as ->. split.
  - apply sort_by_In. rewrite E. left; reflexivity.
  - intros x Hx. apply sort_by_In in Hx. rewrite E in Hx.
    inversion Hs as [|? ? _ Hall]; subst.
    destruct Hx as [<- | Hx]; [left; reflexivity | right].
    rewrite Forall_forall in Hall. auto.
Qed.
End SortFacts.

Section KeyFacts.
Context {A : Type}.
Variable key : A -> Z.

Lemma NoDup_map_inj (l : list A) (x y : A) :
  NoDup (map key l) -> In x l -> In y l -> key x = key y -> x = y.
Proof.
  induction l as [|a l IH]; simpl; [tauto|].
  intros Hnd Hx Hy Hk. inversion Hnd as [|? ? Hnotin Hnd']; subst.
  destruct Hx as [<- | Hx], Hy as [<- | Hy]; auto.
  - exfalso. apply Hnotin. rewrite Hk. apply in_map, Hy.
  - exfalso. apply Hnotin. rewrite <- Hk. apply in_map, Hx.
Qed.

Lemma NoDup_map_filter (f : A -> bool) (l : list A) :
  NoDup (map key l) -> NoDup (map key (filter f l)).
Proof.
  induction l as [|a l IH]; simpl; intro Hnd; [constructor|].
  inversion Hnd as [|? ? Hnotin Hnd']; subst.
  destruct (f a); simpl; auto.
  constructor; auto.
  intro Hin. apply Hnotin. apply in_map_iff in Hin as (x & Hx & Hin).
  apply filter_In in Hin as [Hin _]. rewrite <- Hx. apply in_map, Hin.
Qed.

Lemma NoDup_of_map (l : list A) : NoDup (map key l) -> NoDup l.
Proof.
  induction l as [|a l IH]; simpl; intro Hnd; constructor;
    inversion Hnd as [|? ? Hnotin Hnd']; subst; auto.
  intro Hin. apply Hnotin, in_map, Hin.
Qed.

(** Two arrays with the same elements, both strictly ascending in the key,
    are the same array. *)
Lemma strictly_sorted_unique (l1 l2 : list A) :
  StronglySorted (fun a b => key a < key b) l1 ->
  StronglySorted (fun a b => key a < key b) l2 ->
  (forall x, In x l1 <-> In x l2) ->
  l1 = l2.
Proof.
  revert l2. induction l1 as [|a l1 IH]; intros l2 H1 H2 Hiff.
  - destruct l2 as [|b l2]; [reflexivity|].
    exfalso. apply (proj2 (Hiff b)). left; reflexivity.
  - destruct l2 as [|b l2].
    + exfalso. apply (proj1 (Hiff a)). left; reflexivity.
    + inversion H1 as [|? ? H1' Ha]; subst. inversion H2 as [|? ? H2' Hb]; subst.
      rewrite Forall_forall in Ha, Hb.
      assert (a = b) as ->.
      { destruct (proj1 (Hiff a) (or_introl eq_refl)) as [Hab | Hab]; [auto|].
        destruct (proj2 (Hiff b) (or_introl eq_refl)) as [Hba | Hba]; [auto|].
        specialize (Ha _ Hba). specialize (Hb _ Hab). lia. }
      f_equal. apply IH; auto.
      intro x. split; intro Hx.
      * destruct (proj1 (Hiff x) (or_intror Hx)) as [<- | Hin]; [|exact Hin].
        specialize (Ha _ Hx). lia.
      * destruct (proj2 (Hiff x) (or_intror Hx)) as [<- | Hin]; [|exact Hin].
        specialize (Hb _ Hx). lia.
Qed.

Lemma sorted_strict (l : list A) :
  StronglySorted (fun a b => (key a <=? key b) = true) l ->
  NoDup (map key l) ->
  StronglySorted (fun a b => key a < key b) l.
Proof.
  induction 1 as [|a l Hs IH Ha]; simpl; intro Hnd; constructor;
    inversion Hnd as [|? ? Hnotin Hnd']; subst; auto.
  rewrite Forall_forall in *. intros x Hx.
  specialize (Ha _ Hx). apply Z.leb_le in Ha.
  assert (key a <> key x) by (intro E; apply Hnotin; rewrite E; apply in_map, Hx).
  lia.
Qed.
End KeyFacts.

Lemma timestamp_asc_total (a b : Version) : timestamp_asc a b = false -> timestamp_asc b a = true.
Proof. unfold timestamp_asc. intro H. apply Z.leb_gt in H. apply Z.leb_le. lia. Qed.

Lemma timestamp_asc_trans (a b c : Version) :
  timestamp_asc a b = true -> timestamp_asc b c = true -> timestamp_asc a c = true.
Proof. unfold timestamp_asc. rewrite !Z.leb_le. lia. Qed.

Lemma timestamp_desc_total (a b : Version) : timestamp_desc a b = false -> timestamp_desc b a = true.
Proof. unfold timestamp_desc. intro H. apply Z.leb_gt in H. apply Z.leb_le. lia. Qed.

Lemma timestamp_desc_trans (a b c : Version) :
  timestamp_desc a b = true -> timestamp_desc b c = true -> timestamp_desc a c = true.
Proof. unfold timestamp_desc. rewrite !Z.leb_le. lia. Qed.

(** The first of the versions sorted by descending timestamp is a latest one. *)
Lemma latest_first (vs : list Version) (m : Version) :
  hd_error (sort_by timestamp_desc vs) = Some m ->
  In m vs /\ forall x, In x vs -> timestamp x <= timestamp m.
Proof.
  intro H.
  destruct (sort_by_hd timestamp_desc timestamp_desc_total timestamp_desc_trans vs m H) as [Hin Hmax].
  split; [exact Hin|]. intros x Hx.
  destruct (Hmax x Hx) as [-> | Hle]; [lia|].
  unfold timestamp_desc in Hle. apply Z.leb_le in Hle. exact Hle.
Qed.

Lemma earliest_first (vs : list Version) (m : Version) :
  hd_error (sort_by timestamp_asc vs) = Some m ->
  In m vs /\ forall x, In x vs -> timestamp m <= timestamp x.
Proof.
  intro H.
  destruct (sort_by_hd timestamp_asc timestamp_asc_total timestamp_asc_trans vs m H) as [Hin Hmax].
  split; [exact Hin|]. intros x Hx.
  destruct (Hmax x Hx) as [-> | Hle]; [lia|].
  unfold timestamp_asc in Hle. apply Z.leb_le in Hle. exact Hle.
Qed.

Lemma zlength_nonneg {A} (l : list A) : 0 <= zlength l.
Proof. unfold zlength. lia. Qed.

Lemma at_index_Some {A} (l : list A) (i : Z) (x : A) :
  at_index l i = Some x -> 0 <= i < zlength l.
Proof.
  unfold at_index, zlength. destruct (i <? 0) eqn:E; [discriminate|].
  apply Z.ltb_ge in E. intro H.
  assert (Z.to_nat i < List.length l)%nat by (apply nth_error_Some; congruence).
  lia.
Qed.

Lemma at_index_in_range {A} (l : list A) (i : Z) :
  0 <= i < zlength l -> exists x, at_index l i = Some x.
Proof.
  unfold at_index, zlength. intros [H0 H1].
  destruct (i <? 0) eqn:E; [apply Z.ltb_lt in E; lia|].
  destruct (nth_error l (Z.to_nat i)) eqn:N; [eauto|].
  apply nth_error_None in N. lia.
Qed.

(* ================================================================== *)
(** ** The end-to-end scenarios of the specification, run on the model *)
(* ================================================================== *)

Import Examples.

(** Import and read. *)
Example scenario_import_and_read :
  shown loaded 1 = ["x"; "y"; "z"]
  /\ BlockProxy.getActiveLineCount loaded (proxy loaded 1) = 3
  /\ option_map VCSBlockInfo.userVersionCount
                (match BlockProxy.asBlockInfo loaded (proxy loaded 1) with
                 | Ok info => Some info
                 | Throw _ => None
                 end) = Some 1.
Proof. vm_compute. repeat split; reflexivity. Qed.

(** Single-line edit. *)
Example scenario_single_line_edit :
  shown afterEdit 1 = ["x"; "Y"; "z"]
  /\ zlength (BlockProxy.getTimeline afterEdit (proxy afterEdit 1)) = 2
  /\ shown (snd (BlockProxy.applyIndex afterEdit (proxy afterEdit 1) 0)) 1 = ["x"; "y"; "z"]
  /\ shown (snd (BlockProxy.applyIndex afterEdit (proxy afterEdit 1) 1)) 1 = ["x"; "Y"; "z"].
Proof. vm_compute. repeat split; reflexivity. Qed.

(** Insert mid-file, persisted and in memory. *)
Example scenario_insert_mid_file :
  shown afterInsert 1 = ["x"; "new"; "y"; "z"]
  /\ shown scrubbedBack 1 = ["x"; "y"; "z"]
  /\ Block.getLineContent inserted = ["x"; "new"; "y"; "z"]
  /\ Block.getLineContent (snd (Block.applyIndex inserted 0)) = ["x"; "y"; "z"]
  /\ Block.getLineContent (snd (Block.applyIndex (snd (Block.applyIndex inserted 0)) 1))
     = ["x"; "new"; "y"; "z"].
Proof. vm_compute. repeat split; reflexivity. Qed.

(** Tag round trip, for a block that is at the latest timestamp. *)
Example scenario_tag_round_trip :
  Block.getCurrentText tagged = "z"
  /\ Block.getTextForVersion taggedClock tagged "T" = (Ok "y", tagged).
Proof. vm_compute. repeat split; reflexivity. Qed.

(* ================================================================== *)
(** ** Heads *)
(* ================================================================== *)

(** While a line has a version that is not later than the timestamp of the
    block, [getHeadFor] yields the head the specification describes. *)
Lemma getHeadFor_born (s : Store.t) (this : BlockRow.t) (line : Z) :
  (exists v, In v (Store.versions s) /\ lineId v = line
             /\ timestamp v <= BlockRow.timestamp this) ->
  exists h, BlockProxy.getHeadFor s this line = Ok h
            /\ Spec.is_head_at (filter (fun v => lineId v =? line) (Store.versions s))
                               (BlockRow.timestamp this) h.
Proof.
  intros (v & Hv & Hl & Ht). unfold BlockProxy.getHeadFor.
  set (born := filter _ (Store.versions s)).
  assert (Hin : In v born).
  { apply filter_In. split; [exact Hv|].
    apply andb_true_iff. split; [apply Z.eqb_eq, Hl | apply Z.leb_le, Ht]. }
  destruct (hd_error (sort_by timestamp_desc born)) as [h|] eqn:E.
  - exists h. split; [reflexivity|].
    apply latest_first in E as [Hh Hmax].
    apply filter_In in Hh as [Hh Hc]. apply andb_true_iff in Hc as [Hc1 Hc2].
    split.
    + apply filter_In. split; assumption.
    + left. split; [apply Z.leb_le, Hc2|].
      intros w Hw Hwt. apply Hmax. apply filter_In in Hw as [Hw Hwl].
      apply filter_In. split; [exact Hw|].
      apply andb_true_iff. split; [exact Hwl | apply Z.leb_le, Hwt].
  - exfalso. destruct (sort_by timestamp_desc born) eqn:E'; [|discriminate].
    apply sort_by_nil in E'. rewrite E' in Hin. exact Hin.
Qed.

Lemma dedup_In (l : list Z) (x : Z) : In x (dedup Z.eqb l) <-> In x l.
Proof.
  induction l as [|a l IH]; simpl; [tauto|].
  rewrite filter_In, IH. split.
  - intros [-> | [H _]]; auto.
  - intros [-> | H]; [auto|].
    destruct (Z.eq_dec a x) as [-> | Hne]; [auto|].
    right. split; [exact H|]. apply negb_true_iff, Z.eqb_neq, Hne.
Qed.

Lemma group_by_line_In (agg : Z -> list Version -> Z) (vs : list Version) (lid m : Z) :
  In (lid, m) (group_by_line agg vs) ->
  exists v rest, filter (fun v => lineId v =? lid) vs = v :: rest /\ m = agg (timestamp v) rest.
Proof.
  unfold group_by_line. intro H. apply in_map_iff in H as (lid' & Heq & Hin).
  apply (proj1 (dedup_In _ _)) in Hin. apply in_map_iff in Hin as (w & Hw & Hwin).
  destruct (filter (fun v => lineId v =? lid') vs) as [|v rest] eqn:E.
  - exfalso.
    assert (In w (filter (fun v => lineId v =? lid') vs))
      by (apply filter_In; split; [exact Hwin | apply Z.eqb_eq, Hw]).
    rewrite E in H. destruct H.
  - injection Heq as <- <-. eauto.
Qed.

Lemma group_by_line_covers (agg : Z -> list Version -> Z) (vs : list Version) (w : Version) :
  In w vs -> existsb (fun k => fst k =? lineId w) (group_by_line agg vs) = true.
Proof.
  intro Hw. apply existsb_exists. unfold group_by_line.
  eexists. split.
  - apply in_map. apply (proj2 (dedup_In _ _)). apply in_map, Hw.
  - destruct (filter _ vs); apply Z.eqb_refl.
Qed.

Lemma max_timestamp_spec (vs : list Version) (d : Z) :
  d <= max_timestamp d vs
  /\ (forall v, In v vs -> timestamp v <= max_timestamp d vs)
  /\ (max_timestamp d vs = d \/ exists v, In v vs /\ max_timestamp d vs = timestamp v).
Proof.
  unfold max_timestamp. revert d. induction vs as [|a vs IH]; intro d; simpl.
  - repeat split; [lia | tauto | auto].
  - destruct (IH (Z.max d (timestamp a))) as (H1 & H2 & H3). repeat split.
    + lia.
    + intros v [<- | Hv]; [lia | auto].
    + destruct H3 as [H3 | (v & Hv & H3)].
      * rewrite H3.
        destruct (Z.max_spec d (timestamp a)) as [[_ E] | [_ E]]; rewrite E; eauto.
      * eauto.
Qed.

Lemma min_timestamp_spec (vs : list Version) (d : Z) :
  min_timestamp d vs <= d
  /\ (forall v, In v vs -> min_timestamp d vs <= timestamp v).
Proof.
  unfold min_timestamp. revert d. induction vs as [|a vs IH]; intro d; simpl.
  - split; [lia | tauto].
  - destruct (IH (Z.min d (timestamp a))) as (H1 & H2). split.
    + lia.
    + intros v [<- | Hv]; [lia | auto].
Qed.

Lemma on_file_block_line_same_line (s : Store.t) (this : BlockRow.t) (a b : Version) :
  lineId a = lineId b ->
  BlockProxy.on_file_block_line s this a = BlockProxy.on_file_block_line s this b.
Proof. unfold BlockProxy.on_file_block_line. intros ->. reflexivity. Qed.

(** [getHeads], the sibling of [getHeadFor], computes the head of every line
    the way the specification words it, the fallback included. *)
Theorem getHeads_head_at (s : Store.t) (this : BlockRow.t) (h : Version) :
  In h (BlockProxy.getHeads s this) ->
  BlockProxy.on_file_block_line s this h = true
  /\ Spec.is_head_at (filter (fun v => lineId v =? lineId h) (Store.versions s))
                     (BlockRow.timestamp this) h.
Proof.
  unfold BlockProxy.getHeads. intro H. apply sort_by_In in H.
  apply filter_In in H as [Hh Hkey]. unfold matches_key in Hkey.
  apply existsb_exists in Hkey as ([lid m] & Hk & Hm). simpl in Hm.
  apply andb_true_iff in Hm as [Hlid Hts]. apply Z.eqb_eq in Hlid, Hts.
  assert (Hline : In h (filter (fun v => lineId v =? lineId h) (Store.versions s)))
    by (apply filter_In; split; [exact Hh | apply Z.eqb_refl]).
  apply in_app_or in Hk as [Hk | Hk].
  - (* the line is born *)
    apply group_by_line_In in Hk as (v0 & rest & Hgroup & Hmax).
    assert (Hv0 : In v0 (v0 :: rest)) by (left; reflexivity).
    rewrite <- Hgroup in Hv0. apply filter_In in Hv0 as [Hv0 Hv0l].
    apply filter_In in Hv0 as [Hv0in Hv0c]. apply andb_true_iff in Hv0c as [Hv0on Hv0t].
    apply Z.eqb_eq in Hv0l. apply Z.leb_le in Hv0t.
    destruct (max_timestamp_spec rest (timestamp v0)) as (Hge & Hall & Hattained).
    rewrite <- Hmax in Hge, Hall, Hattained.
    assert (Hgroup_le : forall w, In w (v0 :: rest) -> timestamp w <= BlockRow.timestamp this).
    { intros w Hw. rewrite <- Hgroup in Hw. apply filter_In in Hw as [Hw _].
      apply filter_In in Hw as [_ Hw]. apply andb_true_iff in Hw as [_ Hw].
      apply Z.leb_le, Hw. }
    split; [rewrite (on_file_block_line_same_line s this h v0); [exact Hv0on | congruence]|].
    split; [exact Hline|]. left. split.
    + destruct Hattained as [E | (w & Hw & E)].
      * rewrite Hts, E. exact Hv0t.
      * rewrite Hts, E. apply Hgroup_le. right; exact Hw.
    + intros w Hw Hwt. apply filter_In in Hw as [Hwin Hwl]. apply Z.eqb_eq in Hwl.
      assert (Hwg : In w (v0 :: rest)).
      { rewrite <- Hgroup. apply filter_In. split; [|apply Z.eqb_eq; congruence].
        apply filter_In. split; [exact Hwin|].
        rewrite (on_file_block_line_same_line s this w v0) by congruence.
        rewrite Hv0on. apply Z.leb_le, Hwt. }
      rewrite Hts. destruct Hwg as [<- | Hwg]; [exact Hge | apply Hall, Hwg].
  - (* the line is not yet born *)
    apply group_by_line_In in Hk as (v0 & rest & Hgroup & Hmin).
    assert (Hv0 : In v0 (v0 :: rest)) by (left; reflexivity).
    rewrite <- Hgroup in Hv0. apply filter_In in Hv0 as [Hv0 Hv0l].
    apply filter_In in Hv0 as [Hv0in Hv0c]. apply andb_true_iff in Hv0c as [Hv0on Hv0n].
    apply Z.eqb_eq in Hv0l. apply negb_true_iff in Hv0n.
    destruct (min_timestamp_spec rest (timestamp v0)) as (Hle & Hall).
    rewrite <- Hmin in Hle, Hall.
    assert (Hlate : forall w, In w (Store.versions s) -> lineId w = lid ->
                              BlockRow.timestamp this < timestamp w).
    { intros w Hwin Hwl.
      destruct (Z.le_gt_cases (timestamp w) (BlockRow.timestamp this)) as [Hwt | Hwt]; [|lia].
      exfalso.
      assert (Hborn : In w (filter (fun v => BlockProxy.on_file_block_line s this v
                                             && (timestamp v <=? BlockRow.timestamp this))
                                   (Store.versions s))).
      { apply filter_In. split; [exact Hwin|].
        rewrite (on_file_block_line_same_line s this w v0) by congruence.
        rewrite Hv0on. apply Z.leb_le, Hwt. }
      apply (group_by_line_covers max_timestamp) in Hborn.
      fold (BlockProxy.potentiallyActiveHeads s this) in Hborn.
      rewrite Hwl, <- Hv0l in Hborn. congruence. }
    split; [rewrite (on_file_block_line_same_line s this h v0); [exact Hv0on | congruence]|].
    split; [exact Hline|]. right. split.
    + intros w Hw. apply filter_In in Hw as [Hwin Hwl]. apply Z.eqb_eq in Hwl.
      apply Hlate; [exact Hwin | congruence].
    + intros w Hw. apply filter_In in Hw as [Hwin Hwl]. apply Z.eqb_eq in Hwl.
      assert (Hwg : In w (v0 :: rest)).
      { rewrite <- Hgroup. apply filter_In. split; [|apply Z.eqb_eq; congruence].
        apply filter_In. split; [exact Hwin|].
        rewrite (on_file_block_line_same_line s this w v0) by congruence.
        rewrite Hv0on. simpl. apply negb_true_iff.
        replace (lineId w) with (lineId v0) by congruence. exact Hv0n. }
      rewrite Hts. destruct Hwg as [<- | Hwg]; [exact Hle | apply Hall, Hwg].
Qed.

(** C2 -- the head of a line that is not yet born at the timestamp of the block
    has to be the earliest version of that same line, its hidden PRE_INSERTION
    placeholder.  [getHeadFor] falls back to the earliest version of the whole
    block instead: after "new" was inserted as line 4 and the root was
    scrubbed back to timestamp 3, the head it reports for line 4 is the
    imported, visible "x" of line 1, while the head by the specification is the
    PRE_INSERTION of line 4. *)
Theorem C2_getHeadFor_falls_back_to_another_line :
  let s := scrubbedBack in
  let this := proxy s 1 in
  let line4 := filter (fun v => lineId v =? 4) (Store.versions s) in
  BlockRow.timestamp this = 3
  /\ BlockProxy.getHeadFor s this 4 = Ok (imported 1 1 1 "x")
  /\ ~ Spec.is_head_at line4 (BlockRow.timestamp this) (imported 1 1 1 "x")
  /\ Spec.is_head_at line4 (BlockRow.timestamp this)
                     (mkVersion 4 4 4 PRE_INSERTION false "" (Some 1) None)
  /\ In (mkVersion 4 4 4 PRE_INSERTION false "" (Some 1) None) (BlockProxy.getHeads s this).
Proof.
  cbv zeta. split; [reflexivity|]. split; [vm_compute; reflexivity|]. split; [|split].
  - intros [Hin _]. vm_compute in Hin.
    destruct Hin as [H | [H | []]]; discriminate H.
  - split.
    + vm_compute. left; reflexivity.
    + right. split; intros v Hv; vm_compute in Hv;
        destruct Hv as [<- | [<- | []]]; vm_compute; congruence.
  - vm_compute. right; left; reflexivity.
Qed.

(* ================================================================== *)
(** ** The edit engine: affected blocks, insertion *)
(* ================================================================== *)

(** C9 -- [change_lines] has to report every block that claims a touched line,
    the newly inserted lines included.  [BlockProxy.changeLines] collects the
    affected lines in [deleteLine] and [updateLine] only: for the return key
    at the end of line 1 of the loaded file nothing is deleted or updated, a
    line is inserted and claimed by the root, and the report is empty. *)
Theorem C9_changeLines_forgets_inserted_lines :
  let r := BlockProxy.changeLines loaded (proxy loaded 1) pressReturn in
  fst r = Ok []
  /\ Store.lines (snd r) = (Store.lines loaded ++ [LineRow.mk 4 1 (3 # 2)])%list
  /\ map (fun v => (lineId v, type v, content v))
         (BlockProxy.getActiveHeads (snd r) (proxy (snd r) 1))
     = [(1, IMPORTED, "x"); (4, INSERTION, ""); (2, IMPORTED, "y"); (3, IMPORTED, "z")]
  /\ LineProxy.getBlockIds (snd r) 4 = ["/a:root"].
Proof. vm_compute. repeat split; reflexivity. Qed.

(** The line number [insertLinesAt] inserts at lies between 1 and one past
    the last active line. *)
Lemma insertionLineNumber_clamped (s : Store.t) (this : BlockRow.t) (lineNumber : Z) :
  1 <= BlockProxy.insertionLineNumber s this lineNumber
       <= BlockProxy.getActiveLineCount s this + 1
  /\ (lineNumber <= 1 -> BlockProxy.insertionLineNumber s this lineNumber = 1)
  /\ (BlockProxy.getActiveLineCount s this + 1 <= lineNumber ->
      BlockProxy.insertionLineNumber s this lineNumber
      = BlockProxy.getActiveLineCount s this + 1).
Proof.
  unfold BlockProxy.insertionLineNumber.
  pose proof (zlength_nonneg
                (filter (fun v => matches_key (BlockProxy.potentiallyActiveHeads s this) v
                                  && isActive v) (Store.versions s))) as H.
  fold (BlockProxy.getActiveLineCount s this) in H. lia.
Qed.

(** [insertLinesAt] succeeds for every line number, provided that the block
    claims a line of its file and that the active lines are as many as the
    active heads counted. *)
Lemma insertLinesAt_succeeds (s : Store.t) (this : BlockRow.t) (lineNumber : Z)
      (lineContents : list string) :
  (exists l, In l (Store.lines s) /\ BlockProxy.line_in_file_block s this l = true) ->
  zlength (BlockProxy.getActiveLines s this) = BlockProxy.getActiveLineCount s this ->
  exists created s', BlockProxy.insertLinesAt s this lineNumber lineContents = (Ok created, s').
Proof.
  intros (l & Hl & Hc) Hcount. unfold BlockProxy.insertLinesAt.
  pose proof (insertionLineNumber_clamped s this lineNumber) as (Hrange & _ & _).
  unfold BlockProxy.insertionLineNumber in Hrange. cbv zeta in Hrange.
  set (n := Z.min (Z.max lineNumber 1) (BlockProxy.getActiveLineCount s this + 1)) in *.
  assert (Hne : forall le, exists x,
             hd_error (sort_by le (filter (BlockProxy.line_in_file_block s this) (Store.lines s)))
             = Some x).
  { intro le. destruct (sort_by le _) as [|x r] eqn:E; [|simpl; eexists; reflexivity].
    apply sort_by_nil in E.
    assert (In l (filter (BlockProxy.line_in_file_block s this) (Store.lines s)))
      by (apply filter_In; auto).
    rewrite E in H. destruct H. }
  destruct (n =? 1) eqn:E1.
  - unfold BlockProxy.prependLines. destruct (Hne line_order_asc) as [x ->].
    destruct (BlockProxy.insertLines _ _ _ _ _ _) as [ls s']. eauto.
  - destruct (n =? BlockProxy.getActiveLineCount s this + 1) eqn:E2.
    + unfold BlockProxy.appendLines. destruct (Hne line_order_desc) as [x ->].
      destruct (BlockProxy.insertLines _ _ _ _ _ _) as [ls s']. eauto.
    + apply Z.eqb_neq in E1, E2.
      destruct (at_index_in_range (BlockProxy.getActiveLines s this) (n - 2)) as [p ->];
        [rewrite Hcount; lia|].
      destruct (at_index_in_range (BlockProxy.getActiveLines s this) (n - 1)) as [c ->];
        [rewrite Hcount; lia|].
      destruct (BlockProxy.insertLines _ _ _ _ _ _) as [ls s']. eauto.
Qed.

(** Line numbers of the in-memory block start at 1. *)
Lemma indexOf_from_ge {A} (eqb : A -> A -> bool) (x : A) (l : list A) (n i : Z) :
  indexOf_from eqb n x l = Some i -> n <= i.
Proof.
  revert n. induction l as [|y l IH]; simpl; intros n H; [discriminate|].
  destruct (eqb y x).
  - injection H as <-. lia.
  - apply IH in H. lia.
Qed.

Lemma getLineNumber_positive (b : Block.t) (l : Line.t) (n : Z) :
  Block.getLineNumber b l = Some n -> 1 <= n.
Proof.
  unfold Block.getLineNumber. destruct (Line.isActive l); [|discriminate].
  unfold indexOf. destruct (indexOf_from _ 0 l (Block.getActiveLines b)) as [i|] eqn:E;
    simpl; [|discriminate].
  intro H. injection H as <-. apply indexOf_from_ge in E. lia.
Qed.

Lemma getFirstLineNumber_positive (b : Block.t) (n : Z) :
  Block.getFirstLineNumber b = Ok n -> 1 <= n.
Proof.
  unfold Block.getFirstLineNumber.
  destruct (Block.getFirstActiveLine b) as [[l|]|]; simpl; try discriminate.
  destruct (Block.getLineNumber b l) as [m|] eqn:E; simpl; [|discriminate].
  intro H. injection H as <-. eapply getLineNumber_positive, E.
Qed.

Lemma getLastLineNumber_positive (b : Block.t) (n : Z) :
  Block.getLastLineNumber b = Ok n -> 1 <= n.
Proof.
  unfold Block.getLastLineNumber.
  destruct (Block.getLastActiveLine b) as [[l|]|]; simpl; try discriminate.
  destruct (Block.getLineNumber b l) as [m|] eqn:E; simpl; [|discriminate].
  intro H. injection H as <-. eapply getLineNumber_positive, E.
Qed.

Lemma lineNumberToPosition_zero (b : Block.t) :
  exists e, Block.lineNumberToPosition b 0 = Throw e.
Proof.
  unfold Block.lineNumberToPosition, Block.containsLineNumber.
  destruct (Block.getFirstLineNumber b) as [first|e] eqn:E; simpl; [|eauto].
  apply getFirstLineNumber_positive in E.
  destruct (first <=? 0) eqn:E0; [apply Z.leb_le in E0; lia|].
  simpl. eauto.
Qed.

(** C10 -- [insert_line_at] must not fail: a line number below 1 is clamped to
    1 and becomes a prepend.  [Block.insertLine] does clamp, but on its way to
    the prepend it asks for the children at line number
    [min(adjusted - 1, last)], which is 0 there, and [lineNumberToPosition]
    rejects 0: every call of the in-memory [insertLine] with a line number of
    at most 1 throws, whatever the block. *)
Theorem C10_insertLine_throws_on_prepend (b : Block.t) (lineNumber : Z) :
  lineNumber <= 1 ->
  exists e, fst (Block.insertLine_expandedChildren b lineNumber) = Throw e.
Proof.
  intro Hn. unfold Block.insertLine_expandedChildren. cbn [fst].
  set (b' := Block.resetVersionMerging b).
  destruct (Block.getLastLineNumber b') as [last|e] eqn:E; simpl; [|eauto].
  apply getLastLineNumber_positive in E.
  unfold Block.adjustedLineNumber.
  replace (Z.min (Z.min (Z.max lineNumber 1) (last + 1) - 1) last) with 0 by lia.
  unfold Block.getChildrenByLineNumber.
  destruct (lineNumberToPosition_zero b') as [e ->]. simpl. eauto.
Qed.

Lemma C10_insertLine_throws_on_prepend_witness :
  1 <= 1
  /\ Block.getCurrentText inserted = Str.join LF ["x"; "new"; "y"; "z"]
  /\ exists e, fst (Block.insertLine_expandedChildren inserted 1) = Throw e.
Proof.
  split; [lia|]. split; [reflexivity|].
  apply (C10_insertLine_throws_on_prepend inserted 1). lia.
Defined.

(* ================================================================== *)
(** ** Tags *)
(* ================================================================== *)

(** C5 -- [get_text_for_version] has to hand back the text of the tag and
    leave the block as it found it.  The recovery point of
    [Block.getTextForVersion] is a tag at the last timestamp of the provider,
    not at the state the block is in: a root of one line ("x", then "y",
    tagged "T", then "z") that was scrubbed back to "x" answers "y" for "T"
    and is left showing "z", at timeline index 2 instead of 0. *)
Theorem C5_getTextForVersion_restores_the_latest_state :
  let r := Block.getTextForVersion taggedClock taggedScrubbed "T" in
  Block.getCurrentText taggedScrubbed = "x"
  /\ Block.getCurrentVersionIndex taggedScrubbed = Ok 0
  /\ fst r = Ok "y"
  /\ Block.getCurrentText (snd r) = "z"
  /\ Block.getCurrentVersionIndex (snd r) = Ok 2
  /\ snd r <> taggedScrubbed.
Proof.
  cbv zeta. repeat split; try (vm_compute; reflexivity).
  intro H. apply (f_equal Block.getCurrentText) in H. vm_compute in H. discriminate H.
Qed.

(* ================================================================== *)
(** ** [applyIndex]: bounds *)
(* ================================================================== *)

Lemma getTimeline_resetVersionMerging (b : Block.t) :
  Block.getTimeline (Block.resetVersionMerging b) = Block.getTimeline b.
Proof. reflexivity. Qed.

(** C7, as the code has it -- an index outside of the timeline makes
    [applyIndex] throw its out-of-bounds error.  The persisted block is left
    untouched; the in-memory block has by then reset its version merging
    (its [lastModifiedLine]) and is otherwise untouched: lines, heads,
    children and tags are those of before. *)
Theorem C7_applyIndex_out_of_range
        (b : Block.t) (i : Z) (s : Store.t) (this : BlockRow.t) (j : Z) :
  i < 0 \/ zlength (Block.getTimeline b) <= i ->
  j < 0 \/ zlength (BlockProxy.getTimeline s this) <= j ->
  Block.applyIndex b i
  = (Throw (OutOfBounds i (zlength (Block.getTimeline b))), Block.resetVersionMerging b)
  /\ Block.lines (Block.resetVersionMerging b) = Block.lines b
  /\ Block.tags (Block.resetVersionMerging b) = Block.tags b
  /\ Block.children (Block.resetVersionMerging b) = Block.children b
  /\ BlockProxy.applyIndex s this j
     = (Throw (OutOfBounds j (zlength (BlockProxy.getTimeline s this))), s).
Proof.
  intros Hi Hj. repeat split.
  - unfold Block.applyIndex. rewrite getTimeline_resetVersionMerging.
    replace ((i <? 0) || (zlength (Block.getTimeline b) <=? i)) with true; [reflexivity|].
    symmetry. apply orb_true_iff. destruct Hi; [left; apply Z.ltb_lt | right; apply Z.leb_le]; lia.
  - unfold BlockProxy.applyIndex.
    replace ((j <? 0) || (zlength (BlockProxy.getTimeline s this) <=? j)) with true; [reflexivity|].
    symmetry. apply orb_true_iff. destruct Hj; [left; apply Z.ltb_lt | right; apply Z.leb_le]; lia.
Qed.

Lemma C7_applyIndex_out_of_range_witness :
  Block.applyIndex merging (-1) = (Throw (OutOfBounds (-1) 3), Block.resetVersionMerging merging)
  /\ BlockProxy.applyIndex loaded (proxy loaded 1) 1 = (Throw (OutOfBounds 1 1), loaded).
Proof.
  destruct (C7_applyIndex_out_of_range merging (-1) loaded (proxy loaded 1) 1) as (H1 & _ & _ & _ & H2).
  - left. lia.
  - right. vm_compute. congruence.
  - split; [exact H1 | exact H2].
Defined.

(** C7, as stated, fails on the in-memory block: with version merging on and
    line 1 remembered as the last modified line, [applyIndex(-1)] throws and
    has forgotten that line. *)
Lemma C7_counterexample :
  fst (Block.applyIndex merging (-1)) = Throw (OutOfBounds (-1) 3)
  /\ snd (Block.applyIndex merging (-1)) <> merging.
Proof.
  split; [vm_compute; reflexivity|].
  intro H. apply (f_equal Block.lastModifiedLine) in H. vm_compute in H. discriminate H.
Qed.

(* ================================================================== *)
(** ** [applyIndex]: the snap rules *)
(* ================================================================== *)

Lemma VersionType_eqb_eq (a b : VersionType) : VersionType_eqb a b = true <-> a = b.
Proof. destruct a, b; simpl; split; congruence. Qed.

Lemma option_Z_eqb_eq (a b : option Z) : option_Z_eqb a b = true <-> a = b.
Proof.
  destruct a, b; simpl; split; try congruence.
  - intro H. apply Z.eqb_eq in H. congruence.
  - intro H. injection H as ->. apply Z.eqb_refl.
Qed.

Lemma Version_eqb_eq (a b : Version) : Version_eqb a b = true <-> a = b.
Proof.
  unfold Version_eqb. split.
  - rewrite !andb_true_iff. intros [[[[[[[H1 H2] H3] H4] H5] H6] H7] H8].
    destruct a, b; simpl in *.
    apply Z.eqb_eq in H1, H2, H3. apply VersionType_eqb_eq in H4.
    apply Bool.eqb_prop in H5. apply String.eqb_eq in H6.
    apply option_Z_eqb_eq in H7, H8. congruence.
  - intros <-. rewrite !Z.eqb_refl, String.eqb_refl, Bool.eqb_reflx. simpl.
    rewrite (proj2 (VersionType_eqb_eq _ _) eq_refl).
    rewrite !(proj2 (option_Z_eqb_eq _ _) eq_refl). reflexivity.
Qed.

Lemma insertionState_engaged (b : Block.t) (v : Version) :
  Block.insertionState b v = InsertionState.PreInsertionEngaged -> isPreInsertion v = true.
Proof.
  unfold Block.insertionState. destruct (isPreInsertion v); [reflexivity | discriminate].
Qed.

Lemma insertionState_released (b : Block.t) (v : Version) :
  Block.insertionState b v = InsertionState.PreInsertionReleased -> isPreInsertion v = true.
Proof.
  unfold Block.insertionState. destruct (isPreInsertion v); [reflexivity | discriminate].
Qed.

Lemma InsertionState_eqb_eq (a b : InsertionState.t) : InsertionState.eqb a b = true <-> a = b.
Proof. destruct a, b; simpl; split; congruence. Qed.

(** The version [applyIndex] picks is the one the four snap rules pick. *)
Lemma snapVersion_snap (b : Block.t) (sel : Version) (prev next : option Version)
      (latest : Version) :
  Spec.snap (fun p => Block.insertionState b p = InsertionState.PreInsertionEngaged)
            (fun n => Block.insertionState b n = InsertionState.PreInsertionReleased)
            (fun v => Block.isHeadOf b v = true)
            (Block.next b) sel prev next latest
            (Block.snapVersion b sel prev next latest).
Proof.
  unfold Block.snapVersion.
  destruct (Block.defined_and _ prev) eqn:C1.
  { destruct prev as [p|]; simpl in C1; [|discriminate].
    apply andb_true_iff in C1 as [Heq Hst].
    apply Version_eqb_eq in Heq. apply InsertionState_eqb_eq in Hst.
    apply Spec.snap_reveal. repeat split; auto.
    eapply insertionState_engaged, Hst. }
  assert (N1 : forall p,
             ~ Spec.rule1 (fun p => Block.insertionState b p = InsertionState.PreInsertionEngaged)
               prev latest p).
  { intros p (Hp & Hl & _ & Hst). subst prev. simpl in C1.
    rewrite (proj2 (Version_eqb_eq _ _) Hl), (proj2 (InsertionState_eqb_eq _ _) Hst) in C1.
    discriminate. }
  destruct (Block.defined_and _ next) eqn:C2.
  { destruct next as [n|]; simpl in C2; [|discriminate].
    apply andb_true_iff in C2 as [Heq Hst].
    apply Version_eqb_eq in Heq. apply InsertionState_eqb_eq in Hst.
    apply Spec.snap_hide; [exact N1|]. repeat split; auto.
    eapply insertionState_released, Hst. }
  assert (N2 : forall n,
             ~ Spec.rule2 (fun n => Block.insertionState b n = InsertionState.PreInsertionReleased)
               next latest n).
  { intros n (Hn & Hl & _ & Hst). subst next. simpl in C2.
    rewrite (proj2 (Version_eqb_eq _ _) Hl), (proj2 (InsertionState_eqb_eq _ _) Hst) in C2.
    discriminate. }
  destruct (isPreInsertion sel && _) eqn:C3.
  - apply andb_true_iff in C3 as [Hpre Hhead].
    apply Spec.snap_skip; auto. split; [exact Hpre|].
    apply orb_true_iff in Hhead as [Hh | Hh]; [left; exact Hh | right].
    destruct next as [n|]; simpl in Hh; [eauto | discriminate].
  - apply Spec.snap_selected; auto.
    intros [Hpre Hhead]. rewrite Hpre in C3. simpl in C3.
    destruct Hhead as [Hh | (n & -> & Hh)].
    + rewrite Hh in C3. discriminate.
    + simpl in C3. rewrite Hh, orb_true_r in C3. discriminate.
Qed.

Lemma indexOf_from_at {A} (eqb : A -> A -> bool) (x : A) (l : list A) (n i : Z) :
  0 <= n ->
  indexOf_from eqb n x l = Some i ->
  exists y, nth_error l (Z.to_nat (i - n)) = Some y /\ eqb y x = true.
Proof.
  revert n. induction l as [|y l IH]; simpl; intros n Hn H; [discriminate|].
  destruct (eqb y x) eqn:E.
  - injection H as <-. replace (n - n) with 0 by lia. exists y. auto.
  - pose proof (indexOf_from_ge _ _ _ _ _ H) as Hge.
    destruct (IH (n + 1) ltac:(lia) H) as (z & Hz & Ez).
    exists z. split; [|exact Ez].
    replace (Z.to_nat (i - n)) with (S (Z.to_nat (i - (n + 1)))) by lia. exact Hz.
Qed.

Lemma indexOf_at (x : Version) (l : list Version) (i : Z) :
  indexOf Version_eqb x l = Some i -> at_index l i = Some x.
Proof.
  unfold indexOf. intro H.
  pose proof (indexOf_from_ge _ _ _ _ _ H) as Hge.
  destruct (indexOf_from_at _ _ _ 0 _ (Z.le_refl 0) H) as (y & Hy & Ey).
  apply Version_eqb_eq in Ey. subst y.
  unfold at_index. destruct (i <? 0) eqn:E; [apply Z.ltb_lt in E; lia|].
  rewrite Z.sub_0_r in Hy. exact Hy.
Qed.

(** The entry at the current version index is there. *)
Lemma getCurrentVersionIndex_at (b : Block.t) (i : Z) :
  Block.getCurrentVersionIndex b = Ok i ->
  exists latest, at_index (Block.getTimeline b) i = Some latest.
Proof.
  unfold Block.getCurrentVersionIndex.
  destruct (Block.getCurrentVersion b) as [cv|]; simpl; [|discriminate].
  match goal with |- of_option (indexOf _ ?x _) _ = _ -> _ => set (c := x) end.
  destruct (indexOf Version_eqb c (Block.getTimeline b)) as [k|] eqn:E; simpl; [|discriminate].
  intro H. injection H as <-. exists c. apply indexOf_at, E.
Qed.

(** C1, as the code has it -- for an index inside the timeline of an in-memory
    block whose current version index exists, [applyIndex] applies the
    timestamp of the version the four snap rules select (it throws when that
    version is the missing successor of a PRE_INSERTION); for an index inside
    the timeline of a persisted block, [applyIndex] applies the timestamp of
    the selected entry itself. *)
Theorem C1_applyIndex_snap_rules
        (b : Block.t) (i latestIndex : Z) (sel : Version)
        (s : Store.t) (this : BlockRow.t) (j : Z) (selected : Version) :
  at_index (Block.getTimeline b) i = Some sel ->
  Block.getCurrentVersionIndex b = Ok latestIndex ->
  at_index (BlockProxy.getTimeline s this) j = Some selected ->
  (exists latest choice,
      at_index (Block.getTimeline b) latestIndex = Some latest
      /\ Spec.snap (fun p => Block.insertionState b p = InsertionState.PreInsertionEngaged)
                   (fun n => Block.insertionState b n = InsertionState.PreInsertionReleased)
                   (fun v => Block.isHeadOf b v = true)
                   (Block.next b) sel
                   (at_index (Block.getTimeline b) (i - 1))
                   (at_index (Block.getTimeline b) (i + 1))
                   latest choice
      /\ Block.applyIndex b i
         = match choice with
           | Some v => (Ok (fst (Block.applyTimestamp (Block.resetVersionMerging b) (timestamp v))),
                        snd (Block.applyTimestamp (Block.resetVersionMerging b) (timestamp v)))
           | None => (Throw TypeError, Block.resetVersionMerging b)
           end)
  /\ BlockProxy.applyIndex s this j
     = (Ok tt, BlockProxy.applyTimestamp s this (timestamp selected)).
Proof.
  intros Hsel Hidx Hselected. split.
  - destruct (getCurrentVersionIndex_at b latestIndex Hidx) as [latest Hlatest].
    exists latest, (Block.snapVersion b sel (at_index (Block.getTimeline b) (i - 1))
                                      (at_index (Block.getTimeline b) (i + 1)) latest).
    split; [exact Hlatest|]. split; [apply snapVersion_snap|].
    pose proof (at_index_Some _ _ _ Hsel) as Hrange.
    unfold Block.applyIndex. rewrite getTimeline_resetVersionMerging.
    replace ((i <? 0) || (zlength (Block.getTimeline b) <=? i)) with false
      by (symmetry; apply orb_false_iff; split; [apply Z.ltb_ge | apply Z.leb_gt]; lia).
    rewrite Hsel.
    change (Block.getCurrentVersionIndex (Block.resetVersionMerging b))
      with (Block.getCurrentVersionIndex b).
    rewrite Hidx, Hlatest.
    assert (Hprev : (if 0 <=? i - 1 then at_index (Block.getTimeline b) (i - 1) else None)
                    = at_index (Block.getTimeline b) (i - 1)).
    { destruct (0 <=? i - 1) eqn:E; [reflexivity|].
      apply Z.leb_gt in E. unfold at_index.
      destruct (i - 1 <? 0) eqn:E'; [reflexivity | apply Z.ltb_ge in E'; lia]. }
    assert (Hnext : (if i + 1 <? zlength (Block.getTimeline b)
                     then at_index (Block.getTimeline b) (i + 1) else None)
                    = at_index (Block.getTimeline b) (i + 1)).
    { destruct (i + 1 <? zlength (Block.getTimeline b)) eqn:E; [reflexivity|].
      apply Z.ltb_ge in E. unfold at_index.
      destruct (i + 1 <? 0); [reflexivity|].
      symmetry. apply nth_error_None. unfold zlength in E. lia. }
    rewrite Hprev, Hnext.
    change (Block.snapVersion (Block.resetVersionMerging b))
      with (Block.snapVersion b).
    destruct (Block.snapVersion b sel _ _ latest) as [v|]; [|reflexivity].
    destruct (Block.applyTimestamp (Block.resetVersionMerging b) (timestamp v)); reflexivity.
  - pose proof (at_index_Some _ _ _ Hselected) as Hrange.
    unfold BlockProxy.applyIndex.
    replace ((j <? 0) || (zlength (BlockProxy.getTimeline s this) <=? j)) with false
      by (symmetry; apply orb_false_iff; split; [apply Z.ltb_ge | apply Z.leb_gt]; lia).
    rewrite Hselected. reflexivity.
Qed.

Lemma C1_applyIndex_snap_rules_witness :
  (exists choice,
      Block.applyIndex inserted 0
      = match choice with
        | Some v =>
            (Ok (fst (Block.applyTimestamp (Block.resetVersionMerging inserted) (timestamp v))),
             snd (Block.applyTimestamp (Block.resetVersionMerging inserted) (timestamp v)))
        | None => (Throw TypeError, Block.resetVersionMerging inserted)
        end)
  /\ BlockProxy.applyIndex afterInsert (proxy afterInsert 1) 1
     = (Ok tt, BlockProxy.applyTimestamp afterInsert (proxy afterInsert 1) 4).
Proof.
  destruct (C1_applyIndex_snap_rules inserted 0 1 (imported 3 3 3 "z")
              afterInsert (proxy afterInsert 1) 1
              (mkVersion 4 4 4 PRE_INSERTION false "" (Some 1) None))
    as [(latest & choice & _ & _ & Happly) Hproxy].
  - vm_compute. reflexivity.
  - vm_compute. reflexivity.
  - vm_compute. reflexivity.
  - split; [exists choice; exact Happly | exact Hproxy].
Defined.

(** C1, as stated, fails on the persisted block.  After "new" was inserted into
    the loaded file the timeline of the root is the last import, the
    PRE_INSERTION of the new line and its INSERTION, and the INSERTION is a
    head.  At index 1 neither neighbour is a PRE_INSERTION, so rules 1 and 2
    are out under every reading of "engaged", "released" and "latest"; the
    selected entry is a PRE_INSERTION and the next entry is a head, so rule 3
    selects the INSERTION at timestamp 5.  [BlockProxy.applyIndex] applies the
    PRE_INSERTION at timestamp 4. *)
Lemma C1_counterexample :
  ~ exists engaged released latest,
      Spec.persisted_applyIndex_snaps engaged released latest afterInsert (proxy afterInsert 1) 1.
Proof.
  intros (engaged & released & latest & H).
  specialize (H (mkVersion 4 4 4 PRE_INSERTION false "" (Some 1) None)
                (mkVersion 5 4 5 INSERTION true "new" (Some 1) None)).
  assert (Happly : BlockProxy.applyIndex afterInsert (proxy afterInsert 1) 1
                   = (Ok tt, BlockProxy.applyTimestamp afterInsert (proxy afterInsert 1) 5)).
  { apply H; [vm_compute; reflexivity|].
    change (Some (mkVersion 5 4 5 INSERTION true "new" (Some 1) None))
      with (Spec.successor afterInsert (mkVersion 4 4 4 PRE_INSERTION false "" (Some 1) None)).
    apply Spec.snap_skip.
    - intros p (Hp & _ & Hpre & _). vm_compute in Hp. injection Hp as <-. discriminate Hpre.
    - intros n (Hn & _ & Hpre & _). vm_compute in Hn. injection Hn as <-. discriminate Hpre.
    - split; [reflexivity|]. right.
      exists (mkVersion 5 4 5 INSERTION true "new" (Some 1) None).
      split; [vm_compute; reflexivity|].
      unfold Spec.isHeadOf. vm_compute. right; left; reflexivity. }
  apply (f_equal (fun r => map BlockRow.timestamp (Store.blocks (snd r)))) in Happly.
  vm_compute in Happly. discriminate Happly.
Qed.

(* ================================================================== *)
(** ** The timeline *)
(* ================================================================== *)

Lemma filter_andb {A} (f g : A -> bool) (l : list A) :
  filter g (filter f l) = filter (fun x => f x && g x) l.
Proof.
  induction l as [|x l IH]; simpl; [reflexivity|].
  destruct (f x); simpl; [destruct (g x)|]; rewrite IH; reflexivity.
Qed.

Lemma sort_by_timestamp_strict (vs : list Version) :
  NoDup (map timestamp vs) ->
  StronglySorted (fun a b => timestamp a < timestamp b) (sort_by timestamp_asc vs).
Proof.
  intro Hnd. apply sorted_strict.
  - apply (sort_by_sorted timestamp_asc timestamp_asc_total timestamp_asc_trans).
  - eapply Permutation_NoDup; [|exact Hnd].
    apply Permutation_map, Permutation_sym, sort_by_perm.
Qed.

Lemma is_edit_not_imported (v : Version) :
  Spec.is_edit v = true -> Spec.is_imported v = true -> False.
Proof.
  unfold Spec.is_edit, Spec.is_imported. intros H1 H2. rewrite H2 in H1. discriminate.
Qed.

(** C3, as the code has it -- the timeline of a persisted block whose versions
    of a kind other than CLONE carry pairwise distinct timestamps and whose
    imported versions are not later than its other versions is the last
    IMPORTED version followed by the versions of kind neither IMPORTED nor
    CLONE, ascending by timestamp.  The CLONE versions may share their
    timestamps, as the clones of one [cloneOutdatedHeads] do.
    ([BlockProxy.getTimeline] cuts by timestamp, not by kind: it keeps what is
    not a CLONE and not older than the last import.) *)
Theorem C3_getTimeline_anchor_and_edits (s : Store.t) (this : BlockRow.t) :
  NoDup (map timestamp
             (filter (fun v => BlockProxy.on_file_block_line s this v && negb (Spec.is_clone v))
                     (Store.versions s))) ->
  (forall i v,
      In i (filter (BlockProxy.on_file_block_line s this) (Store.versions s)) ->
      In v (filter (BlockProxy.on_file_block_line s this) (Store.versions s)) ->
      Spec.is_imported i = true -> Spec.is_edit v = true -> timestamp i <= timestamp v) ->
  BlockProxy.getTimeline s this
  = Spec.timeline (filter (BlockProxy.on_file_block_line s this) (Store.versions s)).
Proof.
  set (on := BlockProxy.on_file_block_line s this).
  set (vs := filter on (Store.versions s)).
  set (nc := filter (fun v => on v && negb (Spec.is_clone v)) (Store.versions s)).
  intros Hnd Himp.
  assert (Hnc : forall x, In x (Store.versions s) -> on x = true ->
                          VersionType_eqb (type x) CLONE = false -> In x nc).
  { intros x Hx Hon Hc. apply filter_In. split; [exact Hx|].
    unfold Spec.is_clone. rewrite Hon, Hc. reflexivity. }
  assert (Himported : forall x, VersionType_eqb (type x) IMPORTED = true ->
                                VersionType_eqb (type x) CLONE = false).
  { intros x Hx. apply VersionType_eqb_eq in Hx. rewrite Hx. reflexivity. }
  assert (Hedit : forall x, Spec.is_edit x = true -> VersionType_eqb (type x) CLONE = false).
  { intros x Hx. unfold Spec.is_edit in Hx. apply negb_true_iff, orb_false_iff in Hx. tauto. }
  unfold BlockProxy.getTimeline, Spec.timeline, Spec.anchor, BlockProxy.getLastImportedVersion.
  fold on. unfold vs at 1 2. rewrite !filter_andb.
  change (fun x => on x && Spec.is_imported x)
    with (fun v => on v && VersionType_eqb (type v) IMPORTED).
  destruct (hd_error (sort_by timestamp_desc
                        (filter (fun v => on v && VersionType_eqb (type v) IMPORTED)
                                (Store.versions s)))) as [l|] eqn:EL.
  - (* there is a last import *)
    apply latest_first in EL as [Hl Hmax].
    apply filter_In in Hl as [Hlin Hl]. apply andb_true_iff in Hl as [Hlon Hlimp].
    assert (Hlvs : In l vs) by (apply filter_In; auto).
    assert (Hlnc : In l nc) by (apply Hnc; auto).
    simpl.
    apply (strictly_sorted_unique timestamp).
    + apply sort_by_timestamp_strict.
      rewrite <- (filter_andb (fun x => on x && negb (VersionType_eqb (type x) CLONE))
                              (fun x => timestamp l <=? timestamp x)).
      apply NoDup_map_filter. exact Hnd.
    + constructor.
      * apply sort_by_timestamp_strict.
        replace (filter (fun x => on x && Spec.is_edit x) (Store.versions s))
          with (filter Spec.is_edit nc).
        { apply NoDup_map_filter. exact Hnd. }
        unfold nc. rewrite filter_andb. apply filter_ext. intro x.
        unfold Spec.is_edit, Spec.is_clone.
        destruct (on x), (VersionType_eqb (type x) IMPORTED),
          (VersionType_eqb (type x) CLONE); reflexivity.
      * rewrite Forall_forall. intros x Hx. apply sort_by_In in Hx.
        apply filter_In in Hx as [Hxin Hx]. apply andb_true_iff in Hx as [Hxon Hxe].
        assert (Hxvs : In x vs) by (apply filter_In; auto).
        assert (Hxnc : In x nc) by (apply Hnc; auto).
        pose proof (Himp l x Hlvs Hxvs Hlimp Hxe) as Hle.
        assert (timestamp l <> timestamp x).
        { intro E. apply (NoDup_map_inj timestamp nc l x Hnd Hlnc Hxnc) in E. subst x.
          eapply is_edit_not_imported; eauto. }
        lia.
    + intro x. rewrite sort_by_In. simpl. rewrite sort_by_In, !filter_In.
      split.
      * intros [Hxin Hx]. apply andb_true_iff in Hx as [Hx Hcut].
        apply andb_true_iff in Hx as [Hxon Hxc]. apply Z.leb_le in Hcut.
        assert (Hxnc : In x nc) by (apply Hnc; auto; apply negb_true_iff, Hxc).
        destruct (VersionType_eqb (type x) IMPORTED) eqn:Ei.
        -- left.
           assert (timestamp x <= timestamp l).
           { apply Hmax. apply filter_In. split; [exact Hxin|]. rewrite Hxon, Ei. reflexivity. }
           apply (NoDup_map_inj timestamp nc l x Hnd Hlnc Hxnc). lia.
        -- right. split; [exact Hxin|]. unfold Spec.is_edit. rewrite Hxon, Ei. simpl.
           exact Hxc.
      * intros [<- | [Hxin Hx]].
        -- split; [exact Hlin|]. rewrite Hlon. simpl.
           apply VersionType_eqb_eq in Hlimp. rewrite Hlimp. simpl. apply Z.leb_refl.
        -- apply andb_true_iff in Hx as [Hxon Hxe].
           assert (Hxvs : In x vs) by (apply filter_In; auto).
           split; [exact Hxin|]. rewrite Hxon. simpl.
           apply andb_true_iff. split.
           ++ rewrite (Hedit x Hxe). reflexivity.
           ++ apply Z.leb_le. apply (Himp l x Hlvs Hxvs Hlimp Hxe).
  - (* nothing was imported *)
    simpl. f_equal. apply filter_ext_in. intros v Hv.
    destruct (on v) eqn:Hon; [|reflexivity]. simpl. rewrite andb_true_r.
    unfold Spec.is_edit.
    destruct (VersionType_eqb (type v) IMPORTED) eqn:Ei; [|reflexivity].
    exfalso.
    destruct (sort_by timestamp_desc _) eqn:E in EL; [|discriminate].
    apply sort_by_nil in E.
    assert (In v (filter (fun v => on v && VersionType_eqb (type v) IMPORTED) (Store.versions s))).
    { apply filter_In. split; [exact Hv|]. rewrite Hon, Ei. reflexivity. }
    rewrite E in H. destruct H.
Qed.

(** The block of [twoClones] has two CLONE versions of one timestamp. *)
Lemma C3_getTimeline_anchor_and_edits_witness :
  filter Spec.is_clone (Store.versions twoClones)
  = [mkVersion 6 2 6 CLONE true "y" (Some 1) (Some 2);
     mkVersion 7 3 6 CLONE true "z" (Some 1) (Some 3)]
  /\ BlockProxy.getTimeline twoClones (proxy twoClones 1)
     = Spec.timeline (filter (BlockProxy.on_file_block_line twoClones (proxy twoClones 1))
                             (Store.versions twoClones)).
Proof.
  split; [vm_compute; reflexivity|].
  apply C3_getTimeline_anchor_and_edits.
  - vm_compute.
    repeat (constructor;
            [ simpl; intro H; repeat (destruct H as [H | H]; [discriminate H|]); exact H | ]).
    constructor.
  - intros i v Hi Hv. vm_compute in Hi, Hv.
    repeat (destruct Hi as [<- | Hi]); try destruct Hi;
      repeat (destruct Hv as [<- | Hv]); try destruct Hv;
      intros Himp Hedit; try discriminate Himp; try discriminate Hedit;
      vm_compute; discriminate.
Defined.

(** C3, as stated, fails on the two older timelines.  After the insertion of
    "new" the claimed timeline is the last import, the PRE_INSERTION and the
    INSERTION.  [DBBlock.getTimeline] leaves out IMPORTED and INSERTION
    versions and has the PRE_INSERTION alone, without an anchor; the in-memory
    [Block.getTimeline] leaves out the INSERTION that follows a
    PRE_INSERTION.  [BlockProxy.getTimeline] cuts at the timestamp of the last
    import: where the lines of a file were imported at a shared timestamp, all
    their IMPORTED versions stay in the timeline. *)
Lemma C3_counterexample :
  DBBlock.getTimeline afterInsert (proxy afterInsert 1)
  <> Spec.timeline (filter (BlockProxy.on_block_line afterInsert (proxy afterInsert 1))
                           (Store.versions afterInsert))
  /\ Block.getTimeline inserted <> Spec.timeline (Block.getVersions inserted)
  /\ BlockProxy.getTimeline loadedAtOnce (proxy loadedAtOnce 1)
     <> Spec.timeline (filter (BlockProxy.on_file_block_line loadedAtOnce (proxy loadedAtOnce 1))
                              (Store.versions loadedAtOnce)).
Proof.
  repeat split; intro H; apply (f_equal (@List.length Version)) in H;
    vm_compute in H; discriminate H.
Qed.

(* ================================================================== *)
(** ** The user-visible version count *)
(* ================================================================== *)

Lemma zlength_filter_split {A} (f : A -> bool) (l : list A) :
  zlength (filter (fun x => negb (f x)) l) = zlength l - zlength (filter f l).
Proof.
  assert (H : (List.length (filter (fun x => negb (f x)) l) + List.length (filter f l)
               = List.length l)%nat).
  { induction l as [|x l IH]; simpl; [reflexivity|].
    destruct (f x); simpl; lia. }
  unfold zlength. lia.
Qed.

Lemma line_of_In (s : Store.t) (lid : Z) (l : LineRow.t) :
  Store.line_of s lid = Some l -> In l (Store.lines s).
Proof. unfold Store.line_of. intro H. apply find_some in H. tauto. Qed.

(** C4, as the code has it -- for a persisted block whose claimed lines are
    lines of its file, the user-visible version count is the number of
    versions on its claimed lines without the CLONE versions, minus the number
    of IMPORTED versions, plus 1 if there is an IMPORTED version; for the
    in-memory block it is the number of versions minus the number of lines,
    plus 1. *)
Theorem C4_userVersionCount (s : Store.t) (this : BlockRow.t) (info : VCSBlockInfo.t)
        (b : Block.t) :
  (forall l, In l (Store.lines s) -> BlockProxy.line_in_block s this l = true ->
             LineRow.fileId l = BlockRow.fileId this) ->
  BlockProxy.asBlockInfo s this = Ok info ->
  VCSBlockInfo.userVersionCount info
  = zlength (filter (BlockProxy.on_block_line s this) (Store.versions s))
    - zlength (filter Spec.is_clone
                      (filter (BlockProxy.on_block_line s this) (Store.versions s)))
    - zlength (filter Spec.is_imported
                      (filter (BlockProxy.on_block_line s this) (Store.versions s)))
    + (if existsb Spec.is_imported
                  (filter (BlockProxy.on_block_line s this) (Store.versions s))
       then 1 else 0)
  /\ Block.getUserVersionCount b
     = zlength (Block.getVersions b) - zlength (Block.lines b) + 1.
Proof.
  intros Hfile Hinfo. split; [|reflexivity].
  assert (Hon : forall v, BlockProxy.on_file_block_line s this v = BlockProxy.on_block_line s this v).
  { intro v. unfold BlockProxy.on_file_block_line, BlockProxy.on_block_line,
      BlockProxy.line_in_file_block.
    destruct (Store.line_of s (lineId v)) as [l|] eqn:E; [|reflexivity].
    destruct (BlockProxy.line_in_block s this l) eqn:Hb; [|apply andb_false_r].
    rewrite (Hfile l (line_of_In _ _ _ E) Hb), Z.eqb_refl. reflexivity. }
  unfold BlockProxy.asBlockInfo in Hinfo.
  destruct (of_option (hd_error (sort_by line_order_asc _)) NotFound) as [firstLine|];
    simpl in Hinfo; [|discriminate].
  destruct (BlockProxy.getCurrentVersion s this) as [cv|]; simpl in Hinfo; [|discriminate].
  destruct (BlockProxy.getActiveLineCount s this =? 0); [discriminate|].
  match type of Hinfo with
  | result_bind ?r _ = _ => destruct r as [range|]; simpl in Hinfo; [|discriminate]
  end.
  injection Hinfo as <-. cbn [VCSBlockInfo.userVersionCount].
  unfold BlockProxy.getVersionCount, BlockProxy.getOriginalLineCount.
  rewrite <- (filter_andb (BlockProxy.on_block_line s this)
                          (fun v => negb (VersionType_eqb (type v) CLONE))).
  rewrite <- (filter_andb (BlockProxy.on_block_line s this)
                          (fun v => VersionType_eqb (type v) IMPORTED)).
  change (fun v => negb (VersionType_eqb (type v) CLONE)) with (fun v => negb (Spec.is_clone v)).
  change (fun v => VersionType_eqb (type v) IMPORTED) with Spec.is_imported.
  rewrite zlength_filter_split.
  set (vs := filter (BlockProxy.on_block_line s this) (Store.versions s)).
  assert (Hlast : match BlockProxy.getLastImportedVersion s this with Some _ => 1 | None => 0 end
                  = if existsb Spec.is_imported vs then 1 else 0).
  { unfold BlockProxy.getLastImportedVersion.
    rewrite (filter_ext _ (fun v => BlockProxy.on_block_line s this v && Spec.is_imported v))
      by (intro v; rewrite Hon; reflexivity).
    rewrite <- filter_andb. fold vs.
    destruct (existsb Spec.is_imported vs) eqn:Ex.
    - apply existsb_exists in Ex as (v & Hv & Hi).
      destruct (sort_by timestamp_desc (filter Spec.is_imported vs)) eqn:E; [|reflexivity].
      apply sort_by_nil in E.
      assert (In v (filter Spec.is_imported vs)) by (apply filter_In; auto).
      rewrite E in H. destruct H.
    - destruct (sort_by timestamp_desc (filter Spec.is_imported vs)) as [|v r] eqn:E;
        [reflexivity|].
      assert (Hv : In v (filter Spec.is_imported vs))
        by (apply (sort_by_In timestamp_desc); rewrite E; left; reflexivity).
      apply filter_In in Hv as [Hv Hi].
      assert (existsb Spec.is_imported vs = true) by (apply existsb_exists; eauto).
      congruence. }
  rewrite Hlast. reflexivity.
Qed.

Lemma C4_userVersionCount_witness :
  exists info,
    BlockProxy.asBlockInfo afterClone (proxy afterClone 1) = Ok info
    /\ VCSBlockInfo.userVersionCount info = 5 - 1 - 3 + 1.
Proof.
  destruct (BlockProxy.asBlockInfo afterClone (proxy afterClone 1)) as [info|] eqn:E;
    [|vm_compute in E; discriminate E].
  exists info. split; [reflexivity|].
  destruct (C4_userVersionCount afterClone (proxy afterClone 1) info inserted) as [H _].
  - intros l Hl _. vm_compute in Hl.
    repeat (destruct Hl as [<- | Hl]; [reflexivity|]). destruct Hl.
  - exact E.
  - rewrite H. vm_compute. reflexivity.
Defined.

(** C4, as stated, fails once a block has CLONE versions: after line 2 of the
    loaded file was edited, the root scrubbed back and its outdated head
    cloned, the claimed lines carry 5 versions and 3 of the lines are
    imported, which makes 5 - 3 + 1 = 3 by the formula of the claim;
    [asBlockInfo] reports 2.  The in-memory count differs as well: with an
    inserted line its 5 versions on 4 lines count as 2, not as
    5 - 3 + 1 = 3. *)
Lemma C4_counterexample :
  let this := proxy afterClone 1 in
  let claimedLines := map LineRow.id (filter (BlockProxy.line_in_block afterClone this)
                                             (Store.lines afterClone)) in
  let claimedVersions := filter (BlockProxy.on_block_line afterClone this)
                                (Store.versions afterClone) in
  (exists info,
      BlockProxy.asBlockInfo afterClone this = Ok info
      /\ VCSBlockInfo.userVersionCount info = 2
      /\ Spec.userVersionCount claimedLines claimedVersions = 3
      /\ VCSBlockInfo.userVersionCount info
         <> Spec.userVersionCount claimedLines claimedVersions)
  /\ Block.getUserVersionCount inserted
     <> Spec.userVersionCount (map Line.node (Block.lines inserted)) (Block.getVersions inserted).
Proof.
  cbv zeta. split; [|vm_compute; discriminate].
  eexists. split; [vm_compute; reflexivity|].
  split; [vm_compute; reflexivity|]. split; [vm_compute; reflexivity|].
  vm_compute. discriminate.
Qed.

(* ================================================================== *)
(** ** Children *)
(* ================================================================== *)

Lemma connected_connect (s : Store.t) (bid lid b l : Z) :
  Store.connected (Store.connect s bid lid) b l
  = Store.connected s b l || ((b =? bid) && (l =? lid)).
Proof.
  unfold Store.connect. destruct (Store.connected s bid lid) eqn:E.
  - destruct ((b =? bid) && (l =? lid)) eqn:E'; [|rewrite orb_false_r; reflexivity].
    apply andb_true_iff in E' as [Hb Hl]. apply Z.eqb_eq in Hb, Hl. subst.
    rewrite E. reflexivity.
  - unfold Store.connected. simpl. rewrite existsb_app. simpl.
    rewrite orb_false_r, (Z.eqb_sym bid b), (Z.eqb_sym lid l). reflexivity.
Qed.

Lemma connect_rest (s : Store.t) (bid lid : Z) :
  Store.blocks (Store.connect s bid lid) = Store.blocks s
  /\ Store.lines (Store.connect s bid lid) = Store.lines s
  /\ Store.versions (Store.connect s bid lid) = Store.versions s
  /\ Store.clock (Store.connect s bid lid) = Store.clock s.
Proof. unfold Store.connect. destruct (Store.connected s bid lid); repeat split. Qed.

Lemma connect_all (bid : Z) (ls : list LineRow.t) (s : Store.t) :
  let s' := fold_left (fun acc l => Store.connect acc bid (LineRow.id l)) ls s in
  (forall b l, Store.connected s' b l
               = Store.connected s b l
                 || ((b =? bid) && existsb (fun x => LineRow.id x =? l) ls))
  /\ Store.blocks s' = Store.blocks s
  /\ Store.lines s' = Store.lines s
  /\ Store.versions s' = Store.versions s
  /\ Store.clock s' = Store.clock s.
Proof.
  revert s. induction ls as [|x ls IH]; intro s; simpl.
  - repeat split. intros b l. rewrite andb_false_r, orb_false_r. reflexivity.
  - destruct (IH (Store.connect s bid (LineRow.id x))) as (Hc & Hb & Hl & Hv & Hk).
    destruct (connect_rest s bid (LineRow.id x)) as (Hb' & Hl' & Hv' & Hk').
    repeat split; try congruence.
    intros b l. rewrite Hc, connected_connect.
    rewrite (Z.eqb_sym l (LineRow.id x)).
    destruct (Store.connected s b l), (b =? bid), (LineRow.id x =? l); reflexivity.
Qed.

Lemma fresh_id_above (ids : list Z) (x : Z) : In x ids -> x < Store.fresh_id ids.
Proof.
  unfold Store.fresh_id. induction ids as [|y ids IH]; simpl; [tauto|].
  intros [-> | H]; [lia|]. specialize (IH H). lia.
Qed.

Lemma at_index_In {A} (l : list A) (i : Z) (x : A) : at_index l i = Some x -> In x l.
Proof.
  unfold at_index. destruct (i <? 0); [discriminate|]. apply nth_error_In.
Qed.

(** A head with the row of its line is a head of the block, on the line of
    this id. *)
Lemma getHeadsWithLines_In (s : Store.t) (this : BlockRow.t) (h : Version) (line : LineRow.t) :
  In (h, line) (BlockProxy.getHeadsWithLines s this)
  <-> In h (BlockProxy.getHeads s this) /\ Store.line_of s (lineId h) = Some line.
Proof.
  unfold BlockProxy.getHeadsWithLines. rewrite in_flat_map. split.
  - intros (v & Hv & H).
    destruct (Store.line_of s (lineId v)) as [l|] eqn:E; [|destruct H].
    destruct H as [H | []]. injection H as -> ->. auto.
  - intros [Hh Hl]. exists h. split; [exact Hh|]. rewrite Hl. left. reflexivity.
Qed.

(** What [createChild] does with the lines that [getLinesInRange] hands to
    it: if one of them is claimed by an INLINE child of the block, the call
    returns [null] and the store is the one of before; otherwise the store
    gains one block, an INLINE child of the block that has the timestamp of
    the block and claims exactly these lines, and nothing else changes. *)
Lemma createChild_of_the_lines_in_range
      (s : Store.t) (this : BlockRow.t) (range : VCSBlockRange.t)
      (linesInRange : list LineRow.t) :
  BlockProxy.getLinesInRange s this range = Ok linesInRange ->
  Spec.children_are_inline s ->
  Spec.relation_on_blocks s ->
  (Spec.overlaps_sibling s this linesInRange ->
   BlockProxy.createChild s this range = (Ok None, s))
  /\ (~ Spec.overlaps_sibling s this linesInRange ->
      exists child s',
        BlockProxy.createChild s this range = (Ok (Some child), s')
        /\ BlockRow.type child = BlockType.INLINE
        /\ BlockRow.parentId child = Some (BlockRow.id this)
        /\ BlockRow.timestamp child = BlockRow.timestamp this
        /\ Store.blocks s' = (Store.blocks s ++ [child])%list
        /\ (forall b, In b (Store.blocks s) -> BlockRow.id b <> BlockRow.id child)
        /\ (forall line, Store.connected s' (BlockRow.id child) line = true
                         <-> exists l, In l linesInRange /\ LineRow.id l = line)
        /\ (forall b line, b <> BlockRow.id child ->
                           Store.connected s' b line = Store.connected s b line)
        /\ Store.lines s' = Store.lines s
        /\ Store.versions s' = Store.versions s
        /\ Store.clock s' = Store.clock s).
Proof.
  intros Hrange Hinline Hrel. unfold BlockProxy.createChild. rewrite Hrange. split.
  - intros (c & l & Hc & Hp & _ & Hl & Hcl).
    destruct (BlockProxy.overlappingChild s this linesInRange) eqn:E; [reflexivity|].
    exfalso. unfold BlockProxy.overlappingChild in E.
    pose proof (find_none _ _ E c Hc) as Hnone. simpl in Hnone.
    rewrite Hp, (proj2 (option_Z_eqb_eq _ _) eq_refl) in Hnone. simpl in Hnone.
    assert (existsb (fun l => Store.connected s (BlockRow.id c) (LineRow.id l)) linesInRange
            = true) by (apply existsb_exists; eauto).
    congruence.
  - intro Hno.
    destruct (BlockProxy.overlappingChild s this linesInRange) as [c|] eqn:E.
    { exfalso. apply Hno. unfold BlockProxy.overlappingChild in E.
      apply find_some in E as [Hc Hpred]. apply andb_true_iff in Hpred as [Hp Hex].
      apply option_Z_eqb_eq in Hp. apply existsb_exists in Hex as (l & Hl & Hcl).
      exists c, l. repeat split; auto. apply Hinline; [exact Hc | congruence]. }
    unfold BlockProxy.inlineCopy.
    set (child := BlockRow.mk _ _ _ _ _ _ _).
    set (s1 := Store.with_blocks s (Store.blocks s ++ [child])).
    destruct (connect_all (BlockRow.id child) linesInRange s1) as (Hc & Hb & Hl & Hv & Hk).
    cbv zeta in Hc, Hb, Hl, Hv, Hk.
    assert (Hfresh : forall b, In b (Store.blocks s) -> BlockRow.id b <> BlockRow.id child).
    { intros b Hbin. pose proof (fresh_id_above _ _ (in_map BlockRow.id _ _ Hbin)) as Hlt.
      simpl. lia. }
    assert (Hnew : forall line, Store.connected s1 (BlockRow.id child) line = false).
    { intro line. destruct (Store.connected s1 (BlockRow.id child) line) eqn:Ec; [|reflexivity].
      exfalso. unfold Store.connected in Ec. apply existsb_exists in Ec as (p & Hp & Hpe).
      apply andb_true_iff in Hpe as [Hpb _]. apply Z.eqb_eq in Hpb.
      destruct (Hrel p Hp) as (b & Hbin & Hbid). apply (Hfresh b Hbin). congruence. }
    eexists child, _. split; [reflexivity|].
    split; [reflexivity|]. split; [reflexivity|]. split; [reflexivity|].
    split; [exact Hb|]. split; [exact Hfresh|]. split; [|split; [|repeat split; assumption]].
    + intro line. rewrite Hc, Hnew, Z.eqb_refl. simpl. rewrite existsb_exists.
      split; intros (l & Hlin & Hid); exists l; (split; [exact Hlin|]).
      * apply Z.eqb_eq, Hid.
      * apply Z.eqb_eq, Hid.
    + intros b line Hne. rewrite Hc.
      destruct (b =? BlockRow.id child) eqn:Eb; [apply Z.eqb_eq in Eb; contradiction|].
      simpl. rewrite orb_false_r. reflexivity.
Qed.

(** The lines a range resolves to: the lines of the heads of the block,
    shown or hidden, from the line shown as number [startLine] to the line
    shown as number [endLine]. *)
Lemma getLinesInRange_resolves (s : Store.t) (this : BlockRow.t) (range : VCSBlockRange.t)
      (first last : Version * LineRow.t) :
  at_index (filter (fun hl => isActive (fst hl)) (BlockProxy.getHeadsWithLines s this))
           (VCSBlockRange.startLine range - 1) = Some first ->
  at_index (filter (fun hl => isActive (fst hl)) (BlockProxy.getHeadsWithLines s this))
           (VCSBlockRange.endLine range - 1) = Some last ->
  exists resolved,
    BlockProxy.getLinesInRange s this range = Ok resolved
    /\ forall l, In l resolved
                 <-> (exists h, In h (BlockProxy.getHeads s this)
                                /\ Store.line_of s (lineId h) = Some l)
                     /\ (LineRow.order (snd first) <= LineRow.order l)%Q
                     /\ (LineRow.order l <= LineRow.order (snd last))%Q.
Proof.
  intros Hfirst Hlast. unfold BlockProxy.getLinesInRange. cbv zeta.
  rewrite Hfirst, Hlast.
  destruct (BlockProxy.getHeadsWithLines s this) as [|hl0 rest] eqn:E.
  { apply at_index_In in Hfirst. destruct Hfirst. }
  rewrite <- E. eexists. split; [reflexivity|].
  intro l. rewrite in_map_iff. split.
  - intros ([h l'] & <- & Hin). apply filter_In in Hin as [Hin Hord]. simpl in *.
    apply andb_true_iff in Hord as [H1 H2]. apply Qle_bool_iff in H1, H2.
    apply getHeadsWithLines_In in Hin. split; [exists h; exact Hin | auto].
  - intros ((h & Hh & Hl) & H1 & H2). exists (h, l). split; [reflexivity|].
    apply filter_In. split; [apply getHeadsWithLines_In; auto|]. simpl.
    apply andb_true_iff. split; apply Qle_bool_iff; assumption.
Qed.

(** C6, as the code has it -- [create_child] of a persisted block on a range
    whose start and end are numbers of lines that the block shows, in a store
    where only INLINE blocks have a parent and the relation of blocks and
    lines names stored blocks.  The range resolves to the lines of the heads
    of the block, shown or hidden, that lie between the line shown as
    [startLine] and the line shown as [endLine] in the order of the file.  If
    one of them is claimed by an INLINE child of the block, the call returns
    [null] and the store is the one of before; otherwise the store gains one
    block, an INLINE child of the block that has the timestamp of the block
    and claims exactly the resolved lines, and nothing else changes. *)
Theorem C6_createChild (s : Store.t) (this : BlockRow.t) (range : VCSBlockRange.t)
        (first last : Version * LineRow.t) :
  Spec.children_are_inline s ->
  Spec.relation_on_blocks s ->
  at_index (filter (fun hl => isActive (fst hl)) (BlockProxy.getHeadsWithLines s this))
           (VCSBlockRange.startLine range - 1) = Some first ->
  at_index (filter (fun hl => isActive (fst hl)) (BlockProxy.getHeadsWithLines s this))
           (VCSBlockRange.endLine range - 1) = Some last ->
  exists resolved,
    BlockProxy.getLinesInRange s this range = Ok resolved
    /\ (forall l, In l resolved
                  <-> (exists h, In h (BlockProxy.getHeads s this)
                                 /\ Store.line_of s (lineId h) = Some l)
                      /\ (LineRow.order (snd first) <= LineRow.order l)%Q
                      /\ (LineRow.order l <= LineRow.order (snd last))%Q)
    /\ (Spec.overlaps_sibling s this resolved ->
        BlockProxy.createChild s this range = (Ok None, s))
    /\ (~ Spec.overlaps_sibling s this resolved ->
        exists child s',
          BlockProxy.createChild s this range = (Ok (Some child), s')
          /\ BlockRow.type child = BlockType.INLINE
          /\ BlockRow.parentId child = Some (BlockRow.id this)
          /\ BlockRow.timestamp child = BlockRow.timestamp this
          /\ Store.blocks s' = (Store.blocks s ++ [child])%list
          /\ (forall b, In b (Store.blocks s) -> BlockRow.id b <> BlockRow.id child)
          /\ (forall line, Store.connected s' (BlockRow.id child) line = true
                           <-> exists l, In l resolved /\ LineRow.id l = line)
          /\ (forall b line, b <> BlockRow.id child ->
                             Store.connected s' b line = Store.connected s b line)
          /\ Store.lines s' = Store.lines s
          /\ Store.versions s' = Store.versions s
          /\ Store.clock s' = Store.clock s).
Proof.
  intros Hinline Hrel Hfirst Hlast.
  destruct (getLinesInRange_resolves s this range first last Hfirst Hlast)
    as (resolved & Hrange & Hresolved).
  exists resolved. split; [exact Hrange|]. split; [exact Hresolved|].
  apply (createChild_of_the_lines_in_range s this range resolved Hrange Hinline Hrel).
Qed.

Lemma C6_createChild_witness :
  BlockProxy.createChild withChild (proxy withChild 1) (VCSBlockRange.mk 1 2)
  = (Ok None, withChild)
  /\ exists child s',
       BlockProxy.createChild loaded (proxy loaded 1) (VCSBlockRange.mk 2 3)
       = (Ok (Some child), s')
       /\ BlockRow.timestamp child = 3
       /\ forall line, Store.connected s' (BlockRow.id child) line = true
                       <-> line = 2 \/ line = 3.
Proof.
  split.
  - destruct (C6_createChild withChild (proxy withChild 1) (VCSBlockRange.mk 1 2)
                             (imported 1 1 1 "x", LineRow.mk 1 1 (1 # 1))
                             (imported 2 2 2 "y", LineRow.mk 2 1 (2 # 1)))
      as (resolved & Hrange & _ & Hnull & _).
    + intros c Hc Hp. vm_compute in Hc.
      destruct Hc as [<- | [<- | []]]; [exfalso; apply Hp; reflexivity | reflexivity].
    + intros p Hp. vm_compute in Hp.
      repeat (destruct Hp as [<- | Hp];
              [ match goal with
                | |- exists b, _ /\ _ = fst (?x, _) => exists (proxy withChild x)
                end; split; [vm_compute; auto | reflexivity] | ]).
      destruct Hp.
    + vm_compute. reflexivity.
    + vm_compute. reflexivity.
    + apply Hnull. vm_compute in Hrange. injection Hrange as <-.
      exists (proxy withChild 2), (LineRow.mk 2 1 (2 # 1)).
      vm_compute. repeat split; auto.
  - destruct (C6_createChild loaded (proxy loaded 1) (VCSBlockRange.mk 2 3)
                             (imported 2 2 2 "y", LineRow.mk 2 1 (2 # 1))
                             (imported 3 3 3 "z", LineRow.mk 3 1 (3 # 1)))
      as (resolved & Hrange & _ & _ & Hcreate).
    + intros c Hc Hp. vm_compute in Hc.
      destruct Hc as [<- | []]. exfalso; apply Hp; reflexivity.
    + intros p Hp. vm_compute in Hp.
      repeat (destruct Hp as [<- | Hp];
              [ match goal with
                | |- exists b, _ /\ _ = fst (?x, _) => exists (proxy loaded x)
                end; split; [vm_compute; auto | reflexivity] | ]).
      destruct Hp.
    + vm_compute. reflexivity.
    + vm_compute. reflexivity.
    + destruct Hcreate as (child & s' & Hc & _ & _ & Ht & _ & _ & Hlines & _).
      * intros (c & l & Hc & Hp & _). vm_compute in Hc.
        destruct Hc as [<- | []]. discriminate Hp.
      * exists child, s'. split; [exact Hc|]. split; [exact Ht|].
        intro line. rewrite Hlines. vm_compute in Hrange. injection Hrange as <-.
        split.
        -- intros (l & [<- | [<- | []]] & <-); auto.
        -- intros [-> | ->];
             [exists (LineRow.mk 2 1 (2 # 1)) | exists (LineRow.mk 3 1 (3 # 1))];
             simpl; auto.
Defined.

(** C6, as stated, fails on the ranges that leave the lines of the block and
    on the hidden lines.  The loaded file shows three lines and has no child:
    for the range 3-4 [createChild] reads [.line] of the missing fourth head
    and throws, where it had to create a child.  In memory the same range
    throws by the guard of [getLineByLineNumber], on a block without
    children.  In the file scrubbed back behind the insertion of "new", line 4
    is hidden between the lines shown as 1 and 2: the child for the range 1-2
    claims it with them, while the active lines of the range are 1 and 2. *)
Lemma C6_counterexample :
  BlockProxy.getChildren loaded (proxy loaded 1) = []
  /\ BlockProxy.createChild loaded (proxy loaded 1) (VCSBlockRange.mk 3 4)
     = (Throw TypeError, loaded)
  /\ Block.getChildren inserted = []
  /\ Block.createChild_firstAndLastLine inserted (VCSBlockRange.mk 3 9)
     = Throw InvalidLineNumber
  /\ map LineRow.id (BlockProxy.getActiveLinesInRange scrubbedBack (proxy scrubbedBack 1)
                                                      (VCSBlockRange.mk 1 2))
     = [1; 2]
  /\ exists child s',
       BlockProxy.createChild scrubbedBack (proxy scrubbedBack 1) (VCSBlockRange.mk 1 2)
       = (Ok (Some child), s')
       /\ Store.connected s' (BlockRow.id child) 4 = true.
Proof.
  repeat (split; [vm_compute; reflexivity|]).
  eexists _, _. split; vm_compute; reflexivity.
Qed.

(* ================================================================== *)
(** ** [applyIndex] at the current version index *)
(* ================================================================== *)













(* ================================================================== *)
(** ** Filtering a sorted array *)
(* ================================================================== *)

Section FilterSort.
Context {A : Type}.
Variable le : A -> A -> bool.
Hypothesis le_total : forall a b, le a b = false -> le b a = true.
Hypothesis le_trans : forall a b c, le a b = true -> le b c = true -> le a c = true.

Lemma insert_by_front (x : A) (l : list A) :
  (forall z, In z l -> le x z = true) -> insert_by le x l = x :: l.
Proof.
  destruct l as [|y l]; simpl; [reflexivity|].
  intro H. rewrite (H y (or_introl eq_refl)). reflexivity.
Qed.

Lemma filter_insert_by (p : A -> bool) (x : A) (l : list A) :
  StronglySorted (fun a b => le a b = true) l ->
  filter p (insert_by le x l)
  = if p x then insert_by le x (filter p l) else filter p l.
Proof.
  induction 1 as [|y l Hs IH Hy].
  - simpl. destruct (p x); reflexivity.
  - cbn [insert_by]. destruct (le x y) eqn:E.
    + cbn [filter]. destruct (p x) eqn:Px; [|reflexivity].
      symmetry. apply insert_by_front. intros z Hz.
      assert (Hz' : In z (y :: l)).
      { destruct (p y); [destruct Hz as [<- | Hz]; [left; reflexivity | right] |right];
          apply filter_In in Hz; tauto. }
      destruct Hz' as [<- | Hz']; [exact E|].
      rewrite Forall_forall in Hy. eapply le_trans; [exact E | auto].
    + cbn [filter]. rewrite IH. destruct (p y) eqn:Py, (p x) eqn:Px; try reflexivity.
      cbn [insert_by]. rewrite E. reflexivity.
Qed.

(** Filtering a sorted array and sorting a filtered one give the same array. *)
Lemma filter_sort_by (p : A -> bool) (l : list A) :
  filter p (sort_by le l) = sort_by le (filter p l).
Proof.
  induction l as [|x l IH]; [reflexivity|].
  cbn [sort_by fold_right]. fold (sort_by le l).
  rewrite filter_insert_by by (apply sort_by_sorted; assumption).
  cbn [filter]. destruct (p x); [|exact IH].
  cbn [sort_by fold_right]. fold (sort_by le (filter p l)). rewrite IH. reflexivity.
Qed.
End FilterSort.

(* ================================================================== *)
(** ** The heads of a block *)
(* ================================================================== *)

Lemma min_timestamp_attained (vs : list Version) (d : Z) :
  min_timestamp d vs = d \/ exists v, In v vs /\ min_timestamp d vs = timestamp v.
Proof.
  unfold min_timestamp. revert d. induction vs as [|a vs IH]; intro d; simpl; [auto|].
  destruct (IH (Z.min d (timestamp a))) as [H | (v & Hv & H)].
  - rewrite H. destruct (Z.min_spec d (timestamp a)) as [[_ E] | [_ E]]; rewrite E; eauto.
  - eauto.
Qed.

Lemma dedup_NoDup (l : list Z) : NoDup (dedup Z.eqb l).
Proof.
  induction l as [|x l IH]; simpl; constructor.
  - intro H. apply filter_In in H as [_ H]. rewrite Z.eqb_refl in H. discriminate.
  - apply NoDup_filter, IH.
Qed.

Lemma group_by_line_fst (agg : Z -> list Version -> Z) (vs : list Version) :
  map fst (group_by_line agg vs) = dedup Z.eqb (map lineId vs).
Proof.
  unfold group_by_line. rewrite map_map. rewrite <- (map_id (dedup Z.eqb (map lineId vs))) at 2.
  apply map_ext. intro lid. destruct (filter _ vs); reflexivity.
Qed.

(** The aggregate of a group is the timestamp of one of its versions. *)
Lemma group_by_line_attained (agg : Z -> list Version -> Z) (vs : list Version) (lid m : Z) :
  (forall d l, agg d l = d \/ exists v, In v l /\ agg d l = timestamp v) ->
  In (lid, m) (group_by_line agg vs) ->
  exists w, In w vs /\ lineId w = lid /\ timestamp w = m.
Proof.
  intros Hagg H. apply group_by_line_In in H as (v & rest & Hg & ->).
  assert (Hsub : forall w, In w (v :: rest) -> In w vs /\ lineId w = lid).
  { intros w Hw. rewrite <- Hg in Hw. apply filter_In in Hw as [Hw Hl].
    apply Z.eqb_eq in Hl. auto. }
  destruct (Hagg (timestamp v) rest) as [E | (w & Hw & E)].
  - exists v. destruct (Hsub v (or_introl eq_refl)). auto.
  - exists w. destruct (Hsub w (or_intror Hw)). auto.
Qed.

Lemma group_by_line_has (agg : Z -> list Version -> Z) (vs : list Version) (w : Version) :
  In w vs -> exists m, In (lineId w, m) (group_by_line agg vs).
Proof.
  intro Hw.
  assert (H : In (lineId w) (map fst (group_by_line agg vs))).
  { rewrite group_by_line_fst. apply (proj2 (dedup_In _ _)). apply in_map, Hw. }
  apply in_map_iff in H as ([lid m] & E & H). simpl in E. subst lid. eauto.
Qed.

Lemma max_attained (d : Z) (l : list Version) :
  max_timestamp d l = d \/ exists v, In v l /\ max_timestamp d l = timestamp v.
Proof. apply max_timestamp_spec. Qed.

Lemma matches_key_In (keys : list (Z * Z)) (v : Version) :
  matches_key keys v = true <-> In (lineId v, timestamp v) keys.
Proof.
  unfold matches_key. rewrite existsb_exists. split.
  - intros ([l m] & Hk & H). simpl in H. apply andb_true_iff in H as [H1 H2].
    apply Z.eqb_eq in H1, H2. subst. exact Hk.
  - intro H. exists (lineId v, timestamp v). split; [exact H|]. simpl.
    rewrite !Z.eqb_refl. reflexivity.
Qed.

Lemma matches_key_app (k1 k2 : list (Z * Z)) (v : Version) :
  matches_key (k1 ++ k2) v = matches_key k1 v || matches_key k2 v.
Proof. unfold matches_key. apply existsb_app. Qed.

Section Heads.
Variable s : Store.t.
Variable this : BlockRow.t.
Local Abbreviation T := (BlockRow.timestamp this).
Local Abbreviation on := (BlockProxy.on_file_block_line s this).

(** A key of [potentiallyActiveHeads] belongs to a line that is born. *)
Lemma potentiallyActiveHeads_born (lid m : Z) :
  In (lid, m) (BlockProxy.potentiallyActiveHeads s this) ->
  exists w, In w (Store.versions s) /\ on w = true /\ lineId w = lid
            /\ timestamp w = m /\ m <= T.
Proof.
  intro H.
  destruct (group_by_line_attained max_timestamp _ lid m max_attained H) as (w & Hw & Hl & Ht).
  apply filter_In in Hw as [Hw Hc]. apply andb_true_iff in Hc as [Hon Hle].
  apply Z.leb_le in Hle. exists w. repeat split; auto. lia.
Qed.

Lemma preInsertionHeads_unborn (lid m : Z) :
  In (lid, m) (BlockProxy.preInsertionHeads s this) ->
  exists w, In w (Store.versions s) /\ on w = true /\ lineId w = lid
            /\ timestamp w = m
            /\ existsb (fun k => fst k =? lid) (BlockProxy.potentiallyActiveHeads s this) = false.
Proof.
  intro H.
  destruct (group_by_line_attained min_timestamp _ lid m (fun d l => min_timestamp_attained l d) H)
    as (w & Hw & Hl & Ht).
  apply filter_In in Hw as [Hw Hc]. apply andb_true_iff in Hc as [Hon Hno].
  apply negb_true_iff in Hno. exists w. repeat split; auto. rewrite <- Hl. exact Hno.
Qed.

(** A line without a key in [potentiallyActiveHeads] has no version at or
    before the timestamp of the block. *)
Lemma unborn_later (v : Version) :
  In v (Store.versions s) -> on v = true ->
  existsb (fun k => fst k =? lineId v) (BlockProxy.potentiallyActiveHeads s this) = false ->
  T < timestamp v.
Proof.
  intros Hv Hon Hno.
  destruct (Z.le_gt_cases (timestamp v) T) as [Hle | Hgt]; [exfalso | lia].
  assert (Hb : In v (filter (fun v => on v && (timestamp v <=? T)) (Store.versions s))).
  { apply filter_In. split; [exact Hv|]. rewrite Hon. apply Z.leb_le, Hle. }
  apply (group_by_line_covers max_timestamp) in Hb.
  fold (BlockProxy.potentiallyActiveHeads s this) in Hb. congruence.
Qed.

(** Every version of a claimed line of the file that is the head of its line
    at the timestamp of the block is among the heads. *)
Lemma getHeads_complete (h : Version) :
  In h (Store.versions s) -> on h = true ->
  Spec.is_head_at (filter (fun v => lineId v =? lineId h) (Store.versions s)) T h ->
  In h (BlockProxy.getHeads s this).
Proof.
  intros Hh Hon (_ & Hhead). unfold BlockProxy.getHeads.
  apply sort_by_In, filter_In. split; [exact Hh|].
  rewrite matches_key_app. apply orb_true_iff.
  assert (Hline : forall w, In w (Store.versions s) -> lineId w = lineId h ->
                            In w (filter (fun v => lineId v =? lineId h) (Store.versions s))).
  { intros w Hw Hl. apply filter_In. split; [exact Hw | apply Z.eqb_eq, Hl]. }
  destruct Hhead as [[Hle Hmax] | [Hlate Hmin]].
  - left. apply matches_key_In.
    assert (Hb : In h (filter (fun v => on v && (timestamp v <=? T)) (Store.versions s))).
    { apply filter_In. split; [exact Hh|]. rewrite Hon. apply Z.leb_le, Hle. }
    destruct (group_by_line_has max_timestamp _ h Hb) as [m Hm].
    fold (BlockProxy.potentiallyActiveHeads s this) in Hm.
    replace (timestamp h) with m; [exact Hm|].
    pose proof Hm as Hm'. apply group_by_line_In in Hm' as (v0 & rest & Hg & Hagg).
    destruct (potentiallyActiveHeads_born _ _ Hm) as (w & Hw & Hwon & Hwl & Hwt & HmT).
    assert (Hin : In h (v0 :: rest)).
    { rewrite <- Hg. apply filter_In. split; [exact Hb | apply Z.eqb_refl]. }
    destruct (max_timestamp_spec rest (timestamp v0)) as (Hge & Hall & _).
    rewrite <- Hagg in Hge, Hall.
    assert (timestamp h <= m) by (destruct Hin as [<- | Hin]; [exact Hge | apply Hall, Hin]).
    assert (timestamp w <= timestamp h) by (apply Hmax; [apply Hline; auto | lia]).
    lia.
  - right. apply matches_key_In.
    assert (Hno : existsb (fun k => fst k =? lineId h) (BlockProxy.potentiallyActiveHeads s this)
                  = false).
    { destruct (existsb _ _) eqn:E; [exfalso | reflexivity].
      apply existsb_exists in E as ([lid m] & Hk & E). simpl in E. apply Z.eqb_eq in E. subst lid.
      destruct (potentiallyActiveHeads_born _ _ Hk) as (w & Hw & _ & Hwl & Hwt & HmT).
      specialize (Hlate w (Hline w Hw Hwl)). lia. }
    assert (Hb : In h (filter (fun v => on v && negb (existsb (fun k => fst k =? lineId v)
                                                        (BlockProxy.potentiallyActiveHeads s this)))
                              (Store.versions s))).
    { apply filter_In. split; [exact Hh|]. rewrite Hon, Hno. reflexivity. }
    destruct (group_by_line_has min_timestamp _ h Hb) as [m Hm].
    fold (BlockProxy.preInsertionHeads s this) in Hm.
    replace (timestamp h) with m; [exact Hm|].
    pose proof Hm as Hm'. apply group_by_line_In in Hm' as (v0 & rest & Hg & Hagg).
    destruct (preInsertionHeads_unborn _ _ Hm) as (w & Hw & Hwon & Hwl & Hwt & _).
    assert (Hin : In h (v0 :: rest)).
    { rewrite <- Hg. apply filter_In. split; [exact Hb | apply Z.eqb_refl]. }
    destruct (min_timestamp_spec rest (timestamp v0)) as (Hge & Hall).
    rewrite <- Hagg in Hge, Hall.
    assert (m <= timestamp h) by (destruct Hin as [<- | Hin]; [exact Hge | apply Hall, Hin]).
    assert (timestamp h <= timestamp w) by (apply Hmin; apply Hline; auto).
    lia.
Qed.

(** A head is a version of the store. *)
Lemma getHeads_In (h : Version) :
  In h (BlockProxy.getHeads s this) -> In h (Store.versions s).
Proof.
  unfold BlockProxy.getHeads. intro H. apply sort_by_In, filter_In in H. tauto.
Qed.

(** Every claimed line of the file that has a version has a head. *)
Lemma getHeads_covers (v : Version) :
  In v (Store.versions s) -> on v = true ->
  exists h, In h (BlockProxy.getHeads s this) /\ lineId h = lineId v.
Proof.
  intros Hv Hon.
  assert (Hkey : exists m, In (lineId v, m) (BlockProxy.potentiallyActiveHeads s this
                                              ++ BlockProxy.preInsertionHeads s this)).
  { destruct (existsb (fun k => fst k =? lineId v) (BlockProxy.potentiallyActiveHeads s this))
      eqn:E.
    - apply existsb_exists in E as ([lid m] & Hk & E). simpl in E. apply Z.eqb_eq in E.
      subst lid. exists m. apply in_or_app. left. exact Hk.
    - assert (Hb : In v (filter (fun v => on v
                                    && negb (existsb (fun k => fst k =? lineId v)
                                               (BlockProxy.potentiallyActiveHeads s this)))
                                (Store.versions s))).
      { apply filter_In. split; [exact Hv|]. rewrite Hon, E. reflexivity. }
      destruct (group_by_line_has min_timestamp _ v Hb) as [m Hm].
      exists m. apply in_or_app. right. exact Hm. }
  destruct Hkey as [m Hk].
  assert (Hw : exists w, In w (Store.versions s) /\ lineId w = lineId v /\ timestamp w = m).
  { apply in_app_or in Hk as [Hk | Hk].
    - destruct (potentiallyActiveHeads_born _ _ Hk) as (w & ? & ? & ? & ? & ?). eauto.
    - destruct (preInsertionHeads_unborn _ _ Hk) as (w & ? & ? & ? & ? & ?). eauto. }
  destruct Hw as (w & Hw & Hwl & Hwt). exists w. split; [|exact Hwl].
  unfold BlockProxy.getHeads. apply sort_by_In, filter_In. split; [exact Hw|].
  apply matches_key_In. rewrite Hwl, Hwt. exact Hk.
Qed.

(** Two heads of one line carry the same timestamp. *)
Lemma getHeads_same_timestamp (h1 h2 : Version) :
  In h1 (BlockProxy.getHeads s this) -> In h2 (BlockProxy.getHeads s this) ->
  lineId h1 = lineId h2 -> timestamp h1 = timestamp h2.
Proof.
  intros H1 H2 Hl.
  destruct (getHeads_head_at s this h1 H1) as (_ & Hin1 & C1).
  destruct (getHeads_head_at s this h2 H2) as (_ & Hin2 & C2).
  rewrite Hl in Hin1, C1.
  destruct C1 as [[L1 M1] | [L1 M1]], C2 as [[L2 M2] | [L2 M2]].
  - specialize (M1 h2 Hin2 L2). specialize (M2 h1 Hin1 L1). lia.
  - specialize (L2 h1 Hin1). lia.
  - specialize (L1 h2 Hin2). lia.
  - specialize (M1 h2 Hin2). specialize (M2 h1 Hin1). lia.
Qed.

End Heads.

Lemma Qle_bool_total (a b : Q) : Qle_bool a b = false -> Qle_bool b a = true.
Proof.
  intro H. apply Qle_bool_iff. apply Qlt_le_weak. apply Qnot_le_lt.
  intro Hle. apply Qle_bool_iff in Hle. congruence.
Qed.

Lemma Qle_bool_trans (a b c : Q) :
  Qle_bool a b = true -> Qle_bool b c = true -> Qle_bool a c = true.
Proof. rewrite !Qle_bool_iff. apply Qle_trans. Qed.

Lemma order_asc_total (s : Store.t) (a b : Version) :
  BlockProxy.order_asc s a b = false -> BlockProxy.order_asc s b a = true.
Proof. apply Qle_bool_total. Qed.

Lemma order_asc_trans (s : Store.t) (a b c : Version) :
  BlockProxy.order_asc s a b = true -> BlockProxy.order_asc s b c = true ->
  BlockProxy.order_asc s a c = true.
Proof. apply Qle_bool_trans. Qed.

(** X1 -- [getHeads] hands back one head per line.  When a line has at most
    one version per timestamp, every line of the file that the block claims
    and that has a version at all has exactly one head in [getHeads]. *)
Theorem getHeads_one_head_per_line (s : Store.t) (this : BlockRow.t) (v : Version) :
  (forall a b, In a (Store.versions s) -> In b (Store.versions s) ->
               lineId a = lineId b -> timestamp a = timestamp b -> a = b) ->
  In v (Store.versions s) ->
  BlockProxy.on_file_block_line s this v = true ->
  exists h, In h (BlockProxy.getHeads s this) /\ lineId h = lineId v
            /\ forall h', In h' (BlockProxy.getHeads s this) -> lineId h' = lineId v -> h' = h.
Proof.
  intros Hkey Hv Hon.
  destruct (getHeads_covers s this v Hv Hon) as (h & Hh & Hl).
  exists h. repeat split; auto.
  intros h' Hh' Hl'. apply Hkey.
  - eapply getHeads_In, Hh'.
  - eapply getHeads_In, Hh.
  - congruence.
  - apply (getHeads_same_timestamp s this); auto. congruence.
Qed.

Lemma getHeads_one_head_per_line_witness :
  exists h, In h (BlockProxy.getHeads scrubbedBack (proxy scrubbedBack 1))
            /\ lineId h = 4
            /\ forall h', In h' (BlockProxy.getHeads scrubbedBack (proxy scrubbedBack 1)) ->
                          lineId h' = 4 -> h' = h.
Proof.
  apply (getHeads_one_head_per_line scrubbedBack (proxy scrubbedBack 1)
           (mkVersion 5 4 5 INSERTION true "new" (Some 1) None)).
  - intros a b Ha Hb. vm_compute in Ha, Hb.
    repeat (destruct Ha as [<- | Ha]; [|]); try destruct Ha;
      repeat (destruct Hb as [<- | Hb]; [|]); try destruct Hb;
      simpl; intros; try reflexivity; discriminate.
  - vm_compute. tauto.
  - vm_compute. reflexivity.
Defined.

(** X2 -- [getActiveHeads] rests on the note in the code that "the first
    version of an inserted line is always inactive": when the heads that are
    later than the timestamp of the block, the heads of the lines not yet
    born, are inactive, [getActiveHeads] is [getHeads] without the inactive
    heads, in the same order. *)
Theorem getActiveHeads_are_the_active_heads (s : Store.t) (this : BlockRow.t) :
  (forall h, In h (BlockProxy.getHeads s this) ->
             BlockRow.timestamp this < timestamp h -> isActive h = false) ->
  BlockProxy.getActiveHeads s this = filter isActive (BlockProxy.getHeads s this).
Proof.
  intro Hnote. unfold BlockProxy.getActiveHeads, BlockProxy.getHeads.
  rewrite (filter_sort_by _ (order_asc_total s) (order_asc_trans s)).
  f_equal. rewrite filter_andb. apply filter_ext_in. intros v Hv.
  rewrite matches_key_app.
  destruct (matches_key (BlockProxy.potentiallyActiveHeads s this) v); [reflexivity|].
  simpl. destruct (matches_key (BlockProxy.preInsertionHeads s this) v) eqn:Epre; [|reflexivity].
  simpl. symmetry. apply Hnote.
  - unfold BlockProxy.getHeads. apply sort_by_In, filter_In. split; [exact Hv|].
    rewrite matches_key_app, Epre. apply orb_true_r.
  - apply matches_key_In in Epre.
    destruct (preInsertionHeads_unborn s this _ _ Epre) as (w & Hw & Hwon & Hwl & _ & Hno).
    apply (unborn_later s this v Hv); [|exact Hno].
    rewrite (on_file_block_line_same_line s this v w); [exact Hwon | congruence].
Qed.

Lemma getActiveHeads_are_the_active_heads_witness :
  BlockProxy.getActiveHeads scrubbedBack (proxy scrubbedBack 1)
  = filter isActive (BlockProxy.getHeads scrubbedBack (proxy scrubbedBack 1)).
Proof.
  apply getActiveHeads_are_the_active_heads.
  intros h Hh. vm_compute in Hh.
  repeat (destruct Hh as [<- | Hh]; [vm_compute; intro; try reflexivity; discriminate|]).
  destruct Hh.
Defined.

(** The active lines are as many as the active heads counted. *)
Lemma getActiveLines_length (s : Store.t) (this : BlockRow.t) :
  NoDup (map (fun v => (lineId v, timestamp v)) (Store.versions s)) ->
  NoDup (map LineRow.id (Store.lines s)) ->
  zlength (BlockProxy.getActiveLines s this) = BlockProxy.getActiveLineCount s this.
Proof.
  intros Hvs Hls. symmetry.
  unfold BlockProxy.getActiveLineCount, BlockProxy.getActiveLines, zlength.
  rewrite sort_by_length. f_equal.
  set (pah := BlockProxy.potentiallyActiveHeads s this).
  set (P := fun v => matches_key pah v && isActive v).
  set (Q := fun l : LineRow.t => existsb _ pah).
  rewrite <- (length_map lineId (filter P (Store.versions s))).
  rewrite <- (length_map LineRow.id (filter Q (Store.lines s))).
  apply Permutation_length. apply NoDup_Permutation.
  - (* one active head per line *)
    assert (Hfst : NoDup (map fst pah)).
    { unfold pah, BlockProxy.potentiallyActiveHeads. rewrite group_by_line_fst.
      apply dedup_NoDup. }
    assert (Hinj : forall a b, In a (filter P (Store.versions s)) ->
                               In b (filter P (Store.versions s)) ->
                               lineId a = lineId b ->
                               (lineId a, timestamp a) = (lineId b, timestamp b)).
    { intros a b Ha Hb Hl. apply filter_In in Ha as [_ Ha], Hb as [_ Hb].
      apply andb_true_iff in Ha as [Ha _], Hb as [Hb _].
      apply matches_key_In in Ha, Hb. rewrite Hl in Ha.
      f_equal; [exact Hl|].
      assert (E : (lineId b, timestamp a) = (lineId b, timestamp b)).
      { clear - Hfst Ha Hb. induction pah as [|k r IH]; [destruct Ha|].
        simpl in Hfst. inversion Hfst as [|? ? Hnotin Hnd]; subst.
        destruct Ha as [-> | Ha], Hb as [Hb | Hb]; auto.
        - exfalso. apply Hnotin. apply (in_map fst) in Hb. exact Hb.
        - subst k. exfalso. apply Hnotin. apply (in_map fst) in Ha. exact Ha. }
      congruence. }
    assert (Hnd : NoDup (map (fun v => (lineId v, timestamp v)) (filter P (Store.versions s)))).
    { clear - Hvs. induction (Store.versions s) as [|a l IH]; simpl; [constructor|].
      inversion Hvs as [|? ? Hnotin Hnd]; subst.
      destruct (P a); simpl; auto. constructor; auto.
      intro Hin. apply Hnotin. apply in_map_iff in Hin as (x & Hx & Hin).
      apply filter_In in Hin as [Hin _]. rewrite <- Hx.
      apply (in_map (fun v => (lineId v, timestamp v))), Hin. }
    revert Hinj Hnd. generalize (filter P (Store.versions s)). intro l.
    induction l as [|a l IH]; simpl; intros Hinj Hnd; [constructor|].
    inversion Hnd as [|? ? Hnotin Hnd']; subst. constructor.
    + intro Hin. apply in_map_iff in Hin as (b & Hb & Hin).
      apply Hnotin. rewrite (Hinj a b); auto.
      apply (in_map (fun v => (lineId v, timestamp v))), Hin.
    + apply IH; auto.
  - apply NoDup_map_filter, Hls.
  - intro lid. rewrite !in_map_iff. split.
    + intros (v & <- & Hv). apply filter_In in Hv as [Hv HP].
      apply andb_true_iff in HP as [Hk Hact]. apply matches_key_In in Hk.
      destruct (potentiallyActiveHeads_born s this _ _ Hk) as (w & Hw & Hwon & Hwl & _ & _).
      unfold BlockProxy.on_file_block_line in Hwon.
      destruct (Store.line_of s (lineId w)) as [l|] eqn:El; [|discriminate].
      unfold Store.line_of in El. pose proof (find_some _ _ El) as [Hl Hid].
      apply Z.eqb_eq in Hid.
      exists l. split; [congruence|]. apply filter_In. split; [exact Hl|].
      unfold Q. apply existsb_exists. exists (lineId v, timestamp v). split; [exact Hk|].
      simpl. replace (LineRow.id l) with (lineId v) by congruence. rewrite Z.eqb_refl. simpl.
      apply existsb_exists. exists v. split; [exact Hv|].
      rewrite !Z.eqb_refl. exact Hact.
    + intros (l & <- & Hl). apply filter_In in Hl as [Hl HQ]. unfold Q in HQ.
      apply existsb_exists in HQ as ([k m] & Hk & HQ). simpl in HQ.
      apply andb_true_iff in HQ as [Hid HQ]. apply Z.eqb_eq in Hid.
      apply existsb_exists in HQ as (v & Hv & HQ).
      apply andb_true_iff in HQ as [HQ Hact]. apply andb_true_iff in HQ as [Hvl Hvt].
      apply Z.eqb_eq in Hvl, Hvt.
      exists v. split; [exact Hvl|]. apply filter_In. split; [exact Hv|].
      unfold P. rewrite Hact, andb_true_r. apply matches_key_In.
      rewrite Hvl, Hvt, Hid. exact Hk.
Qed.

(** X3 -- The three queries for the visible lines agree on their number:
    when a line has one version per timestamp and the line ids are unique,
    [getActiveLineCount] is the length of [getActiveLines] and the length of
    [getActiveHeads]. *)
Theorem getActiveLineCount_counts_the_active_lines (s : Store.t) (this : BlockRow.t) :
  NoDup (map (fun v => (lineId v, timestamp v)) (Store.versions s)) ->
  NoDup (map LineRow.id (Store.lines s)) ->
  BlockProxy.getActiveLineCount s this = zlength (BlockProxy.getActiveLines s this)
  /\ BlockProxy.getActiveLineCount s this = zlength (BlockProxy.getActiveHeads s this).
Proof.
  intros Hvs Hls. split.
  - symmetry. apply getActiveLines_length; assumption.
  - unfold BlockProxy.getActiveLineCount, BlockProxy.getActiveHeads, zlength.
    rewrite sort_by_length. reflexivity.
Qed.

Lemma getActiveLineCount_counts_the_active_lines_witness :
  BlockProxy.getActiveLineCount afterInsert (proxy afterInsert 1)
  = zlength (BlockProxy.getActiveLines afterInsert (proxy afterInsert 1))
  /\ BlockProxy.getActiveLineCount afterInsert (proxy afterInsert 1)
     = zlength (BlockProxy.getActiveHeads afterInsert (proxy afterInsert 1)).
Proof.
  apply getActiveLineCount_counts_the_active_lines.
  - vm_compute.
    repeat (constructor;
            [ simpl; intro H; repeat (destruct H as [H | H]; [discriminate H|]); exact H | ]).
    constructor.
  - vm_compute.
    repeat (constructor;
            [ simpl; intro H; repeat (destruct H as [H | H]; [discriminate H|]); exact H | ]).
    constructor.
Defined.

(* ================================================================== *)
(** ** Cloning the outdated heads *)
(* ================================================================== *)

(** The heads of a block are exactly the versions that lead their line at the
    timestamp of the block. *)
Lemma getHeads_iff (s : Store.t) (this : BlockRow.t) (h : Version) :
  In h (BlockProxy.getHeads s this)
  <-> In h (Store.versions s)
      /\ BlockProxy.on_file_block_line s this h = true
      /\ Spec.is_head_at (filter (fun v => lineId v =? lineId h) (Store.versions s))
                         (BlockRow.timestamp this) h.
Proof.
  split.
  - intro H. split; [eapply getHeads_In, H|]. apply getHeads_head_at, H.
  - intros (H1 & H2 & H3). apply getHeads_complete; assumption.
Qed.

(** What a block claims depends on its id, its file and on the lines and
    their relation to the blocks. *)
Lemma on_file_block_line_ext (s s' : Store.t) (this this' : BlockRow.t) (v : Version) :
  Store.lines s' = Store.lines s -> Store.blockLines s' = Store.blockLines s ->
  BlockRow.id this' = BlockRow.id this -> BlockRow.fileId this' = BlockRow.fileId this ->
  BlockProxy.on_file_block_line s' this' v = BlockProxy.on_file_block_line s this v.
Proof.
  intros Hl Hb Hi Hf.
  unfold BlockProxy.on_file_block_line, BlockProxy.line_in_file_block, BlockProxy.line_in_block,
    Store.line_of, Store.connected.
  rewrite Hl, Hb, Hi, Hf. reflexivity.
Qed.

Lemma line_in_file_block_ext (s s' : Store.t) (this this' : BlockRow.t) (l : LineRow.t) :
  Store.blockLines s' = Store.blockLines s ->
  BlockRow.id this' = BlockRow.id this -> BlockRow.fileId this' = BlockRow.fileId this ->
  BlockProxy.line_in_file_block s' this' l = BlockProxy.line_in_file_block s this l.
Proof.
  intros Hb Hi Hf.
  unfold BlockProxy.line_in_file_block, BlockProxy.line_in_block, Store.connected.
  rewrite Hb, Hi, Hf. reflexivity.
Qed.

(** Reading a block back after its timestamp was written. *)
Lemma block_of_setTimestamp (s : Store.t) (this : BlockRow.t) (t bid : Z) :
  Store.block_of (BlockProxy.setTimestamp s this t) bid
  = if bid =? BlockRow.id this
    then option_map (fun b => BlockRow.setTimestamp b t) (Store.block_of s bid)
    else Store.block_of s bid.
Proof.
  unfold Store.block_of, BlockProxy.setTimestamp. simpl.
  induction (Store.blocks s) as [|b bs IH]; simpl.
  - destruct (bid =? BlockRow.id this); reflexivity.
  - destruct (BlockRow.id b =? BlockRow.id this) eqn:E1; simpl.
    + destruct (BlockRow.id b =? bid) eqn:E2.
      * apply Z.eqb_eq in E1, E2. replace (bid =? BlockRow.id this) with true
          by (symmetry; apply Z.eqb_eq; congruence). reflexivity.
      * exact IH.
    + destruct (BlockRow.id b =? bid) eqn:E2.
      * apply Z.eqb_neq in E1. apply Z.eqb_eq in E2.
        replace (bid =? BlockRow.id this) with false
          by (symmetry; apply Z.eqb_neq; congruence). reflexivity.
      * exact IH.
Qed.

Lemma reload_setTimestamp (s : Store.t) (this : BlockRow.t) (t : Z) :
  Store.block_of s (BlockRow.id this) = Some this ->
  BlockProxy.reload (BlockProxy.setTimestamp s this t) this = BlockRow.setTimestamp this t.
Proof.
  intro H. unfold BlockProxy.reload. rewrite block_of_setTimestamp, Z.eqb_refl, H. reflexivity.
Qed.

Lemma In_combine_seq {A} (l : list A) (x : A) (n0 : nat) :
  In x l -> exists n, In (x, n) (combine l (seq n0 (List.length l))).
Proof.
  revert n0. induction l as [|a l IH]; simpl; intros n0 H; [destruct H|].
  destruct H as [<- | H].
  - exists n0. left; reflexivity.
  - destruct (IH (S n0) H) as [n Hn]. exists n. right; exact Hn.
Qed.

Section Cloning.
Variable s : Store.t.
Variable this : BlockRow.t.

Lemma cloneOutdatedHeads_nothing :
  headsToClone s this = [] -> BlockProxy.cloneOutdatedHeads s this = s.
Proof.
  unfold headsToClone, outdated, BlockProxy.cloneOutdatedHeads. intros ->. reflexivity.
Qed.

Lemma cloneOutdatedHeads_something :
  headsToClone s this <> [] ->
  BlockProxy.cloneOutdatedHeads s this
  = BlockProxy.setTimestamp
      (Store.with_clock (Store.with_versions s (Store.versions s ++ clones s this))
                        (Store.clock s + 1))
      this (Store.clock s + 1).
Proof.
  unfold clones, headsToClone, outdated, BlockProxy.cloneOutdatedHeads. intro H.
  destruct (filter _ (BlockProxy.getHeads s this)) eqn:E; [congruence|]. reflexivity.
Qed.

Lemma clones_In (c : Version) :
  In c (clones s this) ->
  timestamp c = Store.clock s + 1
  /\ exists h, In h (headsToClone s this) /\ lineId c = lineId h /\ isActive c = isActive h
               /\ content c = content h.
Proof.
  unfold clones. intro H. apply in_map_iff in H as ([h n] & <- & H). simpl.
  split; [reflexivity|]. exists h. apply in_combine_l in H. auto.
Qed.

Lemma clones_of (h : Version) :
  In h (headsToClone s this) ->
  exists c, In c (clones s this) /\ timestamp c = Store.clock s + 1 /\ lineId c = lineId h
            /\ isActive c = isActive h /\ content c = content h.
Proof.
  intro H. destruct (In_combine_seq (headsToClone s this) h 0%nat H) as [n Hn].
  eexists. split.
  - unfold clones. apply in_map_iff. exists (h, n). split; [reflexivity | exact Hn].
  - simpl. auto.
Qed.

(** A head is cloned when its line has a version later than the block. *)
Lemma headsToClone_iff (h : Version) :
  In h (headsToClone s this)
  <-> In h (BlockProxy.getHeads s this)
      /\ exists v, In v (Store.versions s) /\ lineId v = lineId h
                   /\ BlockRow.timestamp this < timestamp v.
Proof.
  unfold headsToClone. rewrite filter_In. split.
  - intros [Hh Hex]. split; [exact Hh|].
    apply existsb_exists in Hex as (l & Hl & Hid). apply Z.eqb_eq in Hid.
    apply filter_In in Hl as [_ Hl]. unfold outdated in Hl.
    apply andb_true_iff in Hl as [_ Hl]. apply existsb_exists in Hl as (v & Hv & Hc).
    apply andb_true_iff in Hc as [Hc1 Hc2]. apply Z.eqb_eq in Hc1. apply Z.ltb_lt in Hc2.
    exists v. repeat split; auto. congruence.
  - intros [Hh (v & Hv & Hvl & Hvt)]. split; [exact Hh|].
    destruct (getHeads_head_at s this h Hh) as (Hon & _).
    unfold BlockProxy.on_file_block_line in Hon.
    destruct (Store.line_of s (lineId h)) as [l|] eqn:El; [|discriminate].
    unfold Store.line_of in El. apply find_some in El as [Hl Hid]. apply Z.eqb_eq in Hid.
    apply existsb_exists. exists l. split; [|apply Z.eqb_eq, Hid].
    apply filter_In. split; [exact Hl|]. unfold outdated. rewrite Hon. simpl.
    apply existsb_exists. exists v. split; [exact Hv|].
    apply andb_true_iff. split; [apply Z.eqb_eq; congruence | apply Z.ltb_lt, Hvt].
Qed.

End Cloning.

(** A block none of whose lines has a version later than its timestamp has
    no outdated heads: nothing is cloned. *)
Lemma cloneOutdatedHeads_up_to_date (s : Store.t) (this : BlockRow.t) :
  (forall h v, In h (BlockProxy.getHeads s this) -> In v (Store.versions s) ->
               lineId v = lineId h -> timestamp v <= BlockRow.timestamp this) ->
  BlockProxy.cloneOutdatedHeads s this = s.
Proof.
  intro H. apply cloneOutdatedHeads_nothing.
  destruct (headsToClone s this) as [|h r] eqn:E; [reflexivity|]. exfalso.
  assert (Hh : In h (headsToClone s this)) by (rewrite E; left; reflexivity).
  apply headsToClone_iff in Hh as (Hh & v & Hv & Hl & Ht).
  specialize (H h v Hh Hv Hl). lia.
Qed.

Section Cloned.
Variable s : Store.t.
Variable this : BlockRow.t.
Hypothesis Hrow : Store.block_of s (BlockRow.id this) = Some this.
Hypothesis Hclock : forall v, In v (Store.versions s) -> timestamp v <= Store.clock s.
Hypothesis Hsome : headsToClone s this <> [].

Local Abbreviation s' := (BlockProxy.cloneOutdatedHeads s this).
Local Abbreviation this' := (BlockProxy.reload s' this).
Local Abbreviation T' := (Store.clock s + 1).

Lemma cloned_versions : Store.versions s' = (Store.versions s ++ clones s this)%list.
Proof. rewrite cloneOutdatedHeads_something by exact Hsome. reflexivity. Qed.

Lemma cloned_this : this' = BlockRow.setTimestamp this T'.
Proof.
  rewrite cloneOutdatedHeads_something by exact Hsome.
  apply reload_setTimestamp.
  exact Hrow.
Qed.

Lemma cloned_on (v : Version) :
  BlockProxy.on_file_block_line s' this' v = BlockProxy.on_file_block_line s this v.
Proof.
  apply on_file_block_line_ext; try (rewrite cloned_this; reflexivity);
    rewrite cloneOutdatedHeads_something by exact Hsome; reflexivity.
Qed.

Lemma cloned_timestamp : BlockRow.timestamp this' = T'.
Proof. rewrite cloned_this. reflexivity. Qed.

Lemma cloned_all_born (v : Version) : In v (Store.versions s') -> timestamp v <= T'.
Proof.
  rewrite cloned_versions. intro H. apply in_app_or in H as [H | H].
  - apply Hclock in H. lia.
  - apply clones_In in H as [H _]. lia.
Qed.

End Cloned.

(** X4 -- [cloneOutdatedHeads] is idempotent.  For a proxy in step with its
    row and a store without a timestamp later than the last one handed out,
    the block has no outdated head once its heads are cloned: a second call,
    on the block read back, writes nothing. *)
Theorem cloneOutdatedHeads_twice (s : Store.t) (this : BlockRow.t) :
  Store.block_of s (BlockRow.id this) = Some this ->
  (forall v, In v (Store.versions s) -> timestamp v <= Store.clock s) ->
  BlockProxy.cloneOutdatedHeads
    (BlockProxy.cloneOutdatedHeads s this)
    (BlockProxy.reload (BlockProxy.cloneOutdatedHeads s this) this)
  = BlockProxy.cloneOutdatedHeads s this.
Proof.
  intros Hrow Hclock.
  destruct (headsToClone s this) as [|h0 r0] eqn:E.
  - rewrite (cloneOutdatedHeads_nothing s this E).
    unfold BlockProxy.reload. rewrite Hrow. apply cloneOutdatedHeads_nothing, E.
  - assert (Hsome : headsToClone s this <> []) by congruence.
    apply cloneOutdatedHeads_up_to_date. intros h v _ Hv _.
    rewrite (cloned_timestamp s this Hrow Hsome).
    apply (cloned_all_born s this Hclock Hsome), Hv.
Qed.

Lemma cloneOutdatedHeads_twice_witness :
  let s := snd (BlockProxy.applyIndex afterEdit (proxy afterEdit 1) 0) in
  BlockProxy.cloneOutdatedHeads s (proxy s 1) <> s
  /\ BlockProxy.cloneOutdatedHeads
       (BlockProxy.cloneOutdatedHeads s (proxy s 1))
       (BlockProxy.reload (BlockProxy.cloneOutdatedHeads s (proxy s 1)) (proxy s 1))
     = BlockProxy.cloneOutdatedHeads s (proxy s 1).
Proof.
  cbv zeta. split.
  - intro H. apply (f_equal Store.clock) in H. vm_compute in H. discriminate H.
  - apply cloneOutdatedHeads_twice.
    + vm_compute. reflexivity.
    + intros v Hv. vm_compute in Hv.
      repeat (destruct Hv as [<- | Hv]; [vm_compute; discriminate|]). destruct Hv.
Defined.

(** X5 -- [cloneOutdatedHeads] brings the block to the front of the history
    without changing what it shows.  For a proxy in step with its row and a
    store without a timestamp later than the last one handed out: line by
    line, the heads after the call have the activity and the content of the
    heads before it, and every head after the call comes from a head before
    it. *)
Theorem cloneOutdatedHeads_keeps_what_the_lines_show (s : Store.t) (this : BlockRow.t) :
  Store.block_of s (BlockRow.id this) = Some this ->
  (forall v, In v (Store.versions s) -> timestamp v <= Store.clock s) ->
  let s' := BlockProxy.cloneOutdatedHeads s this in
  let this' := BlockProxy.reload s' this in
  (forall h, In h (BlockProxy.getHeads s this) ->
             exists h', In h' (BlockProxy.getHeads s' this')
                        /\ lineId h' = lineId h /\ isActive h' = isActive h
                        /\ content h' = content h)
  /\ (forall h', In h' (BlockProxy.getHeads s' this') ->
                 exists h, In h (BlockProxy.getHeads s this)
                           /\ lineId h' = lineId h /\ isActive h' = isActive h
                           /\ content h' = content h).
Proof.
  intros Hrow Hclock. cbv zeta.
  destruct (headsToClone s this) as [|h0 r0] eqn:E.
  { rewrite (cloneOutdatedHeads_nothing s this E).
    unfold BlockProxy.reload. rewrite Hrow. split; intros h Hh; exists h; auto. }
  assert (Hsome : headsToClone s this <> []) by congruence. clear E h0 r0.
  pose proof (cloned_versions s this Hsome) as Hvs.
  pose proof (cloned_on s this Hrow Hsome) as Hon.
  pose proof (cloned_timestamp s this Hrow Hsome) as HT.
  pose proof (cloned_all_born s this Hclock Hsome) as Hborn.
  set (s' := BlockProxy.cloneOutdatedHeads s this) in *.
  set (this' := BlockProxy.reload s' this) in *.
  set (T := BlockRow.timestamp this).
  (* a cloned line has its clone in the lead *)
  assert (Hclone_head : forall c, In c (clones s this) ->
            BlockProxy.on_file_block_line s this c = true ->
            In c (BlockProxy.getHeads s' this')).
  { intros c Hc Hcon. apply getHeads_iff. rewrite Hvs, Hon, HT. split; [|split].
    - apply in_or_app. right. exact Hc.
    - exact Hcon.
    - split.
      + apply filter_In. split; [apply in_or_app; right; exact Hc | apply Z.eqb_refl].
      + left. apply clones_In in Hc as [Hct _]. split; [lia|].
        intros v Hv _. apply filter_In in Hv as [Hv _]. rewrite <- Hvs in Hv.
        apply Hborn in Hv. lia. }
  split.
  - intros h Hh.
    destruct (getHeads_head_at s this h Hh) as (Hhon & Hhin & Hhead).
    destruct (existsb (fun v => (lineId v =? lineId h) && (T <? timestamp v)) (Store.versions s))
      eqn:Eout.
    + (* the head is cloned *)
      apply existsb_exists in Eout as (v & Hv & Hc). apply andb_true_iff in Hc as [Hc1 Hc2].
      apply Z.eqb_eq in Hc1. apply Z.ltb_lt in Hc2.
      assert (Hclone : In h (headsToClone s this)) by (apply headsToClone_iff; eauto).
      destruct (clones_of s this h Hclone) as (c & Hc & Hct & Hcl & Hca & Hcc).
      exists c. repeat split; auto. apply Hclone_head; [exact Hc|].
      rewrite (on_file_block_line_same_line s this c h); auto.
    + (* the head stays *)
      assert (Hnone : forall v, In v (Store.versions s) -> lineId v = lineId h ->
                                timestamp v <= T).
      { intros v Hv Hl. destruct (Z.le_gt_cases (timestamp v) T) as [|Hgt]; [assumption|].
        exfalso.
        assert (Et : existsb (fun v => (lineId v =? lineId h) && (T <? timestamp v))
                             (Store.versions s) = true).
        { apply existsb_exists. exists v. split; [exact Hv|].
          apply andb_true_iff. split; [apply Z.eqb_eq, Hl | apply Z.ltb_lt; lia]. }
        congruence. }
      exists h. repeat split; auto.
      apply getHeads_iff. rewrite Hvs, Hon, HT. split; [|split].
      * apply in_or_app. left. eapply getHeads_In, Hh.
      * exact Hhon.
      * split.
        -- apply filter_In. split; [apply in_or_app; left; eapply getHeads_In, Hh
                                   | apply Z.eqb_refl].
        -- left. split.
           ++ pose proof (Hclock h (getHeads_In s this h Hh)). lia.
           ++ intros v Hv _. apply filter_In in Hv as [Hv Hl]. apply Z.eqb_eq in Hl.
              apply in_app_or in Hv as [Hv | Hv].
              ** destruct Hhead as [[Hle Hmax] | [Hlate _]].
                 --- apply Hmax; [apply filter_In; split; [exact Hv | apply Z.eqb_eq, Hl]|].
                     apply Hnone; assumption.
                 --- specialize (Hlate h Hhin).
                     pose proof (Hnone h (getHeads_In s this h Hh) eq_refl). lia.
              ** exfalso. apply clones_In in Hv as (_ & h1 & Hh1 & Hl1 & _).
                 apply headsToClone_iff in Hh1 as (_ & w & Hw & Hwl & Hwt).
                 pose proof (Hnone w Hw ltac:(congruence)). unfold T in *. lia.
  - intros h' Hh'.
    pose proof Hh' as Hiff. apply getHeads_iff in Hiff as (Hin & Hhon & Hhead).
    rewrite Hvs in Hin. rewrite Hon in Hhon. rewrite HT in Hhead.
    apply in_app_or in Hin as [Hin | Hin].
    + (* an old version that is still a head *)
      exists h'. repeat split; auto.
      destruct Hhead as (Hhin & [[Hle Hmax] | [Hlate _]]).
      2:{ specialize (Hlate h' Hhin). apply Hclock in Hin. lia. }
      assert (Hnone : forall v, In v (Store.versions s) -> lineId v = lineId h' ->
                                timestamp v <= T).
      { intros v Hv Hl. destruct (Z.le_gt_cases (timestamp v) T) as [|Hgt]; [assumption|].
        exfalso.
        destruct (getHeads_covers s this h' Hin Hhon) as (h0 & Hh0 & Hl0).
        assert (Hclone : In h0 (headsToClone s this)).
        { apply headsToClone_iff. split; [exact Hh0|]. exists v. repeat split; auto.
          congruence. }
        destruct (clones_of s this h0 Hclone) as (c & Hc & Hct & Hcl & _).
        assert (timestamp c <= timestamp h').
        { apply Hmax; [|lia]. apply filter_In. rewrite Hvs. split.
          - apply in_or_app. right. exact Hc.
          - apply Z.eqb_eq. congruence. }
        apply Hclock in Hin. lia. }
      apply getHeads_iff. split; [exact Hin|]. split; [exact Hhon|]. split.
      * apply filter_In. split; [exact Hin | apply Z.eqb_refl].
      * left. split; [apply Hnone; auto|].
        intros v Hv _. apply filter_In in Hv as [Hv Hl]. apply Hmax; [|apply Hborn].
        -- apply filter_In. rewrite Hvs. split; [apply in_or_app; left; exact Hv | exact Hl].
        -- rewrite Hvs. apply in_or_app. left. exact Hv.
    + (* a clone *)
      apply clones_In in Hin as (_ & h & Hh & Hl & Ha & Hc).
      apply headsToClone_iff in Hh as [Hh _]. exists h. auto.
Qed.

Lemma cloneOutdatedHeads_keeps_what_the_lines_show_witness :
  let s := scrubbedEdit in
  let s' := BlockProxy.cloneOutdatedHeads s (proxy s 1) in
  BlockProxy.getHeads s (proxy s 1) <> BlockProxy.getHeads s' (BlockProxy.reload s' (proxy s 1))
  /\ (forall h, In h (BlockProxy.getHeads s (proxy s 1)) ->
                exists h', In h' (BlockProxy.getHeads s' (BlockProxy.reload s' (proxy s 1)))
                           /\ lineId h' = lineId h /\ isActive h' = isActive h
                           /\ content h' = content h).
Proof.
  cbv zeta. split.
  - vm_compute. discriminate.
  - apply (cloneOutdatedHeads_keeps_what_the_lines_show scrubbedEdit (proxy scrubbedEdit 1)).
    + vm_compute. reflexivity.
    + intros v Hv. vm_compute in Hv.
      repeat (destruct Hv as [<- | Hv]; [vm_compute; discriminate|]). destruct Hv.
Defined.

(* ================================================================== *)
(** ** Scrubbing the persisted block, and what it reports *)
(* ================================================================== *)

(** The timeline of a block does not depend on the timestamp of the block. *)
Lemma getTimeline_ext (s s' : Store.t) (this this' : BlockRow.t) :
  Store.versions s' = Store.versions s ->
  Store.lines s' = Store.lines s -> Store.blockLines s' = Store.blockLines s ->
  BlockRow.id this' = BlockRow.id this -> BlockRow.fileId this' = BlockRow.fileId this ->
  BlockProxy.getTimeline s' this' = BlockProxy.getTimeline s this.
Proof.
  intros Hv Hl Hb Hi Hf.
  unfold BlockProxy.getTimeline, BlockProxy.getLastImportedVersion. rewrite Hv.
  assert (Hon : forall v, BlockProxy.on_file_block_line s' this' v
                          = BlockProxy.on_file_block_line s this v)
    by (intro v; apply on_file_block_line_ext; assumption).
  assert (E : filter (fun v => BlockProxy.on_file_block_line s' this' v
                               && VersionType_eqb (type v) IMPORTED) (Store.versions s)
              = filter (fun v => BlockProxy.on_file_block_line s this v
                                 && VersionType_eqb (type v) IMPORTED) (Store.versions s))
    by (apply filter_ext; intro v; rewrite Hon; reflexivity).
  rewrite E. f_equal. apply filter_ext. intro v. rewrite Hon. reflexivity.
Qed.

Lemma setTimestamp_setTimestamp (s : Store.t) (this this' : BlockRow.t) (t1 t2 : Z) :
  BlockRow.id this' = BlockRow.id this ->
  BlockProxy.setTimestamp (BlockProxy.setTimestamp s this t1) this' t2
  = BlockProxy.setTimestamp s this t2.
Proof.
  intro Hi. unfold BlockProxy.setTimestamp. simpl. rewrite Hi, map_map.
  unfold Store.with_blocks. simpl. f_equal. apply map_ext. intro b.
  destruct (BlockRow.id b =? BlockRow.id this) eqn:E; simpl; rewrite E; reflexivity.
Qed.

(** X6 -- Scrubbing composes, the last [applyIndex] wins.  For a proxy in
    step with its row, [applyIndex(i)] puts the block at the timestamp of
    entry [i] of its timeline and leaves the timeline as it is, so that
    [applyIndex(j)] after it ends in the store that [applyIndex(j)] alone
    produces. *)
Theorem applyIndex_last_scrub_wins (s : Store.t) (this : BlockRow.t) (i j : Z)
        (vi vj : Version) :
  Store.block_of s (BlockRow.id this) = Some this ->
  at_index (BlockProxy.getTimeline s this) i = Some vi ->
  at_index (BlockProxy.getTimeline s this) j = Some vj ->
  let s1 := snd (BlockProxy.applyIndex s this i) in
  let this1 := BlockProxy.reload s1 this in
  BlockRow.timestamp this1 = timestamp vi
  /\ BlockProxy.getTimeline s1 this1 = BlockProxy.getTimeline s this
  /\ BlockProxy.applyIndex s1 this1 j = (Ok tt, snd (BlockProxy.applyIndex s this j)).
Proof.
  intros Hrow Hi Hj. cbv zeta.
  assert (Hin : forall k v, at_index (BlockProxy.getTimeline s this) k = Some v ->
                            BlockProxy.applyIndex s this k
                            = (Ok tt, BlockProxy.setTimestamp s this (timestamp v))).
  { intros k v Hk. pose proof (at_index_Some _ _ _ Hk) as Hr.
    unfold BlockProxy.applyIndex.
    replace ((k <? 0) || (zlength (BlockProxy.getTimeline s this) <=? k)) with false
      by (symmetry; apply orb_false_iff; split; [apply Z.ltb_ge | apply Z.leb_gt]; lia).
    rewrite Hk. reflexivity. }
  rewrite (Hin i vi Hi), (Hin j vj Hj). cbn [snd].
  rewrite (reload_setTimestamp s this (timestamp vi) Hrow).
  assert (Ht : BlockProxy.getTimeline (BlockProxy.setTimestamp s this (timestamp vi))
                                      (BlockRow.setTimestamp this (timestamp vi))
               = BlockProxy.getTimeline s this)
    by (apply getTimeline_ext; reflexivity).
  split; [reflexivity|]. split; [exact Ht|].
  unfold BlockProxy.applyIndex. rewrite Ht.
  pose proof (at_index_Some _ _ _ Hj) as Hr.
  replace ((j <? 0) || (zlength (BlockProxy.getTimeline s this) <=? j)) with false
    by (symmetry; apply orb_false_iff; split; [apply Z.ltb_ge | apply Z.leb_gt]; lia).
  rewrite Hj. unfold BlockProxy.applyTimestamp.
  rewrite setTimestamp_setTimestamp by reflexivity. reflexivity.
Qed.

Lemma applyIndex_last_scrub_wins_witness :
  let s1 := snd (BlockProxy.applyIndex afterInsert (proxy afterInsert 1) 0) in
  let this1 := BlockProxy.reload s1 (proxy afterInsert 1) in
  BlockRow.timestamp this1 = 3
  /\ BlockProxy.getTimeline s1 this1 = BlockProxy.getTimeline afterInsert (proxy afterInsert 1)
  /\ BlockProxy.applyIndex s1 this1 2
     = (Ok tt, snd (BlockProxy.applyIndex afterInsert (proxy afterInsert 1) 2)).
Proof.
  apply (applyIndex_last_scrub_wins afterInsert (proxy afterInsert 1) 0 2
           (imported 3 3 3 "z") (mkVersion 5 4 5 INSERTION true "new" (Some 1) None));
    vm_compute; reflexivity.
Defined.

(** X7 -- The range that [asBlockInfo] reports: whenever it answers, the
    start line is at least 1 and at most the end line, the range has as many
    lines as the block has active lines, and a block without a parent starts
    at line 1. *)
Theorem asBlockInfo_range (s : Store.t) (this : BlockRow.t) (info : VCSBlockInfo.t) :
  BlockProxy.asBlockInfo s this = Ok info ->
  1 <= VCSBlockInfo.startLine info <= VCSBlockInfo.endLine info
  /\ VCSBlockInfo.endLine info - VCSBlockInfo.startLine info + 1
     = BlockProxy.getActiveLineCount s this
  /\ (BlockRow.parentId this = None -> VCSBlockInfo.startLine info = 1).
Proof.
  unfold BlockProxy.asBlockInfo.
  destruct (hd_error (sort_by line_order_asc _)) as [firstLine|]; simpl; [|discriminate].
  destruct (BlockProxy.getCurrentVersion s this) as [cv|]; simpl; [|discriminate].
  destruct (BlockProxy.getActiveLineCount s this =? 0) eqn:E0; [discriminate|].
  apply Z.eqb_neq in E0.
  assert (Hpos : 0 <= BlockProxy.getActiveLineCount s this)
    by (unfold BlockProxy.getActiveLineCount; apply zlength_nonneg).
  destruct (BlockRow.parentId this) as [pid|].
  - destruct (Store.block_of s pid) as [parent|]; simpl; [|discriminate].
    match goal with
    | |- context [filter ?f (Store.versions s)] => 
        pose proof (zlength_nonneg (filter f (Store.versions s))) as Hb
    end.
    intro H. injection H as <-. simpl.
    match type of Hb with 0 <= ?n => set (before := n) in * end.
    repeat split; try lia. discriminate.
  - simpl. intro H. injection H as <-. simpl. repeat split; lia.
Qed.

Lemma asBlockInfo_range_witness :
  exists info, BlockProxy.asBlockInfo withChild (proxy withChild 2) = Ok info
               /\ VCSBlockInfo.startLine info = 2 /\ VCSBlockInfo.endLine info = 3
               /\ VCSBlockInfo.endLine info - VCSBlockInfo.startLine info + 1
                  = BlockProxy.getActiveLineCount withChild (proxy withChild 2).
Proof.
  destruct (BlockProxy.asBlockInfo withChild (proxy withChild 2)) as [info|] eqn:E;
    [|vm_compute in E; discriminate E].
  exists info. split; [reflexivity|].
  destruct (asBlockInfo_range withChild (proxy withChild 2) info E) as (_ & H & _).
  split; [|split; [|exact H]]; vm_compute in E; injection E as <-; reflexivity.
Defined.

(* ================================================================== *)
(** ** The timeline of [DBBlock] and its index *)
(* ================================================================== *)

Lemma at_index_cons {A} (a : A) (l : list A) (i : Z) :
  1 <= i -> at_index (a :: l) i = at_index l (i - 1).
Proof.
  intro H. unfold at_index.
  destruct (i <? 0) eqn:E1; [apply Z.ltb_lt in E1; lia|].
  destruct (i - 1 <? 0) eqn:E2; [apply Z.ltb_lt in E2; lia|].
  replace (Z.to_nat i) with (S (Z.to_nat (i - 1))) by lia. reflexivity.
Qed.

Lemma filter_nil {A} (f : A -> bool) (l : list A) :
  (forall x, In x l -> f x = false) -> filter f l = [].
Proof.
  induction l as [|a l IH]; simpl; intro H; [reflexivity|].
  rewrite (H a (or_introl eq_refl)). apply IH. intros x Hx. apply H. right. exact Hx.
Qed.

(** In an array that ascends strictly in the timestamp, the entries not later
    than an entry end with that entry. *)
Lemma count_not_later (tl : list Version) (v : Version) :
  StronglySorted (fun a b => timestamp a < timestamp b) tl ->
  In v tl ->
  at_index tl (zlength (filter (fun x => timestamp x <=? timestamp v) tl) - 1) = Some v.
Proof.
  induction 1 as [|a r Hs IH Ha]; intro Hv; [destruct Hv|].
  rewrite Forall_forall in Ha. cbn [filter].
  destruct Hv as [-> | Hv].
  - rewrite Z.leb_refl.
    replace (filter (fun x => timestamp x <=? timestamp v) r) with (@nil Version).
    + reflexivity.
    + symmetry. apply filter_nil. intros x Hx. apply Z.leb_gt. apply Ha, Hx.
  - specialize (Ha v Hv) as Hlt.
    replace (timestamp a <=? timestamp v) with true by (symmetry; apply Z.leb_le; lia).
    assert (Hk : 1 <= zlength (filter (fun x => timestamp x <=? timestamp v) r)).
    { assert (Hin : In v (filter (fun x => timestamp x <=? timestamp v) r))
        by (apply filter_In; split; [exact Hv | apply Z.leb_refl]).
      unfold zlength. destruct (filter _ r); [destruct Hin | simpl; lia]. }
    unfold zlength in *. cbn [List.length].
    rewrite at_index_cons by lia.
    replace (Z.of_nat (S (List.length (filter (fun x => timestamp x <=? timestamp v) r))) - 1 - 1)
      with (Z.of_nat (List.length (filter (fun x => timestamp x <=? timestamp v) r)) - 1) by lia.
    apply IH, Hv.
Qed.

(** X8 -- [DBBlock.getTimelineIndexFor] finds a version where
    [DBBlock.getTimeline] has put it: in a timeline of pairwise different
    timestamps, the entry at the index computed for a version of the timeline
    is this version. *)
Theorem DBBlock_getTimelineIndexFor_getTimeline (s : Store.t) (this : BlockRow.t) (v : Version) :
  NoDup (map timestamp (DBBlock.getTimeline s this)) ->
  In v (DBBlock.getTimeline s this) ->
  at_index (DBBlock.getTimeline s this) (DBBlock.getTimelineIndexFor s this v) = Some v.
Proof.
  intros Hnd Hv. unfold DBBlock.getTimelineIndexFor.
  set (P := fun v => BlockProxy.on_block_line s this v
                     && negb (VersionType_eqb (type v) IMPORTED
                              || VersionType_eqb (type v) INSERTION)).
  assert (E : zlength (filter (fun x => P x && (timestamp x <=? timestamp v)) (Store.versions s))
              = zlength (filter (fun x => timestamp x <=? timestamp v)
                                (DBBlock.getTimeline s this))).
  { unfold DBBlock.getTimeline. fold P.
    rewrite (filter_sort_by _ timestamp_asc_total timestamp_asc_trans).
    unfold zlength. rewrite sort_by_length, filter_andb. reflexivity. }
  unfold P in E. rewrite E. apply count_not_later; [|exact Hv].
  apply sorted_strict; [|exact Hnd].
  apply (sort_by_sorted timestamp_asc timestamp_asc_total timestamp_asc_trans).
Qed.

Lemma DBBlock_getTimelineIndexFor_getTimeline_witness :
  at_index (DBBlock.getTimeline afterEdit (proxy afterEdit 1))
           (DBBlock.getTimelineIndexFor afterEdit (proxy afterEdit 1)
              (mkVersion 4 2 4 CHANGE true "Y" (Some 1) None))
  = Some (mkVersion 4 2 4 CHANGE true "Y" (Some 1) None).
Proof.
  apply DBBlock_getTimelineIndexFor_getTimeline.
  - vm_compute.
    repeat (constructor;
            [ simpl; intro H; repeat (destruct H as [H | H]; [discriminate H|]); exact H | ]).
    constructor.
  - vm_compute. auto.
Defined.

Lemma applyIndex_Ok_iff (s : Store.t) (this : BlockRow.t) (i : Z) :
  (exists s', BlockProxy.applyIndex s this i = (Ok tt, s'))
  <-> 0 <= i < zlength (BlockProxy.getTimeline s this).
Proof.
  unfold BlockProxy.applyIndex. split.
  - intros [s' H].
    destruct ((i <? 0) || (zlength (BlockProxy.getTimeline s this) <=? i)) eqn:E;
      [discriminate|].
    apply orb_false_iff in E as [E1 E2]. apply Z.ltb_ge in E1. apply Z.leb_gt in E2. lia.
  - intro Hr.
    replace ((i <? 0) || (zlength (BlockProxy.getTimeline s this) <=? i)) with false
      by (symmetry; apply orb_false_iff; split; [apply Z.ltb_ge | apply Z.leb_gt]; lia).
    destruct (at_index_in_range _ _ Hr) as [v ->]. eauto.
Qed.

(** X9 -- The version count that [asBlockInfo] reports is the number of
    indices that [applyIndex] accepts.  For a block whose lines lie in its
    file, with pairwise different timestamps on them and no import later than
    an edit, [userVersionCount] is the length of the timeline, and
    [applyIndex(i)] succeeds exactly for [0 <= i < userVersionCount]. *)
Theorem applyIndex_accepts_the_reported_versions
        (s : Store.t) (this : BlockRow.t) (info : VCSBlockInfo.t) :
  (forall l, In l (Store.lines s) -> BlockProxy.line_in_block s this l = true ->
             LineRow.fileId l = BlockRow.fileId this) ->
  NoDup (map timestamp (filter (BlockProxy.on_file_block_line s this) (Store.versions s))) ->
  (forall i v,
      In i (Store.versions s) -> BlockProxy.on_file_block_line s this i = true ->
      In v (Store.versions s) -> BlockProxy.on_file_block_line s this v = true ->
      type i = IMPORTED -> type v <> IMPORTED -> type v <> CLONE ->
      timestamp i <= timestamp v) ->
  BlockProxy.asBlockInfo s this = Ok info ->
  VCSBlockInfo.userVersionCount info = zlength (BlockProxy.getTimeline s this)
  /\ forall i, (exists s', BlockProxy.applyIndex s this i = (Ok tt, s'))
               <-> 0 <= i < VCSBlockInfo.userVersionCount info.
Proof.
  intros Hfile Hnd Himp Hinfo.
  assert (Hcount : VCSBlockInfo.userVersionCount info = zlength (BlockProxy.getTimeline s this)).
  2:{ split; [exact Hcount|]. intro i. rewrite Hcount. apply applyIndex_Ok_iff. }
  set (on := BlockProxy.on_file_block_line s this) in *.
  assert (Hon : forall v, BlockProxy.on_block_line s this v = on v).
  { intro v. unfold on, BlockProxy.on_file_block_line, BlockProxy.on_block_line,
      BlockProxy.line_in_file_block.
    destruct (Store.line_of s (lineId v)) as [l|] eqn:E; [|reflexivity].
    destruct (BlockProxy.line_in_block s this l) eqn:Hb; [|rewrite andb_false_r; reflexivity].
    rewrite andb_true_r. symmetry. apply Z.eqb_eq. apply Hfile; [|exact Hb].
    eapply line_of_In, E. }
  set (imp := fun v : Version => VersionType_eqb (type v) IMPORTED).
  set (cln := fun v : Version => VersionType_eqb (type v) CLONE).
  set (vs := Store.versions s) in *.
  set (N := filter (fun v => on v && negb (cln v)) vs).
  set (I := filter (fun v => on v && imp v) vs).
  set (E := filter (fun v => on v && negb (imp v || cln v)) vs).
  assert (HNIE : zlength N = zlength I + zlength E).
  { pose proof (zlength_filter_split imp N) as H.
    assert (E1 : filter (fun x => negb (imp x)) N = E).
    { unfold N, E. rewrite filter_andb. apply filter_ext. intro v.
      destruct (on v), (imp v), (cln v); reflexivity. }
    assert (E2 : filter imp N = I).
    { unfold N, I. rewrite filter_andb. apply filter_ext. intro v. unfold imp, cln.
      destruct (on v), (type v); reflexivity. }
    rewrite E1, E2 in H. lia. }
  assert (Huvc : VCSBlockInfo.userVersionCount info
                 = zlength N - zlength I
                   + match BlockProxy.getLastImportedVersion s this with
                     | Some _ => 1
                     | None => 0
                     end).
  { revert Hinfo. unfold BlockProxy.asBlockInfo.
    destruct (hd_error (sort_by line_order_asc _)) as [firstLine|]; simpl; [|discriminate].
    destruct (BlockProxy.getCurrentVersion s this) as [cv|]; simpl; [|discriminate].
    destruct (BlockProxy.getActiveLineCount s this =? 0); [discriminate|].
    assert (EN : BlockProxy.getVersionCount s this = zlength N).
    { unfold BlockProxy.getVersionCount, N. f_equal. apply filter_ext. intro v.
      rewrite Hon. reflexivity. }
    assert (EI : BlockProxy.getOriginalLineCount s this = zlength I).
    { unfold BlockProxy.getOriginalLineCount, I. f_equal. apply filter_ext. intro v.
      rewrite Hon. reflexivity. }
    rewrite EN, EI.
    destruct (match BlockRow.parentId this with
              | Some parentId => _
              | None => _
              end) as [range|]; simpl; [|discriminate].
    intro H. injection H as <-. reflexivity. }
  rewrite Huvc. clear Huvc Hinfo.
  assert (HndV : NoDup (filter on vs)) by (eapply NoDup_of_map, Hnd).
  unfold BlockProxy.getTimeline, BlockProxy.getLastImportedVersion.
  fold on vs. change (fun v => on v && VersionType_eqb (type v) IMPORTED)
    with (fun v => on v && imp v). fold I.
  destruct (hd_error (sort_by timestamp_desc I)) as [l|] eqn:EL.
  - apply latest_first in EL as [Hl Hmax].
    pose proof Hl as Hl'. apply filter_In in Hl' as [Hlin Hlc].
    apply andb_true_iff in Hlc as [Hlon Hlimp].
    assert (Hperm : Permutation
                      (sort_by timestamp_asc
                         (filter (fun v => on v && negb (VersionType_eqb (type v) CLONE)
                                           && (timestamp l <=? timestamp v)) vs))
                      (l :: E)).
    { apply NoDup_Permutation.
      - eapply Permutation_NoDup; [apply Permutation_sym, sort_by_perm|].
        rewrite <- (filter_andb (fun x => on x && negb (VersionType_eqb (type x) CLONE))).
        rewrite <- (filter_andb on). apply NoDup_filter, NoDup_filter, HndV.
      - constructor.
        + unfold E. intro H. apply filter_In in H as [_ H]. rewrite Hlimp in H.
          rewrite andb_false_r in H. discriminate.
        + unfold E. rewrite <- (filter_andb on). apply NoDup_filter, HndV.
      - intro x. rewrite sort_by_In. simpl. unfold E. rewrite !filter_In. split.
        + intros [Hxin Hx]. apply andb_true_iff in Hx as [Hx Hcut].
          apply andb_true_iff in Hx as [Hxon Hxc]. apply Z.leb_le in Hcut.
          fold (cln x) in Hxc.
          destruct (imp x) eqn:Ei.
          * left.
            assert (timestamp x <= timestamp l).
            { apply Hmax. apply filter_In. split; [exact Hxin|]. rewrite Hxon, Ei. reflexivity. }
            apply (NoDup_map_inj timestamp (filter on vs) l x Hnd);
              [apply filter_In; auto | apply filter_In; auto | lia].
          * right. split; [exact Hxin|]. rewrite Hxon. simpl. rewrite Hxc. reflexivity.
        + intros [<- | [Hxin Hx]].
          * split; [exact Hlin|]. rewrite Hlon. simpl.
            unfold imp in Hlimp. apply VersionType_eqb_eq in Hlimp. rewrite Hlimp. simpl.
            apply Z.leb_refl.
          * apply andb_true_iff in Hx as [Hxon Hxe]. apply negb_true_iff in Hxe.
            apply orb_false_iff in Hxe as [Hxi Hxc].
            split; [exact Hxin|]. rewrite Hxon. simpl.
            unfold cln in Hxc. rewrite Hxc. simpl. apply Z.leb_le.
            apply (Himp l x); auto.
            -- apply VersionType_eqb_eq, Hlimp.
            -- intro H. apply VersionType_eqb_eq in H. unfold imp in Hxi. congruence.
            -- intro H. apply VersionType_eqb_eq in H. congruence. }
    apply Permutation_length in Hperm. unfold zlength. rewrite Hperm. simpl.
    unfold zlength in HNIE. lia.
  - assert (HI : I = []).
    { destruct (sort_by timestamp_desc I) eqn:Es; [|discriminate].
      apply sort_by_nil in Es. exact Es. }
    unfold zlength in *. rewrite sort_by_length.
    replace (filter (fun v => on v && negb (VersionType_eqb (type v) CLONE) && true) vs) with N.
    + rewrite HI. simpl. lia.
    + unfold N. apply filter_ext. intro v. rewrite andb_true_r. reflexivity.
Qed.

Lemma applyIndex_accepts_the_reported_versions_witness :
  exists info, BlockProxy.asBlockInfo afterInsert (proxy afterInsert 1) = Ok info
               /\ VCSBlockInfo.userVersionCount info = 3
               /\ forall i, (exists s', BlockProxy.applyIndex afterInsert (proxy afterInsert 1) i
                                        = (Ok tt, s'))
                            <-> 0 <= i < VCSBlockInfo.userVersionCount info.
Proof.
  destruct (BlockProxy.asBlockInfo afterInsert (proxy afterInsert 1)) as [info|] eqn:E;
    [|vm_compute in E; discriminate E].
  exists info. split; [reflexivity|].
  destruct (applyIndex_accepts_the_reported_versions afterInsert (proxy afterInsert 1) info)
    as [_ H].
  - intros l Hl _. vm_compute in Hl.
    repeat (destruct Hl as [<- | Hl]; [reflexivity|]). destruct Hl.
  - vm_compute.
    repeat (constructor;
            [ simpl; intro H; repeat (destruct H as [H | H]; [discriminate H|]); exact H | ]).
    constructor.
  - intros i v Hi _ Hv _. vm_compute in Hi, Hv.
    repeat (destruct Hi as [<- | Hi]; [|]); try destruct Hi;
      repeat (destruct Hv as [<- | Hv]; [|]); try destruct Hv;
      simpl; intros; try discriminate; try congruence; lia.
  - exact E.
  - split; [|exact H]. vm_compute in E. injection E as <-. reflexivity.
Defined.

(** X21 -- The version index that [asBlockInfo] reports, for a block whose
    lines lie in its file: it lies between 0 and the version count reported
    with it, and below the count as soon as the block has an imported
    line. *)
Theorem asBlockInfo_version_index (s : Store.t) (this : BlockRow.t) (info : VCSBlockInfo.t) :
  (forall l, In l (Store.lines s) -> BlockProxy.line_in_block s this l = true ->
             LineRow.fileId l = BlockRow.fileId this) ->
  BlockProxy.asBlockInfo s this = Ok info ->
  0 <= VCSBlockInfo.currentVersionIndex info <= VCSBlockInfo.userVersionCount info
  /\ (BlockProxy.getLastImportedVersion s this <> None ->
      VCSBlockInfo.currentVersionIndex info < VCSBlockInfo.userVersionCount info).
Proof.
  intros Hfile Hinfo.
  set (on := BlockProxy.on_file_block_line s this) in *.
  assert (Hon : forall v, BlockProxy.on_block_line s this v = on v).
  { intro v. unfold on, BlockProxy.on_file_block_line, BlockProxy.on_block_line,
      BlockProxy.line_in_file_block.
    destruct (Store.line_of s (lineId v)) as [l|] eqn:E; [|reflexivity].
    destruct (BlockProxy.line_in_block s this l) eqn:Hb; [|rewrite andb_false_r; reflexivity].
    rewrite andb_true_r. symmetry. apply Z.eqb_eq. apply Hfile; [|exact Hb].
    eapply line_of_In, E. }
  set (imp := fun v : Version => VersionType_eqb (type v) IMPORTED).
  set (cln := fun v : Version => VersionType_eqb (type v) CLONE).
  set (vs := Store.versions s) in *.
  set (N := filter (fun v => on v && negb (cln v)) vs).
  set (I := filter (fun v => on v && imp v) vs).
  set (E := filter (fun v => on v && negb (imp v || cln v)) vs).
  assert (HNIE : zlength N = zlength I + zlength E).
  { pose proof (zlength_filter_split imp N) as H.
    assert (E1 : filter (fun x => negb (imp x)) N = E).
    { unfold N, E. rewrite filter_andb. apply filter_ext. intro v.
      destruct (on v), (imp v), (cln v); reflexivity. }
    assert (E2 : filter imp N = I).
    { unfold N, I. rewrite filter_andb. apply filter_ext. intro v. unfold imp, cln.
      destruct (on v), (type v); reflexivity. }
    rewrite E1, E2 in H. lia. }
  revert Hinfo. unfold BlockProxy.asBlockInfo.
  destruct (hd_error (sort_by line_order_asc _)) as [firstLine|]; simpl; [|discriminate].
  destruct (BlockProxy.getCurrentVersion s this) as [cv|]; simpl; [|discriminate].
  destruct (BlockProxy.getActiveLineCount s this =? 0); [discriminate|].
  assert (EN : BlockProxy.getVersionCount s this = zlength N).
  { unfold BlockProxy.getVersionCount, N. f_equal. apply filter_ext. intro v.
    rewrite Hon. reflexivity. }
  assert (EI : BlockProxy.getOriginalLineCount s this = zlength I).
  { unfold BlockProxy.getOriginalLineCount, I. f_equal. apply filter_ext. intro v.
    rewrite Hon. reflexivity. }
  rewrite EN, EI.
  assert (Hidx : 0 <= BlockProxy.getTimelineIndexFor s this cv <= zlength E).
  { unfold BlockProxy.getTimelineIndexFor. fold on vs. split; [apply zlength_nonneg|].
    rewrite <- (filter_andb (fun v => on v && negb (VersionType_eqb (type v) IMPORTED
                                                    || VersionType_eqb (type v) CLONE))).
    fold E. unfold zlength. apply Nat2Z.inj_le, filter_length_le. }
  destruct (match BlockRow.parentId this with
            | Some parentId => _
            | None => _
            end) as [range|]; simpl; [|discriminate].
  intro H. injection H as <-. simpl.
  destruct (BlockProxy.getLastImportedVersion s this); split; try lia.
  intro Hn. congruence.
Qed.

Lemma asBlockInfo_version_index_witness :
  exists info, BlockProxy.asBlockInfo afterEdit (proxy afterEdit 1) = Ok info
               /\ VCSBlockInfo.userVersionCount info = 2
               /\ 0 <= VCSBlockInfo.currentVersionIndex info
                  < VCSBlockInfo.userVersionCount info.
Proof.
  destruct (BlockProxy.asBlockInfo afterEdit (proxy afterEdit 1)) as [info|] eqn:E;
    [|vm_compute in E; discriminate E].
  exists info. split; [reflexivity|].
  destruct (asBlockInfo_version_index afterEdit (proxy afterEdit 1) info) as [[H0 _] H].
  - intros l Hl _. vm_compute in Hl.
    repeat (destruct Hl as [<- | Hl]; [reflexivity|]). destruct Hl.
  - exact E.
  - split; [vm_compute in E; injection E as <-; reflexivity|].
    split; [exact H0|]. apply H. vm_compute. discriminate.
Defined.

(* ================================================================== *)
(** ** Root blocks *)
(* ================================================================== *)

(** The last of the versions sorted by ascending timestamp is a latest one. *)
Lemma latest_last (vs : list Version) (m : Version) :
  last_opt (sort_by timestamp_asc vs) = Some m ->
  In m vs /\ forall x, In x vs -> timestamp x <= timestamp m.
Proof.
  intro H.
  pose proof (sort_by_sorted timestamp_asc timestamp_asc_total timestamp_asc_trans vs) as Hs.
  assert (Hgen : forall l, StronglySorted (fun a b => timestamp_asc a b = true) l ->
                           last_opt l = Some m ->
                           In m l /\ forall x, In x l -> timestamp x <= timestamp m).
  { clear. unfold last_opt. intros l Hs.
    induction Hs as [|a l Hs IH Ha]; intro H; [discriminate|].
    simpl in H. destruct (rev l) as [|y r] eqn:E.
    - apply (f_equal (@rev _)) in E. rewrite rev_involutive in E. simpl in E. subst l.
      simpl in H. injection H as ->. split; [left; reflexivity|].
      intros x [<- | []]. lia.
    - simpl in H. injection H as ->.
      destruct IH as [Hin Hmax]; [reflexivity|]. split; [right; exact Hin|].
      intros x [<- | Hx]; [|apply Hmax, Hx].
      rewrite Forall_forall in Ha. specialize (Ha _ Hin).
      unfold timestamp_asc in Ha. apply Z.leb_le in Ha. exact Ha. }
  destruct (Hgen _ Hs H) as [Hin Hmax]. split.
  - apply sort_by_In in Hin. exact Hin.
  - intros x Hx. apply Hmax. apply sort_by_In. exact Hx.
Qed.

Lemma last_opt_nonempty {A} (l : list A) : l <> [] -> exists x, last_opt l = Some x.
Proof.
  unfold last_opt. intro H. destruct (rev l) eqn:E; [|eauto].
  apply (f_equal (@rev _)) in E. rewrite rev_involutive in E. simpl in E. congruence.
Qed.

Lemma find_app_fresh (ids : list BlockRow.t) (b : BlockRow.t) :
  (forall x, In x ids -> BlockRow.id x <> BlockRow.id b) ->
  find (fun x => BlockRow.id x =? BlockRow.id b) (ids ++ [b]) = Some b.
Proof.
  induction ids as [|a l IH]; simpl; intro H.
  - rewrite Z.eqb_refl. reflexivity.
  - destruct (BlockRow.id a =? BlockRow.id b) eqn:E.
    + apply Z.eqb_eq in E. exfalso. apply (H a); auto.
    + apply IH. intros x Hx. apply H. right. exact Hx.
Qed.

(** X10 -- [createRootBlock] creates a root that is up to date: its block id
    is the file path followed by ":root", its row is stored, it claims every
    line of the file, no version on its lines is later than its timestamp,
    it is the source block of all of them, and [cloneOutdatedHeads] finds
    nothing to clone. *)
Theorem createRootBlock_is_up_to_date (s : Store.t) (file : Z) (filePath : string) :
  let root := snd (fst (BlockProxy.createRootBlock s file filePath)) in
  let s' := snd (BlockProxy.createRootBlock s file filePath) in
  fst (fst (BlockProxy.createRootBlock s file filePath)) = filePath ++ ":root"
  /\ Store.block_of s' (BlockRow.id root) = Some root
  /\ (forall l, In l (Store.lines s') -> LineRow.fileId l = file ->
                BlockProxy.line_in_file_block s' root l = true)
  /\ (forall v, In v (Store.versions s') -> BlockProxy.on_file_block_line s' root v = true ->
                timestamp v <= BlockRow.timestamp root
                /\ sourceBlockId v = Some (BlockRow.id root))
  /\ BlockProxy.cloneOutdatedHeads s' root = s'.
Proof.
  cbv zeta.
  unfold BlockProxy.createRootBlock. cbv zeta. cbn [fst snd].
  set (lines := sort_by line_order_asc (filter (fun l => LineRow.fileId l =? file) (Store.lines s))).
  set (versions := sort_by timestamp_asc (flat_map _ lines)).
  set (latest := match last_opt versions with Some v => timestamp v | None => 0 end).
  set (root := BlockRow.mk _ _ file BlockType.ROOT latest None None).
  set (s1 := Store.with_blocks s (Store.blocks s ++ [root])).
  destruct (connect_all (BlockRow.id root) lines s1) as (Hc & Hb & Hl & Hv & Hk).
  set (s2 := fold_left _ lines s1) in *.
  set (f := fun v => if existsb (fun w => id w =? id v) versions
                     then with_sourceBlockId v (Some (BlockRow.id root)) else v).
  set (s3 := Store.with_versions s2 (map f (Store.versions s2))).
  assert (Hconn : forall l, In l (Store.lines s) -> LineRow.fileId l = file ->
                            BlockProxy.line_in_file_block s3 root l = true).
  { intros l Hin Hf. unfold BlockProxy.line_in_file_block, BlockProxy.line_in_block.
    change (Store.connected s3) with (Store.connected s2).
    rewrite Hc. simpl. rewrite Hf, !Z.eqb_refl. simpl.
    apply orb_true_iff. right. apply existsb_exists. exists l. split; [|apply Z.eqb_refl].
    apply sort_by_In, filter_In. split; [exact Hin | apply Z.eqb_eq, Hf]. }
  assert (Hver : forall v, In v (Store.versions s3) ->
                           BlockProxy.on_file_block_line s3 root v = true ->
                           timestamp v <= latest /\ sourceBlockId v = Some (BlockRow.id root)).
  { intros v Hin Hon. simpl in Hin. rewrite Hv in Hin. simpl in Hin.
    apply in_map_iff in Hin as (v0 & <- & Hv0).
    assert (Hl0 : lineId (f v0) = lineId v0) by (unfold f; destruct (existsb _ _); reflexivity).
    assert (Ht0 : timestamp (f v0) = timestamp v0)
      by (unfold f; destruct (existsb _ _); reflexivity).
    unfold BlockProxy.on_file_block_line in Hon. rewrite Hl0 in Hon.
    change (Store.line_of s3) with (Store.line_of s2) in Hon.
    unfold Store.line_of in Hon. rewrite Hl in Hon. simpl in Hon.
    destruct (find _ (Store.lines s)) as [l|] eqn:El; [|discriminate].
    apply find_some in El as [Hlin Hlid]. apply Z.eqb_eq in Hlid.
    unfold BlockProxy.line_in_file_block in Hon. apply andb_true_iff in Hon as [Hf _].
    simpl in Hf. apply Z.eqb_eq in Hf.
    assert (Hin : In v0 versions).
    { unfold versions. apply sort_by_In, in_flat_map. exists l. split.
      - unfold lines. apply sort_by_In, filter_In. split; [exact Hlin | apply Z.eqb_eq, Hf].
      - apply filter_In. split; [exact Hv0 | apply Z.eqb_eq; congruence]. }
    split.
    - rewrite Ht0. unfold latest.
      destruct (last_opt_nonempty versions) as [m Hm]; [intro E; rewrite E in Hin; exact Hin|].
      rewrite Hm. unfold versions in Hm, Hin. apply latest_last in Hm as [_ Hmax].
      apply Hmax. apply sort_by_In in Hin. exact Hin.
    - unfold f. replace (existsb (fun w => id w =? id v0) versions) with true; [reflexivity|].
      symmetry. apply existsb_exists. exists v0. split; [exact Hin | apply Z.eqb_refl]. }
  split; [reflexivity|]. split; [|split; [|split]].
  - unfold Store.block_of. change (Store.blocks s3) with (Store.blocks s2).
    rewrite Hb. apply (find_app_fresh (Store.blocks s) root). intros x Hx.
    apply (in_map BlockRow.id) in Hx. apply fresh_id_above in Hx. simpl. lia.
  - intros l Hin. apply Hconn. change (Store.lines s3) with (Store.lines s2) in Hin.
    rewrite Hl in Hin. exact Hin.
  - exact Hver.
  - apply cloneOutdatedHeads_up_to_date. intros h v Hh Hin Hlid.
    destruct (getHeads_head_at s3 root h Hh) as (Hon & _).
    apply Hver; [exact Hin|].
    rewrite (on_file_block_line_same_line s3 root v h); auto.
Qed.

(* ================================================================== *)
(** ** Copies *)
(* ================================================================== *)

Lemma filter_filter_comm {A} (f g : A -> bool) (l : list A) :
  filter f (filter g l) = filter g (filter f l).
Proof. rewrite !filter_andb. apply filter_ext. intro x. apply andb_comm. Qed.

Lemma dedup_filter (p : Z -> bool) (l : list Z) :
  dedup Z.eqb (filter p l) = filter p (dedup Z.eqb l).
Proof.
  induction l as [|x l IH]; [reflexivity|].
  simpl. destruct (p x) eqn:Px; simpl.
  - rewrite IH. f_equal. apply filter_filter_comm.
  - rewrite IH, filter_andb.
    apply filter_ext_in. intros y Hy.
    destruct (Z.eqb_spec x y) as [<- | Hne]; simpl; [|reflexivity].
    rewrite Px. reflexivity.
Qed.

(** Grouping the versions of some lines gives the groups of these lines. *)
Lemma group_by_line_filter (agg : Z -> list Version -> Z) (p : Z -> bool) (vs : list Version) :
  group_by_line agg (filter (fun v => p (lineId v)) vs)
  = filter (fun k => p (fst k)) (group_by_line agg vs).
Proof.
  unfold group_by_line.
  assert (E : map lineId (filter (fun v => p (lineId v)) vs) = filter p (map lineId vs)).
  { induction vs as [|v vs IH]; simpl; [reflexivity|].
    destruct (p (lineId v)); simpl; rewrite IH; reflexivity. }
  rewrite E, dedup_filter. generalize (dedup Z.eqb (map lineId vs)). intro l.
  induction l as [|lid l IH]; simpl; [reflexivity|].
  destruct (p lid) eqn:Pl.
  - cbn [map]. rewrite filter_andb.
    assert (Eg : filter (fun x => p (lineId x) && (lineId x =? lid)) vs
                 = filter (fun v => lineId v =? lid) vs).
    { apply filter_ext. intro v. destruct (Z.eqb_spec (lineId v) lid) as [-> | _];
        [rewrite Pl; reflexivity | apply andb_false_r]. }
    rewrite Eg.
    destruct (filter (fun v => lineId v =? lid) vs); simpl; rewrite Pl, IH; reflexivity.
  - destruct (filter (fun v => lineId v =? lid) vs); simpl; rewrite Pl; exact IH.
Qed.

Lemma matches_key_filter (p : Z -> bool) (keys : list (Z * Z)) (v : Version) :
  matches_key (filter (fun k => p (fst k)) keys) v = matches_key keys v && p (lineId v).
Proof.
  unfold matches_key. induction keys as [|k keys IH]; [reflexivity|].
  cbn [filter existsb].
  destruct ((lineId v =? fst k) && (timestamp v =? snd k)) eqn:G.
  - apply andb_true_iff in G as [G1 G2]. apply Z.eqb_eq in G1.
    rewrite <- G1. destruct (p (lineId v)) eqn:P.
    + cbn [existsb]. rewrite G1 at 1. rewrite Z.eqb_refl, G2. reflexivity.
    + rewrite IH. apply andb_false_r.
  - destruct (p (fst k)); cbn [existsb]; rewrite ?G; exact IH.
Qed.

Lemma existsb_fst_filter (p : Z -> bool) (keys : list (Z * Z)) (lid : Z) :
  p lid = true ->
  existsb (fun k => fst k =? lid) (filter (fun k => p (fst k)) keys)
  = existsb (fun k => fst k =? lid) keys.
Proof.
  intro Pl. induction keys as [|k keys IH]; simpl; [reflexivity|].
  destruct (p (fst k)) eqn:Pk; simpl; rewrite IH; [reflexivity|].
  destruct (Z.eqb_spec (fst k) lid) as [E | _]; [|reflexivity].
  rewrite E in Pk. congruence.
Qed.

Lemma order_asc_ext (s s' : Store.t) :
  Store.lines s' = Store.lines s -> BlockProxy.order_asc s' = BlockProxy.order_asc s.
Proof.
  intro H. unfold BlockProxy.order_asc, Store.order_of, Store.line_of. rewrite H. reflexivity.
Qed.

(** The heads of a block that claims some of the lines of another block and
    cuts their histories at the same place are the heads of that block on these
    lines. *)
Lemma getHeads_restrict (s s' : Store.t) (this this' : BlockRow.t) (p : Z -> bool) :
  Store.versions s' = Store.versions s ->
  Store.lines s' = Store.lines s ->
  (forall v, In v (Store.versions s) ->
             BlockProxy.on_file_block_line s' this' v
             = BlockProxy.on_file_block_line s this v && p (lineId v)) ->
  (forall v, In v (Store.versions s) ->
             BlockProxy.on_file_block_line s this v = true -> p (lineId v) = true ->
             (timestamp v <=? BlockRow.timestamp this')
             = (timestamp v <=? BlockRow.timestamp this)) ->
  BlockProxy.getHeads s' this' = filter (fun h => p (lineId h)) (BlockProxy.getHeads s this).
Proof.
  intros Hv Hl Hon Hcut.
  assert (Hpah : BlockProxy.potentiallyActiveHeads s' this'
                 = filter (fun k => p (fst k)) (BlockProxy.potentiallyActiveHeads s this)).
  { unfold BlockProxy.potentiallyActiveHeads. rewrite <- group_by_line_filter, Hv.
    f_equal. rewrite filter_andb. apply filter_ext_in. intros v Hin.
    rewrite (Hon v Hin).
    destruct (BlockProxy.on_file_block_line s this v) eqn:E1; [|reflexivity].
    destruct (p (lineId v)) eqn:E2; simpl.
    - rewrite (Hcut v Hin E1 E2), andb_true_r. reflexivity.
    - rewrite andb_false_r. reflexivity. }
  assert (Hpih : BlockProxy.preInsertionHeads s' this'
                 = filter (fun k => p (fst k)) (BlockProxy.preInsertionHeads s this)).
  { unfold BlockProxy.preInsertionHeads. rewrite <- group_by_line_filter, Hv, Hpah.
    f_equal. rewrite filter_andb. apply filter_ext_in. intros v Hin.
    rewrite (Hon v Hin).
    destruct (BlockProxy.on_file_block_line s this v) eqn:E1; [|reflexivity].
    destruct (p (lineId v)) eqn:E2; simpl.
    - rewrite (existsb_fst_filter p _ _ E2), andb_true_r. reflexivity.
    - rewrite andb_false_r. reflexivity. }
  unfold BlockProxy.getHeads. rewrite Hpah, Hpih, Hv, (order_asc_ext s s' Hl).
  rewrite (filter_sort_by _ (order_asc_total s) (order_asc_trans s)).
  f_equal. rewrite filter_andb. apply filter_ext. intro v.
  rewrite <- filter_app. apply matches_key_filter.
Qed.

Lemma filter_true {A} (l : list A) : filter (fun _ => true) l = l.
Proof. induction l; simpl; congruence. Qed.

(** Relating a block to the lines of some rows. *)
Lemma connect_keys {A} (key : A -> Z) (bid : Z) (xs : list A) (s : Store.t) :
  let s' := fold_left (fun acc x => Store.connect acc bid (key x)) xs s in
  (forall b l, Store.connected s' b l
               = Store.connected s b l
                 || ((b =? bid) && existsb (fun x => key x =? l) xs))
  /\ Store.blocks s' = Store.blocks s
  /\ Store.lines s' = Store.lines s
  /\ Store.versions s' = Store.versions s
  /\ Store.clock s' = Store.clock s.
Proof.
  revert s. induction xs as [|x xs IH]; intro s; simpl.
  - repeat split. intros b l. rewrite andb_false_r, orb_false_r. reflexivity.
  - destruct (IH (Store.connect s bid (key x))) as (Hc & Hb & Hl & Hv & Hk).
    destruct (connect_rest s bid (key x)) as (Hb' & Hl' & Hv' & Hk').
    repeat split; try congruence.
    intros b l. rewrite Hc, connected_connect.
    destruct (Store.connected s b l), (b =? bid), (l =? key x) eqn:E; simpl;
      rewrite ?(Z.eqb_sym (key x) l), ?E; simpl; try reflexivity.
Qed.

(** A block id that no block of the store carries is related to no line. *)
Lemma fresh_unrelated (s : Store.t) (lid : Z) :
  Spec.relation_on_blocks s ->
  Store.connected s (Store.fresh_id (map BlockRow.id (Store.blocks s))) lid = false.
Proof.
  intro Hrel. unfold Store.connected.
  destruct (existsb _ (Store.blockLines s)) eqn:E; [exfalso | reflexivity].
  apply existsb_exists in E as (pr & Hpr & E). apply andb_true_iff in E as [E _].
  apply Z.eqb_eq in E. destruct (Hrel pr Hpr) as (b & Hb & Hid).
  apply (in_map BlockRow.id) in Hb. apply fresh_id_above in Hb. lia.
Qed.

(** X11 -- [copy] creates a CLONE of its origin that shows what the origin
    shows: in a store whose relation between blocks and lines names stored
    blocks only, and for an origin none of whose heads is later than its
    timestamp, the heads of the copy are the heads of the origin. *)
Theorem copy_shows_the_heads_of_its_origin (s : Store.t) (this : BlockRow.t) :
  Spec.relation_on_blocks s ->
  (forall h, In h (BlockProxy.getHeads s this) -> timestamp h <= BlockRow.timestamp this) ->
  let clone := fst (BlockProxy.copy s this) in
  let s' := snd (BlockProxy.copy s this) in
  BlockRow.type clone = BlockType.CLONE
  /\ BlockRow.originId clone = Some (BlockRow.id this)
  /\ BlockProxy.getHeads s' clone = BlockProxy.getHeads s this.
Proof.
  intros Hrel Hborn. cbv zeta. unfold BlockProxy.copy. cbv zeta. cbn [fst snd].
  set (versions := sort_by timestamp_asc (BlockProxy.getHeads s this)).
  set (latest := match last_opt versions with Some v => timestamp v | None => 0 end).
  set (clone := BlockRow.mk _ _ (BlockRow.fileId this) BlockType.CLONE latest None
                            (Some (BlockRow.id this))).
  set (s1 := Store.with_blocks s (Store.blocks s ++ [clone])).
  destruct (connect_keys lineId (BlockRow.id clone) versions s1) as (Hc & Hb & Hl & Hv & Hk).
  set (s2 := fold_left _ versions s1) in *.
  assert (Hlatest : forall h, In h (BlockProxy.getHeads s this) -> timestamp h <= latest).
  { intros h Hh. unfold latest.
    destruct (last_opt_nonempty versions) as [m Hm].
    - intro E. unfold versions in E. apply sort_by_nil in E. rewrite E in Hh. exact Hh.
    - rewrite Hm. apply latest_last in Hm as [_ Hmax]. apply Hmax, Hh. }
  assert (Hle : latest <= BlockRow.timestamp this \/ BlockProxy.getHeads s this = []).
  { unfold latest. destruct (last_opt versions) as [m|] eqn:Hm.
    - left. apply latest_last in Hm as [Hin _]. apply Hborn, Hin.
    - right. destruct (BlockProxy.getHeads s this) eqn:E; [reflexivity|].
      destruct (last_opt_nonempty versions) as [m Hm'].
      + intro E'. unfold versions in E'. apply sort_by_nil in E'. congruence.
      + congruence. }
  split; [reflexivity|]. split; [reflexivity|].
  rewrite <- (filter_true (BlockProxy.getHeads s this)).
  apply (getHeads_restrict s s2 this clone (fun _ => true)).
  - exact Hv.
  - exact Hl.
  - intros v Hin. rewrite andb_true_r.
    unfold BlockProxy.on_file_block_line, Store.line_of. rewrite Hl. simpl.
    destruct (find (fun l => LineRow.id l =? lineId v) (Store.lines s)) as [l|] eqn:El;
      [|reflexivity].
    pose proof (find_some _ _ El) as [Hlin Hlid]. apply Z.eqb_eq in Hlid.
    unfold BlockProxy.line_in_file_block, BlockProxy.line_in_block. simpl.
    destruct (LineRow.fileId l =? BlockRow.fileId this) eqn:Ef; [simpl | reflexivity].
    rewrite Hc. unfold s1 at 1. unfold Store.connected at 1. simpl.
    fold (Store.connected s (Store.fresh_id (map BlockRow.id (Store.blocks s))) (LineRow.id l)).
    rewrite (fresh_unrelated s _ Hrel), Z.eqb_refl. simpl.
    destruct (Store.connected s (BlockRow.id this) (LineRow.id l)) eqn:Econn.
    + assert (Hon : BlockProxy.on_file_block_line s this v = true).
      { unfold BlockProxy.on_file_block_line, Store.line_of. rewrite El.
        unfold BlockProxy.line_in_file_block, BlockProxy.line_in_block.
        rewrite Ef, Econn. reflexivity. }
      destruct (getHeads_covers s this v Hin Hon) as (h & Hh & Hhl).
      apply existsb_exists. exists h. split; [apply sort_by_In, Hh|].
      apply Z.eqb_eq. congruence.
    + destruct (existsb _ versions) eqn:Eex; [exfalso | reflexivity].
      apply existsb_exists in Eex as (h & Hh & Hhl). apply Z.eqb_eq in Hhl.
      apply sort_by_In in Hh. destruct (getHeads_head_at s this h Hh) as (Hon & _).
      rewrite (on_file_block_line_same_line s this h v) in Hon by congruence.
      unfold BlockProxy.on_file_block_line, Store.line_of in Hon. rewrite El in Hon.
      unfold BlockProxy.line_in_file_block, BlockProxy.line_in_block in Hon.
      rewrite Ef, Econn in Hon. discriminate.
  - intros v Hin Hon _. change (BlockRow.timestamp clone) with latest.
    destruct (getHeads_covers s this v Hin Hon) as (h & Hh & Hhl).
    destruct Hle as [Hle | E]; [|rewrite E in Hh; destruct Hh].
    destruct (Z.leb_spec (timestamp v) (BlockRow.timestamp this)) as [Hvt | Hvt].
    + apply Z.leb_le.
      destruct (getHeads_head_at s this h Hh) as (_ & _ & [[_ Hmax] | [Hlate _]]).
      * assert (timestamp v <= timestamp h).
        { apply Hmax; [|exact Hvt]. apply filter_In. split; [exact Hin|].
          apply Z.eqb_eq. congruence. }
        specialize (Hlatest h Hh). lia.
      * assert (BlockRow.timestamp this < timestamp v).
        { apply Hlate. apply filter_In. split; [exact Hin|]. apply Z.eqb_eq. congruence. }
        lia.
    + apply Z.leb_gt. lia.
Qed.

Lemma copy_shows_the_heads_of_its_origin_witness :
  BlockRow.type (fst (BlockProxy.copy afterInsert (proxy afterInsert 1))) = BlockType.CLONE
  /\ BlockRow.originId (fst (BlockProxy.copy afterInsert (proxy afterInsert 1))) = Some 1
  /\ BlockProxy.getHeads (snd (BlockProxy.copy afterInsert (proxy afterInsert 1)))
                         (fst (BlockProxy.copy afterInsert (proxy afterInsert 1)))
     = BlockProxy.getHeads afterInsert (proxy afterInsert 1).
Proof.
  apply (copy_shows_the_heads_of_its_origin afterInsert (proxy afterInsert 1)).
  - intros pr Hpr. vm_compute in Hpr.
    repeat (destruct Hpr as [<- | Hpr]; [eexists; split; [left; reflexivity | reflexivity]|]).
    destruct Hpr.
  - intros h Hh. vm_compute in Hh.
    repeat (destruct Hh as [<- | Hh]; [vm_compute; discriminate|]). destruct Hh.
Defined.

(* ================================================================== *)
(** ** Children *)
(* ================================================================== *)

(** The lines of a range are lines of heads of the block. *)
Lemma getLinesInRange_heads (s : Store.t) (this : BlockRow.t) (range : VCSBlockRange.t)
      (linesInRange : list LineRow.t) (l : LineRow.t) :
  BlockProxy.getLinesInRange s this range = Ok linesInRange ->
  In l linesInRange ->
  exists h, In h (BlockProxy.getHeads s this) /\ Store.line_of s (lineId h) = Some l.
Proof.
  unfold BlockProxy.getLinesInRange. intros H Hl.
  assert (Hsub : forall vl, In vl (BlockProxy.getHeadsWithLines s this) ->
                            In (fst vl) (BlockProxy.getHeads s this)
                            /\ Store.line_of s (lineId (fst vl)) = Some (snd vl)).
  { intros [v l0] Hvl. unfold BlockProxy.getHeadsWithLines in Hvl.
    apply in_flat_map in Hvl as (h & Hh & Hvl).
    destruct (Store.line_of s (lineId h)) as [l1|] eqn:E; [|destruct Hvl].
    destruct Hvl as [Hvl | []]. injection Hvl as <- <-. auto. }
  destruct (BlockProxy.getHeadsWithLines s this) as [|vl0 rest] eqn:E.
  - injection H as <-. destruct Hl.
  - rewrite <- E in *.
    destruct (at_index _ (VCSBlockRange.startLine range - 1)) as [f|]; [|discriminate].
    destruct (at_index _ (VCSBlockRange.endLine range - 1)) as [e|]; [|discriminate].
    injection H as <-. apply in_map_iff in Hl as (vl & <- & Hvl).
    apply filter_In in Hvl as [Hvl _]. exists (fst vl). apply Hsub, Hvl.
Qed.

(** X12 -- A child shows its part of the parent: in a store whose relation
    between blocks and lines names stored blocks only, the heads of the block
    that [createChild] creates are the heads of the parent on the lines of
    the range, in the same order. *)
Theorem createChild_shows_the_lines_of_the_range
        (s : Store.t) (this : BlockRow.t) (range : VCSBlockRange.t)
        (linesInRange : list LineRow.t) (child : BlockRow.t) (s' : Store.t) :
  Spec.relation_on_blocks s ->
  BlockProxy.getLinesInRange s this range = Ok linesInRange ->
  BlockProxy.createChild s this range = (Ok (Some child), s') ->
  BlockProxy.getHeads s' child
  = filter (fun h => existsb (fun l => LineRow.id l =? lineId h) linesInRange)
           (BlockProxy.getHeads s this).
Proof.
  intros Hrel Hlines Hcreate. unfold BlockProxy.createChild in Hcreate.
  rewrite Hlines in Hcreate.
  destruct (BlockProxy.overlappingChild s this linesInRange); [discriminate|].
  unfold BlockProxy.inlineCopy in Hcreate. cbv zeta in Hcreate.
  injection Hcreate as <- <-.
  set (child := BlockRow.mk _ _ (BlockRow.fileId this) BlockType.INLINE
                            (BlockRow.timestamp this) (Some (BlockRow.id this)) None).
  set (s1 := Store.with_blocks s (Store.blocks s ++ [child])).
  destruct (connect_all (BlockRow.id child) linesInRange s1) as (Hc & Hb & Hl & Hv & Hk).
  set (s2 := fold_left _ linesInRange s1) in *.
  apply (getHeads_restrict s s2 this child
           (fun lid => existsb (fun l => LineRow.id l =? lid) linesInRange)).
  - exact Hv.
  - exact Hl.
  - intros v Hin.
    unfold BlockProxy.on_file_block_line, Store.line_of. rewrite Hl. simpl.
    destruct (find (fun l => LineRow.id l =? lineId v) (Store.lines s)) as [l|] eqn:El;
      [|reflexivity].
    pose proof (find_some _ _ El) as [Hlin Hlid]. apply Z.eqb_eq in Hlid.
    unfold BlockProxy.line_in_file_block, BlockProxy.line_in_block. simpl.
    destruct (LineRow.fileId l =? BlockRow.fileId this) eqn:Ef; [simpl | reflexivity].
    rewrite Hc. unfold s1 at 1. unfold Store.connected at 1. simpl.
    fold (Store.connected s (Store.fresh_id (map BlockRow.id (Store.blocks s))) (LineRow.id l)).
    rewrite (fresh_unrelated s _ Hrel), Z.eqb_refl. simpl. rewrite Hlid.
    destruct (existsb (fun x => LineRow.id x =? lineId v) linesInRange) eqn:Ein;
      [|rewrite andb_false_r; reflexivity].
    rewrite andb_true_r. symmetry.
    apply existsb_exists in Ein as (l0 & Hl0 & Hid0). apply Z.eqb_eq in Hid0.
    destruct (getLinesInRange_heads s this range linesInRange l0 Hlines Hl0) as (h & Hh & Hline).
    destruct (getHeads_head_at s this h Hh) as (Hon & _).
    unfold BlockProxy.on_file_block_line in Hon. rewrite Hline in Hon.
    unfold BlockProxy.line_in_file_block, BlockProxy.line_in_block in Hon.
    apply andb_true_iff in Hon as [_ Hon]. rewrite Hid0 in Hon. exact Hon.
  - intros v _ _ _. reflexivity.
Qed.

Lemma createChild_shows_the_lines_of_the_range_witness :
  map content (BlockProxy.getHeads withChild (proxy withChild 2)) = ["y"; "z"].
Proof.
  rewrite (createChild_shows_the_lines_of_the_range
             loaded (proxy loaded 1) (VCSBlockRange.mk 2 3)
             [LineRow.mk 2 1 (2 # 1); LineRow.mk 3 1 (3 # 1)]
             (proxy withChild 2) withChild).
  - vm_compute. reflexivity.
  - intros pr Hpr. vm_compute in Hpr.
    repeat (destruct Hpr as [<- | Hpr]; [eexists; split; [left; reflexivity | reflexivity]|]).
    destruct Hpr.
  - vm_compute. reflexivity.
  - vm_compute. reflexivity.
Defined.

(* ================================================================== *)
(** ** Relating lines and blocks; the bounds of an edit *)
(* ================================================================== *)

Lemma connect_with_heads (s : Store.t) (hs : list HeadRow.t) (bid lid : Z) :
  Store.connect (Store.with_heads s hs) bid lid = Store.with_heads (Store.connect s bid lid) hs.
Proof.
  unfold Store.connect, Store.connected. simpl.
  destruct (existsb _ (Store.blockLines s)); reflexivity.
Qed.

Lemma connect_heads (s : Store.t) (bid lid : Z) :
  Store.heads (Store.connect s bid lid) = Store.heads s.
Proof. unfold Store.connect. destruct (Store.connected s bid lid); reflexivity. Qed.

Lemma with_heads_with_heads (s : Store.t) (h1 h2 : list HeadRow.t) :
  Store.with_heads (Store.with_heads s h1) h2 = Store.with_heads s h2.
Proof. reflexivity. Qed.

Lemma fold_connect_with_heads (line : Z) (headInfo : list (BlockRow.t * Version))
      (s : Store.t) (hs : list HeadRow.t) :
  fold_left (fun acc bv => Store.connect acc (BlockRow.id (fst bv)) line) headInfo
            (Store.with_heads s hs)
  = Store.with_heads
      (fold_left (fun acc bv => Store.connect acc (BlockRow.id (fst bv)) line) headInfo s) hs.
Proof.
  revert s. induction headInfo as [|bv r IH]; intro s; simpl; [reflexivity|].
  rewrite connect_with_heads. apply IH.
Qed.

Lemma fold_connect_heads (line : Z) (headInfo : list (BlockRow.t * Version)) (s : Store.t) :
  Store.heads (fold_left (fun acc bv => Store.connect acc (BlockRow.id (fst bv)) line)
                         headInfo s)
  = Store.heads s.
Proof.
  revert s. induction headInfo as [|bv r IH]; intro s; simpl; [reflexivity|].
  rewrite IH. apply connect_heads.
Qed.

Lemma with_heads_same (s : Store.t) : Store.with_heads s (Store.heads s) = s.
Proof. destruct s; reflexivity. Qed.

Lemma addBlocks_heads (s : Store.t) (line : Z) (headInfo : list (BlockRow.t * Version)) :
  LineProxy.addBlocks s line headInfo
  = Store.with_heads
      (fold_left (fun acc bv => Store.connect acc (BlockRow.id (fst bv)) line) headInfo s)
      (Store.heads s
       ++ map (fun bv => HeadRow.mk (BlockRow.id (fst bv)) line (id (snd bv))) headInfo).
Proof. unfold LineProxy.addBlocks. cbv zeta. rewrite fold_connect_heads. reflexivity. Qed.

(** X13 -- [addBlocks] is [addBlock] for each entry of the map: the store is
    the same; the line is related to the blocks of the map and to what it was
    related to before, and one head row per entry is appended. *)
Theorem addBlocks_is_addBlock_for_each (s : Store.t) (line : Z)
        (headInfo : list (BlockRow.t * Version)) :
  LineProxy.addBlocks s line headInfo
  = fold_left (fun acc bv => LineProxy.addBlock acc line (fst bv) (snd bv)) headInfo s
  /\ (forall b l, Store.connected (LineProxy.addBlocks s line headInfo) b l
                  = Store.connected s b l
                    || ((l =? line) && existsb (fun bv => BlockRow.id (fst bv) =? b) headInfo))
  /\ Store.heads (LineProxy.addBlocks s line headInfo)
     = (Store.heads s
        ++ map (fun bv => HeadRow.mk (BlockRow.id (fst bv)) line (id (snd bv))) headInfo)%list.
Proof.
  split; [|split].
  - revert s. induction headInfo as [|bv r IH]; intro s.
    + rewrite addBlocks_heads. simpl. rewrite app_nil_r. apply with_heads_same.
    + cbn [fold_left]. rewrite <- IH. rewrite !addBlocks_heads.
      unfold LineProxy.addBlock. cbv zeta. cbn [fold_left map].
      rewrite fold_connect_with_heads, with_heads_with_heads.
      cbn [Store.heads Store.with_heads]. rewrite connect_heads, <- app_assoc.
      reflexivity.
  - intros b l. rewrite addBlocks_heads.
    change (Store.connected (Store.with_heads ?x ?h) b l) with (Store.connected x b l).
    revert s. induction headInfo as [|bv r IH]; intro s; simpl.
    + rewrite andb_false_r, orb_false_r. reflexivity.
    + rewrite IH, connected_connect.
      destruct (Store.connected s b l), (l =? line), (b =? BlockRow.id (fst bv)) eqn:E;
        simpl; rewrite ?(Z.eqb_sym (BlockRow.id (fst bv)) b), ?E; simpl;
        rewrite ?andb_false_r, ?orb_false_r; try reflexivity.
  - rewrite addBlocks_heads. reflexivity.
Qed.

(** X14 -- [changeLines] reads [activeHeads[startLineNumber - 1].content]
    before it writes anything: with a start line number below 1 or beyond the
    active lines it ends in a TypeError, and the store is as it was. *)
Theorem changeLines_outside_of_the_text (s : Store.t) (this : BlockRow.t)
        (change : MultiLineChange.t) (eol : string) :
  FileProxy.getEol s (BlockRow.fileId this) = Ok eol ->
  MultiLineChange.startLineNumber change < 1
  \/ zlength (filter (fun h => isActive (fst h)) (BlockProxy.getHeadsWithLines s this))
     < MultiLineChange.startLineNumber change ->
  BlockProxy.changeLines s this change = (Throw TypeError, s).
Proof.
  intros Heol Hout. unfold BlockProxy.changeLines. rewrite Heol.
  destruct (at_index _ (MultiLineChange.startLineNumber change - 1)) as [h|] eqn:E;
    [|reflexivity].
  apply at_index_Some in E. lia.
Qed.

Lemma changeLines_outside_of_the_text_witness :
  BlockProxy.changeLines loaded (proxy loaded 1) (MultiLineChange.mk 4 1 4 1 "w" "w")
  = (Throw TypeError, loaded).
Proof.
  apply (changeLines_outside_of_the_text loaded (proxy loaded 1) _ LF).
  - reflexivity.
  - right. vm_compute. reflexivity.
Defined.

(* ================================================================== *)
(** ** Trailing blanks *)
(* ================================================================== *)

Lemma append_assoc (a b c : string) : (a ++ b) ++ c = a ++ (b ++ c).
Proof. induction a as [|x a IH]; simpl; [reflexivity | rewrite IH; reflexivity]. Qed.

Lemma append_nil_r (a : string) : a ++ "" = a.
Proof. induction a as [|x a IH]; simpl; [reflexivity | rewrite IH; reflexivity]. Qed.

Lemma prefix_split (p s : string) : String.prefix p s = true -> exists r, s = p ++ r.
Proof.
  revert s. induction p as [|a p IH]; intros s H; simpl.
  - exists s. reflexivity.
  - destruct s as [|b s]; simpl in H; [discriminate|].
    destruct (ascii_dec a b) as [-> | _]; [|discriminate].
    destruct (IH s H) as [r ->]. exists r. reflexivity.
Qed.

Lemma split_aux_skip (sep p r cur : string) :
  Str.split_aux sep (p ++ r) (String.length p) cur = Str.split_aux sep r 0 cur.
Proof.
  induction p as [|a p IH]; simpl; [reflexivity | exact IH].
Qed.

Lemma split_aux_nonempty (sep s : string) (k : nat) (cur : string) :
  Str.split_aux sep s k cur <> [].
Proof.
  revert k cur. induction s as [|a s IH]; intros k cur; [simpl; intro H; discriminate H|].
  cbn [Str.split_aux]. destruct k; [|apply IH].
  destruct (String.prefix sep (String a s)); [intro H; discriminate H | apply IH].
Qed.

Lemma join_cons (sep x : string) (l : list string) :
  l <> [] -> Str.join sep (x :: l) = x ++ sep ++ Str.join sep l.
Proof. destruct l; [congruence | reflexivity]. Qed.

(** Joining the pieces of a text by the separator it was split at gives the
    text back. *)
Lemma join_split_aux (sep : string) (n : nat) :
  sep <> "" ->
  forall s cur, (String.length s <= n)%nat ->
                Str.join sep (Str.split_aux sep s 0 cur) = Str.rev_string cur ++ s.
Proof.
  intro Hsep. induction n as [|n IH]; intros s cur Hn.
  - destruct s; [|simpl in Hn; lia]. simpl. rewrite append_nil_r. reflexivity.
  - destruct s as [|a s]; [simpl; rewrite append_nil_r; reflexivity|].
    cbn [Str.split_aux]. destruct (String.prefix sep (String a s)) eqn:E.
    + destruct sep as [|b sep]; [congruence|].
      simpl in E. destruct (ascii_dec b a) as [-> | _]; [|discriminate].
      destruct (prefix_split sep s E) as [r ->].
      cbn [String.length]. rewrite Nat.sub_succ, Nat.sub_0_r, split_aux_skip.
      rewrite join_cons by apply split_aux_nonempty.
      rewrite IH.
      * simpl. reflexivity.
      * simpl in Hn. assert (String.length r <= String.length (sep ++ r))%nat.
        { clear. induction sep; simpl; lia. }
        lia.
    + rewrite IH by (simpl in Hn; lia). simpl. rewrite append_assoc. reflexivity.
Qed.

Lemma join_split (s sep : string) : sep <> "" -> Str.join sep (Str.split s sep) = s.
Proof. intro H. unfold Str.split. apply (join_split_aux sep (String.length s) H); lia. Qed.

(** X15 -- [customTrimEnd] takes away trailing blanks only: a text whose
    lines, for a line break that is not empty, end neither in a space nor in
    a tab comes back as it is. *)
Theorem customTrimEnd_without_trailing_blanks (input eol : string) :
  eol <> "" ->
  (forall line, In line (Str.split input eol) -> trimEndBlanks line = line) ->
  customTrimEnd input eol = input.
Proof.
  intros Heol Hlines. unfold customTrimEnd.
  rewrite (map_ext_in _ (fun x => x) _ Hlines), map_id. apply join_split, Heol.
Qed.

Lemma customTrimEnd_without_trailing_blanks_witness :
  customTrimEnd ("a b" ++ LF ++ "  c") LF = "a b" ++ LF ++ "  c"
  /\ customTrimEnd ("a  " ++ LF ++ "b") LF = "a" ++ LF ++ "b".
Proof.
  split; [|vm_compute; reflexivity].
  apply customTrimEnd_without_trailing_blanks.
  - discriminate.
  - intros line Hl. vm_compute in Hl. destruct Hl as [<- | [<- | []]]; reflexivity.
Defined.

(* ================================================================== *)
(** ** Tags in memory *)
(* ================================================================== *)

Lemma loadTimestamp_keeps (l : Line.t) (t : Z) :
  Line.node (Line.loadTimestamp l t) = Line.node l
  /\ Line.lineType (Line.loadTimestamp l t) = Line.lineType l
  /\ Line.position (Line.loadTimestamp l t) = Line.position l
  /\ Line.history (Line.loadTimestamp l t) = Line.history l.
Proof.
  unfold Line.loadTimestamp. destruct (Line.head_at (Line.history l) t); repeat split.
Qed.

Lemma loadTimestamp_loadTimestamp (l : Line.t) (t1 t2 : Z) :
  Line.loadTimestamp (Line.loadTimestamp l t1) t2 = Line.loadTimestamp l t2.
Proof.
  unfold Line.loadTimestamp at 1 3.
  destruct (loadTimestamp_keeps l t1) as (Hn & Hty & Hp & Hh). rewrite Hh, Hn, Hty, Hp.
  destruct (Line.head_at (Line.history l) t2) as [v|] eqn:E; [reflexivity|].
  unfold Line.loadTimestamp.
  destruct (Line.head_at (Line.history l) t1) as [w|] eqn:E1; [|reflexivity].
  exfalso. unfold Line.head_at in E, E1.
  destruct (Line.history l) as [|x h]; simpl in *; [discriminate E1|].
  destruct (last_opt _) in E; discriminate E.
Qed.

Lemma loadTimestamp_head (l : Line.t) (t : Z) :
  Line.head_at (Line.history l) t = Some (Line.currentVersion l) ->
  Line.loadTimestamp l t = l.
Proof. unfold Line.loadTimestamp. intros ->. destruct l; reflexivity. Qed.

Lemma with_lines_same (b : Block.t) : Block.with_lines b (Block.lines b) = b.
Proof. destruct b; reflexivity. Qed.

Lemma with_lines_with_lines (b : Block.t) (l1 l2 : list Line.t) :
  Block.with_lines (Block.with_lines b l1) l2 = Block.with_lines b l2.
Proof. reflexivity. Qed.

(** X16 -- [getTextForVersion] on a block at the latest state.  When every
    line shows its head at the last timestamp of the provider, the answer is
    the text under the tag, a block that answers is left exactly as it was,
    and a root answers with its current text under the tag. *)
Theorem getTextForVersion_at_the_latest_state
        (clock : TimestampProvider.t) (b : Block.t) (id : string) (tag : Tag.t) :
  Block.tags_get b id = Some tag ->
  (forall l, In l (Block.lines b) ->
             Line.head_at (Line.history l) (TimestampProvider.getLastTimestamp clock)
             = Some (Line.currentVersion l)) ->
  fst (Block.getTextForVersion clock b id) = Block.getFullText (Block.Tag_applyTo tag b) None
  /\ (forall text, fst (Block.getTextForVersion clock b id) = Ok text ->
                   snd (Block.getTextForVersion clock b id) = b)
  /\ (Block.parent b = None ->
      Block.getTextForVersion clock b id
      = (Ok (Block.getCurrentText (Block.Tag_applyTo tag b)), b)).
Proof.
  intros Htag Hlatest.
  assert (Hback : Block.Tag_applyTo (Block.createCurrentTag clock b) (Block.Tag_applyTo tag b)
                  = b).
  { unfold Block.Tag_applyTo, Block.applyTimestamp, Block.createCurrentTag. cbn [snd Tag.timestamp].
    rewrite with_lines_with_lines.
    change (Block.lines (Block.with_lines b ?x)) with x. rewrite map_map.
    transitivity (Block.with_lines b (Block.lines b)); [f_equal | apply with_lines_same].
    transitivity (map (fun l : Line.t => l) (Block.lines b)); [|apply map_id].
    apply map_ext_in. intros l Hl.
    rewrite loadTimestamp_loadTimestamp. apply loadTimestamp_head, Hlatest, Hl. }
  unfold Block.getTextForVersion, Block.loadTag. rewrite Htag.
  split; [|split].
  - destruct (Block.getFullText (Block.Tag_applyTo tag b) None); reflexivity.
  - intros text. destruct (Block.getFullText (Block.Tag_applyTo tag b) None) eqn:E; simpl.
    + intros _. exact Hback.
    + discriminate.
  - intro Hroot.
    assert (E : Block.getFullText (Block.Tag_applyTo tag b) None
                = Ok (Block.getCurrentText (Block.Tag_applyTo tag b))).
    { destruct b. simpl in Hroot. subst. reflexivity. }
    rewrite E, Hback. reflexivity.
Qed.

Lemma getTextForVersion_at_the_latest_state_witness :
  Block.getTextForVersion taggedClock tagged "T" = (Ok "y", tagged).
Proof.
  destruct (getTextForVersion_at_the_latest_state taggedClock tagged "T" (Tag.mk "T" 2))
    as (_ & _ & H).
  - reflexivity.
  - intros l Hl. vm_compute in Hl. destruct Hl as [<- | []]. vm_compute. reflexivity.
  - rewrite H by reflexivity. vm_compute. reflexivity.
Defined.

(* ================================================================== *)
(** ** The user versions of the in-memory block *)
(* ================================================================== *)

Lemma Version_eqb_refl (v : Version) : Version_eqb v v = true.
Proof. apply Version_eqb_eq. reflexivity. Qed.

Lemma Version_eqb_neq (a b : Version) : a <> b -> Version_eqb a b = false.
Proof.
  intro H. destruct (Version_eqb a b) eqn:E; [|reflexivity].
  apply Version_eqb_eq in E. contradiction.
Qed.

Lemma indexOf_from_In (v : Version) (h : list Version) (n : Z) :
  In v h -> exists i, indexOf_from Version_eqb n v h = Some i.
Proof.
  revert n. induction h as [|a h IH]; intros n Hin; [destruct Hin|].
  simpl. destruct (Version_eqb a v) eqn:E; [eauto|].
  destruct Hin as [-> | Hin]; [rewrite Version_eqb_refl in E; discriminate|].
  apply IH, Hin.
Qed.

Lemma find_node (ls : list Line.t) (l : Line.t) :
  NoDup (map Line.node ls) -> In l ls ->
  find (fun x => Line.node x =? Line.node l) ls = Some l.
Proof.
  induction ls as [|a ls IH]; simpl; intros Hnd Hin; [destruct Hin|].
  inversion Hnd as [|? ? Hnotin Hnd']; subst.
  destruct Hin as [-> | Hin]; [rewrite Z.eqb_refl; reflexivity|].
  destruct (Z.eqb_spec (Line.node a) (Line.node l)) as [E | _]; [|apply IH; assumption].
  exfalso. apply Hnotin. rewrite E. apply in_map, Hin.
Qed.

Section MemoryTimeline.
Variable b : Block.t.
Hypothesis Hnodes : NoDup (map Line.node (Block.lines b)).
Hypothesis Hids :
  forall l v, In l (Block.lines b) -> In v (Line.history l) -> lineId v = Line.node l.
Hypothesis Hdup : forall l, In l (Block.lines b) -> NoDup (Line.history l).
Hypothesis Horiginal :
  forall l, In l (Block.lines b) -> Line.isInserted l = false ->
            Line.history l <> []
            /\ forall v, In v (Line.history l) -> isPreInsertion v = false.
Hypothesis Hinserted :
  forall l, In l (Block.lines b) -> Line.isInserted l = true ->
            exists pre first rest,
              Line.history l = pre :: first :: rest
              /\ isPreInsertion pre = true
              /\ forall v, In v (first :: rest) -> isPreInsertion v = false.

Local Abbreviation keep := (fun version => negb (Block.previousIsPreInsertion b version)).

Lemma historyOf_line (l : Line.t) (v : Version) :
  In l (Block.lines b) -> In v (Line.history l) -> Block.historyOf b v = Line.history l.
Proof.
  intros Hl Hv. unfold Block.historyOf. rewrite (Hids l v Hl Hv).
  rewrite (find_node _ l Hnodes Hl). reflexivity.
Qed.

Lemma keep_original (l : Line.t) :
  In l (Block.lines b) -> Line.isInserted l = false ->
  filter keep (Line.history l) = Line.history l.
Proof.
  intros Hl Ho. destruct (Horiginal l Hl Ho) as [_ Hnone].
  rewrite <- (filter_true (Line.history l)) at 2. apply filter_ext_in. intros v Hv.
  unfold Block.previousIsPreInsertion, Block.previous.
  rewrite (historyOf_line l v Hl Hv).
  destruct (indexOf Version_eqb v (Line.history l)) as [i|]; [|reflexivity].
  destruct (at_index (Line.history l) (i - 1)) as [p|] eqn:E; [|reflexivity].
  apply at_index_In in E. rewrite (Hnone p E). reflexivity.
Qed.

Lemma keep_inserted (l : Line.t) :
  In l (Block.lines b) -> Line.isInserted l = true ->
  exists pre first rest,
    Line.history l = pre :: first :: rest /\ filter keep (Line.history l) = pre :: rest.
Proof.
  intros Hl Hi. destruct (Hinserted l Hl Hi) as (pre & first & rest & Hh & Hpre & Hnone).
  exists pre, first, rest. split; [exact Hh|].
  pose proof (Hdup l Hl) as Hnd. rewrite Hh in Hnd.
  assert (Hkeep : forall v, In v (Line.history l) ->
                            keep v = negb (Version_eqb v first)).
  { intros v Hv. unfold Block.previousIsPreInsertion, Block.previous.
    rewrite (historyOf_line l v Hl Hv). rewrite Hh in Hv |- *.
    assert (Hpf : pre <> first).
    { intro E. rewrite <- E in Hnone. rewrite (Hnone pre (or_introl eq_refl)) in Hpre.
      discriminate. }
    destruct Hv as [<- | [<- | Hv]].
    - unfold indexOf. simpl. rewrite Version_eqb_refl. simpl.
      rewrite (Version_eqb_neq _ _ Hpf). reflexivity.
    - unfold indexOf. simpl. rewrite (Version_eqb_neq _ _ Hpf), Version_eqb_refl. simpl.
      rewrite Hpre. reflexivity.
    - assert (Hvp : v <> pre).
      { intros ->. rewrite (Hnone pre (or_intror Hv)) in Hpre. discriminate. }
      assert (Hvf : v <> first).
      { intros ->. inversion Hnd as [|? ? _ Hnd']; subst.
        inversion Hnd' as [|? ? Hnotin _]; subst. contradiction. }
      rewrite (Version_eqb_neq _ _ Hvf). simpl.
      destruct (indexOf Version_eqb v (pre :: first :: rest)) as [i|] eqn:Ei; [|reflexivity].
      pose proof (indexOf_at _ _ _ Ei) as Hat.
      pose proof (at_index_Some _ _ _ Hat) as Hr.
      destruct (Z.eq_dec i 0) as [-> | H0].
      { unfold at_index in Hat. simpl in Hat. congruence. }
      destruct (Z.eq_dec i 1) as [-> | H1].
      { unfold at_index in Hat. simpl in Hat. congruence. }
      rewrite at_index_cons by lia.
      destruct (at_index (first :: rest) (i - 1 - 1)) as [p|] eqn:Ep; [|reflexivity].
      apply at_index_In in Ep. rewrite (Hnone p Ep). reflexivity. }
  rewrite (filter_ext_in _ _ _ Hkeep). rewrite Hh. simpl.
  assert (Hpf : pre <> first).
  { intro E. rewrite <- E in Hnone. rewrite (Hnone pre (or_introl eq_refl)) in Hpre.
    discriminate. }
  rewrite (Version_eqb_neq _ _ Hpf), Version_eqb_refl. simpl. f_equal.
  rewrite <- (filter_true rest) at 2. apply filter_ext_in. intros v Hv.
  rewrite Version_eqb_neq; [reflexivity|].
  intros ->. inversion Hnd as [|? ? _ Hnd']; subst.
  inversion Hnd' as [|? ? Hnotin _]; subst. contradiction.
Qed.

Lemma count_kept (ls : list Line.t) :
  (forall l, In l ls -> In l (Block.lines b)) ->
  (List.length (filter keep (flat_map Line.history ls))
   + List.length (filter Line.isInserted ls)
   = List.length (flat_map Line.history ls))%nat
  /\ (List.length ls <= List.length (filter keep (flat_map Line.history ls)))%nat.
Proof.
  induction ls as [|l ls IH]; intro Hsub; [split; reflexivity|].
  destruct IH as [IH1 IH2]; [intros x Hx; apply Hsub; right; exact Hx|].
  assert (Hl : In l (Block.lines b)) by (apply Hsub; left; reflexivity).
  cbn [flat_map filter]. rewrite filter_app, !length_app.
  destruct (Line.isInserted l) eqn:Ei.
  - destruct (keep_inserted l Hl Ei) as (pre & first & rest & Hh & Hk).
    rewrite Hk, Hh. simpl. lia.
  - rewrite (keep_original l Hl Ei). destruct (Horiginal l Hl Ei) as [Hne _].
    destruct (Line.history l); [congruence|]. simpl. lia.
Qed.

End MemoryTimeline.

(** X18 -- In memory, [getUserVersionCount] is the length of
    [getTimeline], for a block with an original line whose lines have
    different nodes and histories of their own without repetition, where an
    original line has no PRE_INSERTION version and an inserted line starts
    with its only PRE_INSERTION version, followed by at least one more. *)
Theorem getUserVersionCount_is_the_length_of_the_timeline (b : Block.t) :
  NoDup (map Line.node (Block.lines b)) ->
  (forall l v, In l (Block.lines b) -> In v (Line.history l) -> lineId v = Line.node l) ->
  (forall l, In l (Block.lines b) -> NoDup (Line.history l)) ->
  (forall l, In l (Block.lines b) -> Line.isInserted l = false ->
             Line.history l <> []
             /\ forall v, In v (Line.history l) -> isPreInsertion v = false) ->
  (forall l, In l (Block.lines b) -> Line.isInserted l = true ->
             exists pre first rest,
               Line.history l = pre :: first :: rest
               /\ isPreInsertion pre = true
               /\ forall v, In v (first :: rest) -> isPreInsertion v = false) ->
  1 <= Block.getOriginalLineCount b ->
  Block.getUserVersionCount b = zlength (Block.getTimeline b).
Proof.
  intros Hnodes Hids Hdup Horiginal Hinserted Hone.
  destruct (count_kept b Hnodes Hids Hdup Horiginal Hinserted (Block.lines b))
    as [Hsum Hmin]; [auto|].
  unfold Block.getUserVersionCount, Block.getVersionCount, Block.getLineCount,
    Block.getTimeline, Block.getVersions, zlength in *.
  rewrite length_skipn, sort_by_length.
  pose proof (zlength_filter_split Line.isInserted (Block.lines b)) as Hsplit.
  unfold Block.getOriginalLineCount, zlength in *.
  lia.
Qed.

Lemma getUserVersionCount_is_the_length_of_the_timeline_witness :
  Block.getUserVersionCount inserted = zlength (Block.getTimeline inserted).
Proof.
  apply getUserVersionCount_is_the_length_of_the_timeline.
  - vm_compute.
    repeat (constructor;
            [ simpl; intro H; repeat (destruct H as [H | H]; [discriminate H|]); exact H | ]).
    constructor.
  - intros l v Hl. vm_compute in Hl.
    destruct Hl as [<- | [<- | [<- | [<- | []]]]]; simpl; intro Hv;
      repeat (destruct Hv as [<- | Hv]; [reflexivity|]); destruct Hv.
  - intros l Hl. vm_compute in Hl.
    destruct Hl as [<- | [<- | [<- | [<- | []]]]]; simpl;
      repeat (constructor;
              [ simpl; intro H; repeat (destruct H as [H | H]; [discriminate H|]); exact H | ]);
      constructor.
  - intros l Hl. vm_compute in Hl.
    destruct Hl as [<- | [<- | [<- | [<- | []]]]]; simpl; intro Ho; try discriminate Ho;
      (split; [discriminate|]);
      intros v Hv; repeat (destruct Hv as [<- | Hv]; [reflexivity|]); destruct Hv.
  - intros l Hl. vm_compute in Hl.
    destruct Hl as [<- | [<- | [<- | [<- | []]]]]; simpl; intro Hi; try discriminate Hi.
    do 3 eexists. split; [reflexivity|]. split; [reflexivity|].
    intros v Hv. repeat (destruct Hv as [<- | Hv]; [reflexivity|]). destruct Hv.
  - vm_compute. discriminate.
Defined.

(* ================================================================== *)
(** ** The text of a block *)
(* ================================================================== *)

Section MapFacts.
Context {V : Type}.

Lemma map_get_set (m : list (Z * V)) (k k' : Z) (v : V) :
  map_get (map_set m k v) k' = if k' =? k then Some v else map_get m k'.
Proof.
  unfold map_get. induction m as [|kv m IH]; simpl.
  - rewrite (Z.eqb_sym k k'). destruct (k' =? k); reflexivity.
  - destruct (Z.eqb_spec (fst kv) k) as [E | E]; simpl.
    + rewrite (Z.eqb_sym k k'). destruct (Z.eqb_spec k' k) as [E' | E']; [reflexivity|].
      destruct (Z.eqb_spec (fst kv) k') as [E'' | _]; [congruence | reflexivity].
    + destruct (Z.eqb_spec (fst kv) k') as [E' | _].
      * destruct (Z.eqb_spec k' k) as [E'' | _]; [congruence | reflexivity].
      * exact IH.
Qed.
End MapFacts.

(** The [Map] the heads of a block are written into. *)
Lemma collected_other (vs : list Version) (m : list (Z * Version)) (key : Z) :
  (forall v, In v vs -> lineId v <> key) ->
  map_get (fold_left (fun m v => map_set m (lineId v) v) vs m) key = map_get m key.
Proof.
  revert m. induction vs as [|a vs IH]; intros m H; simpl; [reflexivity|].
  rewrite IH by (intros v Hv; apply H; right; exact Hv).
  rewrite map_get_set. destruct (Z.eqb_spec key (lineId a)) as [E | _]; [|reflexivity].
  exfalso. apply (H a); [left; reflexivity | congruence].
Qed.

Lemma collected_head (vs : list Version) (m : list (Z * Version)) (h : Version) :
  NoDup (map lineId vs) -> In h vs ->
  map_get (fold_left (fun m v => map_set m (lineId v) v) vs m) (lineId h) = Some h.
Proof.
  revert m. induction vs as [|a vs IH]; intros m Hnd Hin; [destruct Hin|].
  simpl. inversion Hnd as [|? ? Hnotin Hnd']; subst.
  destruct Hin as [-> | Hin]; [|apply IH; assumption].
  rewrite collected_other.
  - rewrite map_get_set, Z.eqb_refl. reflexivity.
  - intros v Hv E. apply Hnotin. rewrite <- E. apply in_map, Hv.
Qed.

Section QKeyFacts.
Context {A : Type}.
Variable key : A -> Q.

Lemma strictly_sorted_unique_Q (l1 l2 : list A) :
  StronglySorted (fun a b => key a < key b)%Q l1 ->
  StronglySorted (fun a b => key a < key b)%Q l2 ->
  (forall x, In x l1 <-> In x l2) ->
  l1 = l2.
Proof.
  revert l2. induction l1 as [|a l1 IH]; intros l2 H1 H2 Hiff.
  - destruct l2 as [|b l2]; [reflexivity|].
    exfalso. apply (proj2 (Hiff b)). left; reflexivity.
  - destruct l2 as [|b l2].
    + exfalso. apply (proj1 (Hiff a)). left; reflexivity.
    + inversion H1 as [|? ? H1' Ha]; subst. inversion H2 as [|? ? H2' Hb]; subst.
      rewrite Forall_forall in Ha, Hb.
      assert (a = b) as ->.
      { destruct (proj1 (Hiff a) (or_introl eq_refl)) as [Hab | Hab]; [auto|].
        destruct (proj2 (Hiff b) (or_introl eq_refl)) as [Hba | Hba]; [auto|].
        specialize (Ha _ Hba). specialize (Hb _ Hab).
        exfalso. apply (Qlt_irrefl (key a)). eapply Qlt_trans; eassumption. }
      f_equal. apply IH; auto.
      intro x. split; intro Hx.
      * destruct (proj1 (Hiff x) (or_intror Hx)) as [<- | Hin]; [|exact Hin].
        specialize (Ha _ Hx). exfalso. apply (Qlt_irrefl _ Ha).
      * destruct (proj2 (Hiff x) (or_intror Hx)) as [<- | Hin]; [|exact Hin].
        specialize (Hb _ Hx). exfalso. apply (Qlt_irrefl _ Hb).
Qed.

Lemma sorted_strict_Q (l : list A) :
  StronglySorted (fun a b => Qle_bool (key a) (key b) = true) l ->
  NoDup l ->
  (forall a b, In a l -> In b l -> (key a == key b)%Q -> a = b) ->
  StronglySorted (fun a b => key a < key b)%Q l.
Proof.
  induction 1 as [|a l Hs IH Ha]; intros Hnd Hinj; constructor;
    inversion Hnd as [|? ? Hnotin Hnd']; subst.
  - apply IH; [exact Hnd'|]. intros x y Hx Hy. apply Hinj; right; assumption.
  - rewrite Forall_forall in *. intros x Hx.
    specialize (Ha _ Hx). apply Qle_bool_iff in Ha.
    apply Qle_lteq in Ha as [Hlt | Heq]; [exact Hlt|].
    exfalso. apply Hnotin. rewrite (Hinj a x); auto; [left; reflexivity | right; exact Hx].
Qed.
End QKeyFacts.

Lemma StronglySorted_map {A B} (f : A -> B) (R : B -> B -> Prop) (l : list A) :
  StronglySorted (fun a b => R (f a) (f b)) l -> StronglySorted R (map f l).
Proof.
  induction 1 as [|a l Hs IH Ha]; simpl; constructor; [exact IH|].
  rewrite Forall_forall in *. intros y Hy. apply in_map_iff in Hy as (x & <- & Hx). auto.
Qed.

Lemma NoDup_map_coarser {A K L} (k : A -> K) (f : A -> L) (l : list A) :
  NoDup (map k l) ->
  (forall a b, In a l -> In b l -> f a = f b -> k a = k b) ->
  NoDup (map f l).
Proof.
  induction l as [|a l IH]; simpl; intros Hnd Hinj; [constructor|].
  inversion Hnd as [|? ? Hnotin Hnd']; subst. constructor.
  - intro Hin. apply in_map_iff in Hin as (b & Hb & Hin).
    apply Hnotin. rewrite (Hinj a b); auto. apply in_map, Hin.
  - apply IH; auto.
Qed.

Lemma NoDup_map_filter_gen {A K} (k : A -> K) (f : A -> bool) (l : list A) :
  NoDup (map k l) -> NoDup (map k (filter f l)).
Proof.
  induction l as [|a l IH]; simpl; intro Hnd; [constructor|].
  inversion Hnd as [|? ? Hnotin Hnd']; subst.
  destruct (f a); simpl; auto. constructor; auto.
  intro Hin. apply Hnotin. apply in_map_iff in Hin as (x & Hx & Hin).
  apply filter_In in Hin as [Hin _]. rewrite <- Hx. apply in_map, Hin.
Qed.

(** With versions told apart by line and timestamp, a block has one head on
    every line. *)
Lemma getHeads_NoDup (s : Store.t) (this : BlockRow.t) :
  NoDup (map (fun v => (lineId v, timestamp v)) (Store.versions s)) ->
  NoDup (map lineId (BlockProxy.getHeads s this)).
Proof.
  intro Hkeys. unfold BlockProxy.getHeads.
  eapply Permutation_NoDup.
  { apply Permutation_map, Permutation_sym, sort_by_perm. }
  apply (NoDup_map_coarser (fun v => (lineId v, timestamp v))).
  - apply NoDup_map_filter_gen, Hkeys.
  - intros a b Ha Hb Hl. f_equal; [exact Hl|].
    apply (getHeads_same_timestamp s this); [| |exact Hl];
      unfold BlockProxy.getHeads; apply sort_by_In; assumption.
Qed.

Lemma line_of_id (s : Store.t) (l : LineRow.t) :
  NoDup (map LineRow.id (Store.lines s)) -> In l (Store.lines s) ->
  Store.line_of s (LineRow.id l) = Some l.
Proof.
  unfold Store.line_of. induction (Store.lines s) as [|a ls IH]; simpl; intros Hnd Hin;
    [destruct Hin|].
  inversion Hnd as [|? ? Hnotin Hnd']; subst.
  destruct Hin as [-> | Hin]; [rewrite Z.eqb_refl; reflexivity|].
  destruct (Z.eqb_spec (LineRow.id a) (LineRow.id l)) as [E | _]; [|apply IH; assumption].
  exfalso. apply Hnotin. rewrite E. apply in_map, Hin.
Qed.

Lemma map_result_Ok {A B} (f : A -> Result B) (g : A -> B) (l : list A) :
  (forall x, In x l -> f x = Ok (g x)) -> map_result f l = Ok (map g l).
Proof.
  induction l as [|a l IH]; simpl; intro H; [reflexivity|].
  rewrite (H a (or_introl eq_refl)). simpl.
  rewrite IH by (intros x Hx; apply H; right; exact Hx). reflexivity.
Qed.

Lemma map_result_map {A B C} (f : B -> Result C) (g : A -> B) (l : list A) :
  map_result f (map g l) = map_result (fun x => f (g x)) l.
Proof. induction l as [|a l IH]; simpl; [reflexivity | rewrite IH; reflexivity]. Qed.

Lemma map_result_Throw {A B} (f : A -> Result B) (e : Exception) (l : list A) (x : A) :
  (forall y, In y l -> (exists r, f y = Ok r) \/ f y = Throw e) ->
  In x l -> f x = Throw e -> map_result f l = Throw e.
Proof.
  induction l as [|a l IH]; simpl; intros H Hin Hx; [destruct Hin|].
  destruct (H a (or_introl eq_refl)) as [[r Hr] | Hr]; rewrite Hr; simpl; [|reflexivity].
  destruct Hin as [-> | Hin]; [congruence|].
  rewrite IH; auto.
Qed.

Lemma active_contents (hs : list Version) :
  flat_map (fun c : option string => match c with Some c => [c] | None => [] end)
           (map (fun h => if isActive h then Some (content h) else None) hs)
  = map content (filter isActive hs).
Proof.
  induction hs as [|h hs IH]; simpl; [reflexivity|].
  destruct (isActive h); simpl; rewrite IH; reflexivity.
Qed.

Section LeafText.
Variable s : Store.t.
Variable this : BlockRow.t.
Hypothesis Hleaf : BlockProxy.getChildren s this = [].

Lemma getVersionsForText_leaf (fuel : nat) :
  BlockProxy.getVersionsForText (S fuel) s this None None
  = Some (Ok (fold_left (fun m v => map_set m (lineId v) v) (BlockProxy.getHeads s this) [])).
Proof. simpl. rewrite Hleaf. reflexivity. Qed.

Hypothesis Hlines : NoDup (map LineRow.id (Store.lines s)).
Hypothesis Hkeys : NoDup (map (fun v => (lineId v, timestamp v)) (Store.versions s)).
Hypothesis Hclaim :
  forall l, In l (Store.lines s) -> BlockProxy.line_in_block s this l = true ->
            LineRow.fileId l = BlockRow.fileId this
            /\ exists v, In v (Store.versions s) /\ lineId v = LineRow.id l.
Hypothesis Horder :
  forall l1 l2, In l1 (Store.lines s) -> In l2 (Store.lines s) ->
                BlockProxy.line_in_block s this l1 = true ->
                BlockProxy.line_in_block s this l2 = true ->
                (LineRow.order l1 == LineRow.order l2)%Q -> l1 = l2.

Lemma head_line (h : Version) :
  In h (BlockProxy.getHeads s this) ->
  Store.line_of s (lineId h) = Some (lineOf s h)
  /\ In (lineOf s h) (Store.lines s)
  /\ BlockProxy.line_in_block s this (lineOf s h) = true
  /\ LineRow.id (lineOf s h) = lineId h.
Proof.
  intro Hh. destruct (getHeads_head_at s this h Hh) as (Hon & _).
  unfold BlockProxy.on_file_block_line in Hon. unfold lineOf.
  destruct (Store.line_of s (lineId h)) as [l|] eqn:E; [|discriminate].
  unfold BlockProxy.line_in_file_block in Hon. apply andb_true_iff in Hon as [_ Hon].
  unfold Store.line_of in E. apply find_some in E as [Hin Hid]. apply Z.eqb_eq in Hid.
  auto.
Qed.

(** The lines of the block are the lines of its heads, in the same order. *)
Lemma getLines_heads :
  BlockProxy.getLines s this = map (lineOf s) (BlockProxy.getHeads s this).
Proof.
  apply (strictly_sorted_unique_Q LineRow.order).
  - apply sorted_strict_Q.
    + unfold BlockProxy.getLines.
      apply (sort_by_sorted line_order_asc).
      * intros a b. apply Qle_bool_total.
      * intros a b c. apply Qle_bool_trans.
    + unfold BlockProxy.getLines. eapply Permutation_NoDup.
      { apply Permutation_sym, sort_by_perm. }
      apply NoDup_filter. eapply NoDup_of_map, Hlines.
    + intros a b Ha Hb. unfold BlockProxy.getLines in Ha, Hb.
      apply sort_by_In, filter_In in Ha as [Ha Hca], Hb as [Hb Hcb].
      apply Horder; assumption.
  - apply StronglySorted_map.
    assert (Hs : StronglySorted (fun a b => BlockProxy.order_asc s a b = true)
                                (BlockProxy.getHeads s this)).
    { unfold BlockProxy.getHeads.
      apply (sort_by_sorted _ (order_asc_total s) (order_asc_trans s)). }
    pose proof (getHeads_NoDup s this Hkeys) as Hnd.
    assert (Hall : forall h, In h (BlockProxy.getHeads s this) ->
                             In h (BlockProxy.getHeads s this)) by auto.
    revert Hs Hnd Hall. generalize (BlockProxy.getHeads s this) at 1 2 3 5. intro hs.
    induction 1 as [|a hs Hs IH Ha]; intros Hnd Hall; constructor;
      inversion Hnd as [|? ? Hnotin Hnd']; subst.
    + apply IH; [exact Hnd'|]. intros h Hh. apply Hall. right. exact Hh.
    + rewrite Forall_forall in *. intros x Hx.
      specialize (Ha _ Hx). unfold BlockProxy.order_asc, Store.order_of in Ha.
      destruct (head_line a (Hall a (or_introl eq_refl))) as (La & Lina & Lca & Lida).
      destruct (head_line x (Hall x (or_intror Hx))) as (Lx & Linx & Lcx & Lidx).
      rewrite La, Lx in Ha. apply Qle_bool_iff in Ha.
      apply Qle_lteq in Ha as [Hlt | Heq]; [exact Hlt|].
      exfalso. apply Hnotin.
      rewrite <- Lida, (Horder _ _ Lina Linx Lca Lcx Heq), Lidx. apply in_map, Hx.
  - intro l. unfold BlockProxy.getLines. rewrite sort_by_In, filter_In, in_map_iff. split.
    + intros [Hl Hc]. destruct (Hclaim l Hl Hc) as (Hf & v & Hv & Hvl).
      assert (Hon : BlockProxy.on_file_block_line s this v = true).
      { unfold BlockProxy.on_file_block_line. rewrite Hvl, (line_of_id s l Hlines Hl).
        unfold BlockProxy.line_in_file_block. rewrite Hf, Z.eqb_refl. exact Hc. }
      destruct (getHeads_covers s this v Hv Hon) as (h & Hh & Hhl).
      exists h. split; [|exact Hh].
      unfold lineOf. rewrite Hhl, Hvl, (line_of_id s l Hlines Hl). reflexivity.
    + intros (h & <- & Hh). destruct (head_line h Hh) as (_ & Hin & Hc & _). auto.
Qed.

End LeafText.

(** X19 -- The text of a block without children: [getText] joins the
    contents of the active heads, in the order of the lines, with the line
    break of the file; for unique line ids, one version per line and
    timestamp, and claimed lines that lie in the file of the block, have a
    version and have different order keys. *)
Theorem getText_leaf (s : Store.t) (this : BlockRow.t) (eol : string) (fuel : nat) :
  BlockProxy.getChildren s this = [] ->
  NoDup (map LineRow.id (Store.lines s)) ->
  NoDup (map (fun v => (lineId v, timestamp v)) (Store.versions s)) ->
  (forall l, In l (Store.lines s) -> BlockProxy.line_in_block s this l = true ->
             LineRow.fileId l = BlockRow.fileId this
             /\ exists v, In v (Store.versions s) /\ lineId v = LineRow.id l) ->
  (forall l1 l2, In l1 (Store.lines s) -> In l2 (Store.lines s) ->
                 BlockProxy.line_in_block s this l1 = true ->
                 BlockProxy.line_in_block s this l2 = true ->
                 (LineRow.order l1 == LineRow.order l2)%Q -> l1 = l2) ->
  FileProxy.getEol s (BlockRow.fileId this) = Ok eol ->
  BlockProxy.getText (S fuel) s this None
  = Some (Ok (Str.join eol (map content (filter isActive (BlockProxy.getHeads s this))))).
Proof.
  intros Hleaf Hlines Hkeys Hclaim Horder Heol.
  unfold BlockProxy.getText. rewrite Heol, (getVersionsForText_leaf s this Hleaf).
  rewrite (getLines_heads s this Hlines Hkeys Hclaim Horder), map_result_map.
  rewrite (map_result_Ok _ (fun h => if isActive h then Some (content h) else None)).
  - simpl. rewrite active_contents. reflexivity.
  - intros h Hh. destruct (head_line s this h Hh) as (_ & _ & _ & Hid). rewrite Hid.
    rewrite (collected_head _ _ h (getHeads_NoDup s this Hkeys) Hh). reflexivity.
Qed.

Lemma getText_leaf_witness :
  BlockProxy.getText 1 scrubbedBack (proxy scrubbedBack 1) None
  = Some (Ok (Str.join LF ["x"; "y"; "z"])).
Proof.
  rewrite (getText_leaf scrubbedBack (proxy scrubbedBack 1)) with (eol := LF).
  - vm_compute. reflexivity.
  - vm_compute. reflexivity.
  - vm_compute.
    repeat (constructor;
            [ simpl; intro H; repeat (destruct H as [H | H]; [discriminate H|]); exact H | ]).
    constructor.
  - vm_compute.
    repeat (constructor;
            [ simpl; intro H; repeat (destruct H as [H | H]; [discriminate H|]); exact H | ]).
    constructor.
  - intros l Hl Hc. vm_compute in Hl.
    destruct Hl as [<- | [<- | [<- | [<- | []]]]]; (split; [reflexivity|]).
    + exists (imported 1 1 1 "x"). vm_compute. auto.
    + exists (imported 2 2 2 "y"). vm_compute. auto.
    + exists (imported 3 3 3 "z"). vm_compute. auto 6.
    + exists (mkVersion 4 4 4 PRE_INSERTION false "" (Some 1) None). vm_compute. auto 6.
  - intros l1 l2 H1 H2 _ _. vm_compute in H1, H2.
    destruct H1 as [<- | [<- | [<- | [<- | []]]]];
      destruct H2 as [<- | [<- | [<- | [<- | []]]]];
      intro E; try reflexivity; vm_compute in E; discriminate E.
  - vm_compute. reflexivity.
Defined.

Lemma collected_keys (vs : list Version) (m : list (Z * Version)) (key : Z) :
  map_get (fold_left (fun m v => map_set m (lineId v) v) vs m) key <> None ->
  map_get m key <> None \/ exists v, In v vs /\ lineId v = key.
Proof.
  intro H. destruct (existsb (fun v => lineId v =? key) vs) eqn:E.
  - right. apply existsb_exists in E as (v & Hv & E). apply Z.eqb_eq in E. eauto.
  - left. rewrite collected_other in H; [exact H|].
    intros v Hv Hk.
    assert (Et : existsb (fun v => lineId v =? key) vs = true)
      by (apply existsb_exists; exists v; split; [exact Hv | apply Z.eqb_eq, Hk]).
    congruence.
Qed.

Lemma findCloneOf_Throw (this : BlockRow.t) (clones : list BlockRow.t) (e : Exception) :
  BlockProxy.findCloneOf this clones = Throw e -> e = TypeError.
Proof.
  induction clones as [|c r IH]; simpl; [discriminate|].
  destruct (BlockRow.originId c) as [o|]; [|congruence].
  destruct (o =? BlockRow.id this); [discriminate | exact IH].
Qed.

Lemma collects_trans (s : Store.t) (b1 b2 : list (Z * Version))
      (r : Result (list (Z * Version))) :
  (forall key, map_get b2 key <> None ->
               map_get b1 key <> None \/ exists v, In v (Store.versions s) /\ lineId v = key) ->
  collects s b2 r -> collects s b1 r.
Proof.
  intros H12. destruct r as [M|e]; simpl; [|auto].
  intros HM key Hk. destruct (HM key Hk) as [H | H]; [apply H12, H | right; exact H].
Qed.

(** What [getVersionsForText] hands back holds versions of the store, on top
    of what was collected before; what it throws is a [TypeError]. *)
Lemma getVersionsForText_collects (s : Store.t) (clones : option (list BlockRow.t))
      (fuel : nat) :
  forall this collected r,
    BlockProxy.getVersionsForText fuel s this clones collected = Some r ->
    collects s (match collected with Some m => m | None => [] end) r.
Proof.
  induction fuel as [|fuel IH]; intros this collected r H; [discriminate|].
  cbn [BlockProxy.getVersionsForText] in H.
  destruct (match clones with
            | Some cs => BlockProxy.findCloneOf this cs
            | None => Ok None
            end) as [[clone|]|e] eqn:Ec.
  - apply IH in H. exact H.
  - set (base := match collected with Some m => m | None => [] end) in *.
    set (M0 := fold_left _ (BlockProxy.getHeads s this) base) in H.
    assert (H0 : forall key, map_get M0 key <> None ->
                             map_get base key <> None
                             \/ exists v, In v (Store.versions s) /\ lineId v = key).
    { intros key Hk. apply collected_keys in Hk as [Hk | (v & Hv & Hk)]; [left; exact Hk|].
      right. exists v. split; [eapply getHeads_In, Hv | exact Hk]. }
    apply (collects_trans s base M0 r H0). clear H0.
    revert H. generalize M0. generalize (BlockProxy.getChildren s this).
    intro children. induction children as [|child rest IHc]; intros M H.
    + injection H as <-. simpl. auto.
    + destruct (BlockProxy.getVersionsForText fuel s child clones (Some M)) as [[M'|e]|] eqn:Ech.
      * apply IH in Ech. simpl in Ech. apply IHc in H.
        apply (collects_trans s M M' r Ech H).
      * injection H as <-. apply IH in Ech. exact Ech.
      * discriminate.
  - injection H as <-. simpl. destruct clones as [cs|]; [|discriminate].
    eapply findCloneOf_Throw, Ec.
Qed.

(** X20 -- [getText] has no text for a block that claims a line without a
    version: it reads [isActive] of the missing entry of the map, so whenever
    it returns it ends in a TypeError, and a block without children does
    return. *)
Theorem getText_of_a_line_without_version
        (s : Store.t) (this : BlockRow.t) (clonesToConsider : option (list BlockRow.t))
        (eol : string) (l : LineRow.t) (fuel : nat) :
  FileProxy.getEol s (BlockRow.fileId this) = Ok eol ->
  In l (Store.lines s) -> BlockProxy.line_in_block s this l = true ->
  (forall v, In v (Store.versions s) -> lineId v <> LineRow.id l) ->
  (BlockProxy.getText fuel s this clonesToConsider = None
   \/ BlockProxy.getText fuel s this clonesToConsider = Some (Throw TypeError))
  /\ (BlockProxy.getChildren s this = [] ->
      BlockProxy.getText (S fuel) s this None = Some (Throw TypeError)).
Proof.
  intros Heol Hl Hc Hnone.
  assert (Hgen : forall fuel clones,
             BlockProxy.getText fuel s this clones = None
             \/ BlockProxy.getText fuel s this clones = Some (Throw TypeError)).
  { intros fuel' clones. unfold BlockProxy.getText. rewrite Heol.
    destruct (BlockProxy.getVersionsForText fuel' s this clones None) as [[M|e]|] eqn:E;
      [| |left; reflexivity]; right; apply getVersionsForText_collects in E; simpl in E.
    - f_equal.
      rewrite (map_result_Throw _ TypeError _ l); [reflexivity| | |].
      + intros y _. destruct (map_get M (LineRow.id y)); [left; eauto | right; reflexivity].
      + unfold BlockProxy.getLines. apply sort_by_In, filter_In. auto.
      + destruct (map_get M (LineRow.id l)) as [found|] eqn:Eg; [|reflexivity].
        exfalso. destruct (E (LineRow.id l)) as [H | (w & Hw & Hk)].
        * congruence.
        * apply H. reflexivity.
        * eapply Hnone; eauto.
    - subst e. reflexivity. }
  split; [apply Hgen|].
  intro Hleaf. destruct (Hgen (S fuel) None) as [H | H]; [exfalso | exact H].
  unfold BlockProxy.getText in H. rewrite Heol, (getVersionsForText_leaf s this Hleaf) in H.
  discriminate H.
Qed.

Lemma getText_of_a_line_without_version_witness :
  BlockProxy.getText 1 orphaned (proxy orphaned 1) None = Some (Throw TypeError).
Proof.
  apply (getText_of_a_line_without_version orphaned (proxy orphaned 1) None LF
           (LineRow.mk 4 1 (4 # 1)) 0).
  - reflexivity.
  - vm_compute. auto 6.
  - vm_compute. reflexivity.
  - intros v Hv. vm_compute in Hv.
    repeat (destruct Hv as [<- | Hv]; [vm_compute; discriminate|]). destruct Hv.
  - vm_compute. reflexivity.
Defined.

(* ================================================================== *)
(** ** The history is only appended to *)
(* ================================================================== *)

Lemma grows_refl (s : Store.t) : grows s s.
Proof.
  split; [|auto]. split; [lia|]. exists []. rewrite app_nil_r. split; [reflexivity|].
  intros v [].
Qed.

Lemma grows_trans (s1 s2 s3 : Store.t) : grows s1 s2 -> grows s2 s3 -> grows s1 s3.
Proof.
  intros [[Hc1 (a1 & E1 & B1)] W1] [[Hc2 (a2 & E2 & B2)] W2].
  split; [|auto]. split; [lia|]. exists (a1 ++ a2)%list. split.
  - rewrite E2, E1, app_assoc. reflexivity.
  - intros v Hv. apply in_app_or in Hv as [Hv | Hv].
    + apply B1 in Hv. lia.
    + apply B2 in Hv. lia.
Qed.

Lemma grows_frame (s s' : Store.t) :
  Store.versions s' = Store.versions s -> Store.clock s' = Store.clock s -> grows s s'.
Proof.
  intros Hv Hc. split.
  - split; [lia|]. exists []. rewrite app_nil_r. split; [exact Hv|]. intros v [].
  - unfold well_formed_versions. rewrite Hv, Hc. auto.
Qed.

(** Versions with new ids and later timestamps, pairwise different in both,
    can be put behind a well-formed history. *)
Lemma grows_added (s s' : Store.t) (added : list Version) :
  Store.versions s' = (Store.versions s ++ added)%list ->
  Store.clock s <= Store.clock s' ->
  (forall v, In v added -> Store.clock s < timestamp v <= Store.clock s') ->
  (forall v, In v added -> Store.fresh_id (map id (Store.versions s)) <= id v) ->
  NoDup (map id added) ->
  (NoDup (map (fun v => (lineId v, timestamp v)) (Store.versions s)) ->
   NoDup (map (fun v => (lineId v, timestamp v)) added)) ->
  grows s s'.
Proof.
  intros Hv Hc Hts Hids Hnd Hkeys. split.
  - split; [exact Hc|]. exists added. auto.
  - intros (W1 & W2 & W3). unfold well_formed_versions. rewrite Hv, !map_app. repeat split.
    + apply NoDup_app; [exact W1 | exact Hnd |].
      intros a Ha Hb. apply in_map_iff in Hb as (v & <- & Hb).
      apply Hids in Hb. apply fresh_id_above in Ha. lia.
    + apply NoDup_app; [exact W2 | auto |].
      intros a Ha Hb. apply in_map_iff in Ha as (v & <- & Ha).
      apply in_map_iff in Hb as (w & Hw & Hb). injection Hw as _ Hw.
      apply W3 in Ha. apply Hts in Hb. lia.
    + intros v Hin. apply in_app_or in Hin as [Hin | Hin].
      * apply W3 in Hin. lia.
      * apply Hts in Hin. lia.
Qed.

Lemma newVersion_grows (s : Store.t) (this : BlockRow.t) (line : LineRow.t)
      (ty : VersionType) (act : bool) (c : string) :
  grows s (snd (BlockProxy.newVersion s this line ty act c)).
Proof.
  unfold BlockProxy.newVersion, TimestampProvider.getTimestamp. cbn [snd].
  eapply grows_added; [reflexivity | | | | |]; simpl.
  - lia.
  - intros v [<- | []]. simpl. lia.
  - intros v [<- | []]. simpl. lia.
  - constructor; [intros [] | constructor].
  - intros _. constructor; [intros [] | constructor].
Qed.

Lemma fold_grows {A : Type} (f : Z * Store.t -> A -> Z * Store.t) (l : list A) :
  (forall acc x, grows (snd acc) (snd (f acc x))) ->
  forall acc, grows (snd acc) (snd (fold_left f l acc)).
Proof.
  intro Hf. induction l as [|x l IH]; intro acc; simpl; [apply grows_refl|].
  eapply grows_trans; [apply Hf | apply IH].
Qed.

Lemma setTimestamp_grows (s : Store.t) (this : BlockRow.t) (t : Z) :
  grows s (BlockProxy.setTimestamp s this t).
Proof. apply grows_frame; reflexivity. Qed.

Lemma connect_versions (s : Store.t) (b l : Z) :
  Store.versions (Store.connect s b l) = Store.versions s
  /\ Store.clock (Store.connect s b l) = Store.clock s.
Proof. unfold Store.connect. destruct (Store.connected s b l); split; reflexivity. Qed.

Lemma addBlocks_grows (s : Store.t) (line : Z) (headInfo : list (BlockRow.t * Version)) :
  grows s (LineProxy.addBlocks s line headInfo).
Proof.
  unfold LineProxy.addBlocks. cbv zeta.
  assert (H : forall (l : list (BlockRow.t * Version)) acc,
             Store.versions (fold_left (fun acc bv => Store.connect acc (BlockRow.id (fst bv)) line)
                                       l acc) = Store.versions acc
             /\ Store.clock (fold_left (fun acc bv => Store.connect acc (BlockRow.id (fst bv)) line)
                                       l acc) = Store.clock acc).
  { induction l as [|x l IH]; intro acc; simpl; [split; reflexivity|].
    destruct (IH (Store.connect acc (BlockRow.id (fst x)) line)) as [H1 H2].
    destruct (connect_versions acc (BlockRow.id (fst x)) line) as [H3 H4].
    split; congruence. }
  apply grows_frame; simpl; apply H.
Qed.

Lemma insertLines_from_grows (file sourceBlock : Z) (previous next : option Q) (n : Z)
      (lineContents : list string) :
  forall (k : Z) (s : Store.t),
    grows s (snd (FileProxy.insertLines_from file sourceBlock previous next n k lineContents s)).
Proof.
  induction lineContents as [|c rest IH]; intros k s; simpl; [apply grows_refl|].
  unfold TimestampProvider.getTimestamp.
  match goal with
  | |- context [FileProxy.insertLines_from file sourceBlock previous next n (k + 1) rest ?s1] =>
      pose proof (IH (k + 1) s1) as Hrest;
      destruct (FileProxy.insertLines_from file sourceBlock previous next n (k + 1) rest s1)
        as [created s2] eqn:E
  end.
  cbn [snd] in *. eapply grows_trans; [|exact Hrest].
  eapply grows_added; [reflexivity | | | | |]; simpl.
  - lia.
  - intros v [<- | [<- | []]]; simpl; lia.
  - intros v [<- | [<- | []]]; simpl; lia.
  - constructor; [intros [H | []]; lia|]. constructor; [intros [] | constructor].
  - intros _. constructor; [intros [H | []]; injection H; lia|].
    constructor; [intros [] | constructor].
Qed.

Lemma FileProxy_insertLines_grows (s : Store.t) (file : Z) (lineContents : list string)
      (previous next : option LineRow.t) (sourceBlock : BlockRow.t) :
  grows s (snd (FileProxy.insertLines s file lineContents previous next sourceBlock)).
Proof.
  unfold FileProxy.insertLines.
  pose proof (insertLines_from_grows file (BlockRow.id sourceBlock)
                (option_map LineRow.order previous) (option_map LineRow.order next)
                (zlength lineContents) lineContents 0 s) as H.
  destruct (FileProxy.insertLines_from _ _ _ _ _ _ _ _) as [created s1]. cbn [snd] in H.
  destruct (last_opt created) as [[[? ?] v1]|]; cbn [snd]; [|exact H].
  eapply grows_trans; [exact H|]. apply grows_frame; reflexivity.
Qed.

Lemma insertLines_grows (s : Store.t) (this : BlockRow.t) (lineContents : list string)
      (previous next : option LineRow.t) (blockReference : option BlockProxy.BlockReference) :
  grows s (snd (BlockProxy.insertLines s this lineContents previous next blockReference)).
Proof.
  unfold BlockProxy.insertLines.
  pose proof (FileProxy_insertLines_grows s (BlockRow.fileId this) lineContents previous next this)
    as H.
  destruct (FileProxy.insertLines _ _ _ _ _ _) as [lines s1]. cbn [snd] in H.
  destruct blockReference as [r|]; [|exact H].
  destruct (match r with
            | BlockProxy.Previous => match previous with Some p => Some p | None => next end
            | BlockProxy.Next => match next with Some n => Some n | None => previous end
            end) as [ref|]; [|exact H].
  cbn [snd]. eapply grows_trans; [exact H|].
  generalize (LineProxy.getBlocks s1 (LineRow.id ref)). intro blocks.
  clear H. generalize s1. induction lines as [|[[line v0] v1] lines IH]; intro acc; simpl.
  - apply grows_refl.
  - eapply grows_trans; [apply addBlocks_grows | apply IH].
Qed.

Lemma insertLinesAt_grows (s : Store.t) (this : BlockRow.t) (lineNumber : Z)
      (lineContents : list string) :
  grows s (snd (BlockProxy.insertLinesAt s this lineNumber lineContents)).
Proof.
  unfold BlockProxy.insertLinesAt. cbv zeta.
  destruct (_ =? 1).
  { unfold BlockProxy.prependLines.
    destruct (hd_error _) as [nextLine|]; [|apply grows_refl].
    match goal with
    | |- context [BlockProxy.insertLines s this lineContents ?p ?n ?r] =>
        pose proof (insertLines_grows s this lineContents p n r) as H;
        destruct (BlockProxy.insertLines s this lineContents p n r) as [lines s1]
    end. exact H. }
  destruct (_ =? _).
  { unfold BlockProxy.appendLines.
    destruct (hd_error _) as [previousLine|]; [|apply grows_refl].
    match goal with
    | |- context [BlockProxy.insertLines s this lineContents ?p ?n ?r] =>
        pose proof (insertLines_grows s this lineContents p n r) as H;
        destruct (BlockProxy.insertLines s this lineContents p n r) as [lines s1]
    end. exact H. }
  destruct (at_index _ _) as [previousLine|]; [|apply grows_refl].
  destruct (at_index _ _) as [currentLine|]; [|apply grows_refl].
  match goal with
  | |- context [BlockProxy.insertLines s this lineContents ?p ?n ?r] =>
      pose proof (insertLines_grows s this lineContents p n r) as H;
      destruct (BlockProxy.insertLines s this lineContents p n r) as [lines s1]
  end. exact H.
Qed.

Lemma changeLines_grows (s : Store.t) (this : BlockRow.t) (change : MultiLineChange.t) :
  grows s (snd (BlockProxy.changeLines s this change)).
Proof.
  unfold BlockProxy.changeLines.
  destruct (FileProxy.getEol s (BlockRow.fileId this)) as [eol|]; [|apply grows_refl].
  cbv zeta.
  destruct (at_index _ _) as [startHead|]; [|apply grows_refl].
  assert (Hgen : forall (triple : list string * Z * Z) (noModifications : bool)
                        (activeLines : list LineRow.t),
             grows s
               (snd (let '(modifiedLines, startLine, endLine) := triple in
                     let vcsLines :=
                       if noModifications then []
                       else filter_line_numbers startLine endLine activeLines in
                     let deleted := rev (skipn (List.length modifiedLines) vcsLines) in
                     let updated := combine vcsLines modifiedLines in
                     let affectedLines := (deleted ++ map fst updated)%list in
                     let acc0 := (BlockRow.timestamp this, s) in
                     let acc1 := fold_left (BlockProxy.deleteLine this) deleted acc0 in
                     let '(latestTimestamp, s2) :=
                       fold_left (BlockProxy.updateLine this) updated acc1 in
                     let s3 := BlockProxy.setTimestamp s2 this latestTimestamp in
                     let linesToInsert := skipn (List.length vcsLines) modifiedLines in
                     match BlockProxy.insertLinesAt s3 (BlockProxy.reload s3 this)
                                                    (startLine + zlength vcsLines)
                                                    linesToInsert with
                     | (Throw e, s4) => (Throw e, s4)
                     | (Ok _, s4) =>
                         (Ok (dedup String.eqb
                                    (flat_map (fun line =>
                                                 LineProxy.getBlockIds s4 (LineRow.id line))
                                              affectedLines)), s4)
                     end))); [|apply Hgen].
  intros [[modifiedLines startLine] endLine] noModifications activeLines. cbv zeta.
  set (vcsLines := if noModifications then [] else _).
  set (acc1 := fold_left (BlockProxy.deleteLine this) _ _).
  pose proof (fold_grows (BlockProxy.deleteLine this)
                (rev (skipn (List.length modifiedLines) vcsLines))
                (fun acc x => newVersion_grows (snd acc) this x DELETION false "")
                (BlockRow.timestamp this, s)) as H1.
  fold acc1 in H1. cbn [snd] in H1.
  pose proof (fold_grows (BlockProxy.updateLine this) (combine vcsLines modifiedLines)
                (fun acc x => newVersion_grows (snd acc) this (fst x) CHANGE true (snd x))
                acc1) as H2.
  destruct (fold_left (BlockProxy.updateLine this) _ acc1) as [latestTimestamp s2].
  cbn [snd] in H2.
  match goal with
  | |- context [BlockProxy.insertLinesAt ?s3 ?b ?n ?l] =>
      pose proof (insertLinesAt_grows s3 b n l) as H3;
      destruct (BlockProxy.insertLinesAt s3 b n l) as [[lines|e] s4]
  end; cbn [snd] in *;
    (eapply grows_trans; [exact H1|]; eapply grows_trans; [exact H2|];
     eapply grows_trans; [apply setTimestamp_grows | exact H3]).
Qed.

Lemma NoDup_map_combine_seq {A : Type} (l : list A) (base : Z) :
  forall n0 : nat,
    NoDup (map (fun hk : A * nat => base + Z.of_nat (snd hk))
               (combine l (seq n0 (List.length l)))).
Proof.
  induction l as [|x l IH]; intro n0; simpl; [constructor|].
  constructor; [|apply IH].
  intro H. apply in_map_iff in H as ([y m] & E & H). simpl in E.
  apply in_combine_r, in_seq in H. lia.
Qed.

Lemma cloneOutdatedHeads_grows (s : Store.t) (this : BlockRow.t) :
  grows s (BlockProxy.cloneOutdatedHeads s this).
Proof.
  destruct (headsToClone s this) as [|h0 rest] eqn:E.
  { rewrite (cloneOutdatedHeads_nothing s this E). apply grows_refl. }
  rewrite cloneOutdatedHeads_something; [|congruence].
  eapply grows_trans; [|apply setTimestamp_grows].
  eapply grows_added; [reflexivity | | | | |]; simpl.
  - lia.
  - intros v Hv. apply clones_In in Hv as [-> _]. lia.
  - intros v Hv. unfold clones in Hv. apply in_map_iff in Hv as ([h n] & <- & _). simpl. lia.
  - unfold clones. rewrite map_map. simpl.
    apply NoDup_map_combine_seq.
  - intro Hkeys. unfold clones. rewrite map_map. simpl.
    pose proof (getHeads_NoDup s this Hkeys) as Hnd.
    assert (Hsub : NoDup (map lineId (headsToClone s this))).
    { unfold headsToClone. apply NoDup_map_filter_gen, Hnd. }
    revert Hsub. generalize (headsToClone s this). intros l Hl. generalize 0%nat.
    induction l as [|x l IH]; intro n0; simpl; [constructor|].
    inversion Hl as [|? ? Hx Hl']; subst. constructor; [|apply IH, Hl'].
    intro H. apply in_map_iff in H as ([y m] & Ey & H). simpl in Ey.
    apply in_combine_l in H. apply Hx, in_map_iff. exists y. split; [congruence | exact H].
Qed.

Lemma applyIndex_grows (s : Store.t) (this : BlockRow.t) (i : Z) :
  grows s (snd (BlockProxy.applyIndex s this i)).
Proof.
  unfold BlockProxy.applyIndex. cbv zeta.
  destruct (_ || _); [apply grows_refl|].
  destruct (at_index _ _); [apply setTimestamp_grows | apply grows_refl].
Qed.

(** X22 -- The history is only appended to.  From a store with well-formed
    versions, [changeLines], [insertLinesAt], [cloneOutdatedHeads] and
    [applyIndex] keep every version in place, put the new ones behind them
    with timestamps later than any handed out before, and leave the versions
    well formed.  (The versions of a new line are those of
    [FileProxy.insertLines].) *)
Theorem history_is_only_appended_to (s : Store.t) (this : BlockRow.t) :
  well_formed_versions s ->
  (forall change,
      extends_history s (snd (BlockProxy.changeLines s this change))
      /\ well_formed_versions (snd (BlockProxy.changeLines s this change)))
  /\ (forall lineNumber lineContents,
         extends_history s (snd (BlockProxy.insertLinesAt s this lineNumber lineContents))
         /\ well_formed_versions (snd (BlockProxy.insertLinesAt s this lineNumber lineContents)))
  /\ (extends_history s (BlockProxy.cloneOutdatedHeads s this)
      /\ well_formed_versions (BlockProxy.cloneOutdatedHeads s this))
  /\ (forall index,
         extends_history s (snd (BlockProxy.applyIndex s this index))
         /\ well_formed_versions (snd (BlockProxy.applyIndex s this index))).
Proof.
  intro W. split; [|split; [|split]].
  - intro change. split; [apply changeLines_grows | apply changeLines_grows, W].
  - intros lineNumber lineContents.
    split; [apply insertLinesAt_grows | apply insertLinesAt_grows, W].
  - split; [apply cloneOutdatedHeads_grows | apply cloneOutdatedHeads_grows, W].
  - intro index. split; [apply applyIndex_grows | apply applyIndex_grows, W].
Qed.

Lemma history_is_only_appended_to_witness :
  well_formed_versions loaded
  /\ extends_history loaded (snd (BlockProxy.changeLines loaded (proxy loaded 1) editLine2))
  /\ well_formed_versions (snd (BlockProxy.changeLines loaded (proxy loaded 1) editLine2))
  /\ Store.versions (snd (BlockProxy.changeLines loaded (proxy loaded 1) editLine2))
     <> Store.versions loaded.
Proof.
  assert (W : well_formed_versions loaded).
  { unfold well_formed_versions. vm_compute.
    repeat split;
      try (repeat (constructor;
                   [ simpl; intro H; repeat (destruct H as [H | H]; [discriminate H|]); exact H
                   | ]); constructor).
    intros v Hv. repeat (destruct Hv as [<- | Hv]; [discriminate|]). destruct Hv. }
  split; [exact W|].
  destruct (history_is_only_appended_to loaded (proxy loaded 1) W) as [H _].
  destruct (H editLine2) as [H1 H2].
  split; [exact H1|]. split; [exact H2|]. vm_compute. discriminate.
Defined.

(* ================================================================== *)
(** ** An edit within one line *)
(* ================================================================== *)

Lemma filter_line_numbers_from_above {A} (l : list A) :
  forall n lo hi, hi < n -> filter_line_numbers_from n lo hi l = [].
Proof.
  induction l as [|x l IH]; intros n lo hi H; simpl; [reflexivity|].
  rewrite (IH (n + 1) lo hi) by lia.
  replace (n <=? hi) with false by (symmetry; apply Z.leb_gt; lia).
  rewrite andb_false_r. reflexivity.
Qed.

Lemma filter_line_numbers_from_single {A} (l : list A) (x : A) (n : Z) :
  forall k, at_index l (n - k) = Some x -> filter_line_numbers_from k n n l = [x].
Proof.
  induction l as [|a l IH]; intros k H.
  - unfold at_index in H. destruct (n - k <? 0); [discriminate|].
    destruct (Z.to_nat (n - k)); discriminate.
  - assert (Hk : 0 <= n - k).
    { unfold at_index in H. destruct (n - k <? 0) eqn:E; [discriminate|].
      apply Z.ltb_ge in E. exact E. }
    simpl. destruct (Z.eq_dec k n) as [-> | Hne].
    + rewrite Z.leb_refl. simpl. rewrite filter_line_numbers_from_above by lia.
      rewrite Z.sub_diag in H. unfold at_index in H. simpl in H. congruence.
    + replace (n <=? k) with false by (symmetry; apply Z.leb_gt; lia). simpl.
      apply IH. rewrite at_index_cons in H by lia.
      replace (n - (k + 1)) with (n - k - 1) by lia. exact H.
Qed.

Lemma filter_line_numbers_single {A} (l : list A) (x : A) (n : Z) :
  at_index l (n - 1) = Some x -> filter_line_numbers n n l = [x].
Proof. apply filter_line_numbers_from_single. Qed.

Lemma at_index_map {A B} (f : A -> B) (l : list A) (i : Z) (x : A) :
  at_index l i = Some x -> at_index (map f l) i = Some (f x).
Proof.
  unfold at_index. destruct (i <? 0); [discriminate|]. intro H.
  rewrite nth_error_map, H. reflexivity.
Qed.

(** Inserting no lines leaves the store as it is. *)
Lemma insertLines_nil (s : Store.t) (this : BlockRow.t) (previous next : option LineRow.t)
      (blockReference : option BlockProxy.BlockReference) :
  BlockProxy.insertLines s this [] previous next blockReference = ([], s).
Proof.
  unfold BlockProxy.insertLines, FileProxy.insertLines. simpl.
  destruct blockReference as [[|]|], previous, next; reflexivity.
Qed.

Lemma insertLinesAt_nil (s : Store.t) (this : BlockRow.t) (lineNumber : Z) :
  (exists l, In l (Store.lines s) /\ BlockProxy.line_in_file_block s this l = true) ->
  zlength (BlockProxy.getActiveLines s this) = BlockProxy.getActiveLineCount s this ->
  BlockProxy.insertLinesAt s this lineNumber [] = (Ok [], s).
Proof.
  intros (l & Hl & Hc) Hcount. unfold BlockProxy.insertLinesAt.
  pose proof (insertionLineNumber_clamped s this lineNumber) as (Hrange & _ & _).
  unfold BlockProxy.insertionLineNumber in Hrange. cbv zeta in Hrange.
  set (n := Z.min (Z.max lineNumber 1) (BlockProxy.getActiveLineCount s this + 1)) in *.
  assert (Hne : forall le, exists x,
             hd_error (sort_by le (filter (BlockProxy.line_in_file_block s this) (Store.lines s)))
             = Some x).
  { intro le. destruct (sort_by le _) as [|x r] eqn:E; [|simpl; eexists; reflexivity].
    apply sort_by_nil in E.
    assert (In l (filter (BlockProxy.line_in_file_block s this) (Store.lines s)))
      by (apply filter_In; auto).
    rewrite E in H. destruct H. }
  destruct (n =? 1) eqn:E1.
  - unfold BlockProxy.prependLines. destruct (Hne line_order_asc) as [x ->].
    rewrite insertLines_nil. reflexivity.
  - destruct (n =? BlockProxy.getActiveLineCount s this + 1) eqn:E2.
    + unfold BlockProxy.appendLines. destruct (Hne line_order_desc) as [x ->].
      rewrite insertLines_nil. reflexivity.
    + apply Z.eqb_neq in E1, E2.
      destruct (at_index_in_range (BlockProxy.getActiveLines s this) (n - 2)) as [p ->];
        [rewrite Hcount; lia|].
      destruct (at_index_in_range (BlockProxy.getActiveLines s this) (n - 1)) as [c ->];
        [rewrite Hcount; lia|].
      rewrite insertLines_nil. reflexivity.
Qed.

(** X23 -- An edit within one line, for a proxy in step with its row in a
    store of well-formed versions and unique line ids.  When the changed
    range starts and ends on an active line, the new text of the line is one
    line, and the inserted text neither starts nor ends with the line break
    nor ends in a line of nothing but white space (what [trim] removes, the
    no-break space included), [changeLines] writes one CHANGE version with
    the new text at the next timestamp, puts the block there, inserts nothing
    and reports the blocks that claim the line; the new version is the head
    of the line. *)
Theorem changeLines_within_one_line
        (s : Store.t) (this : BlockRow.t) (change : MultiLineChange.t) (eol : string)
        (h : Version) (line : LineRow.t) :
  Store.block_of s (BlockRow.id this) = Some this ->
  well_formed_versions s ->
  NoDup (map LineRow.id (Store.lines s)) ->
  FileProxy.getEol s (BlockRow.fileId this) = Ok eol ->
  at_index (filter (fun hl => isActive (fst hl)) (BlockProxy.getHeadsWithLines s this))
           (MultiLineChange.startLineNumber change - 1) = Some (h, line) ->
  MultiLineChange.endLineNumber change = MultiLineChange.startLineNumber change ->
  Str.split (MultiLineChange.lineText change) eol = [MultiLineChange.lineText change] ->
  Str.startsWith (MultiLineChange.insertedText change) eol = false ->
  Str.endsWith (MultiLineChange.insertedText change) eol = false ->
  (forall piece, last_opt (Str.split (MultiLineChange.insertedText change) eol) = Some piece ->
                 Str.length (Str.trim piece) <> 0) ->
  let v := mkVersion (Store.fresh_id (map id (Store.versions s))) (LineRow.id line)
                     (Store.clock s + 1) CHANGE true (MultiLineChange.lineText change)
                     (Some (BlockRow.id this)) None in
  let s' := BlockProxy.setTimestamp
              (Store.with_clock (Store.with_versions s (Store.versions s ++ [v]))
                                (Store.clock s + 1))
              this (Store.clock s + 1) in
  BlockProxy.changeLines s this change
  = (Ok (dedup String.eqb (LineProxy.getBlockIds s' (LineRow.id line))), s')
  /\ In v (BlockProxy.getHeads s' (BlockProxy.reload s' this)).
Proof.
  intros Hthis W Hlines Heol Hstart Hend Hsplit Hsw Hew Hlast v s'.
  pose proof (at_index_In _ _ _ Hstart) as Hin.
  apply filter_In in Hin as [Hin _].
  apply getHeadsWithLines_In in Hin as [Hh Hline].
  apply getHeads_iff in Hh as (Hhv & Hhon & _).
  assert (Hlid : LineRow.id line = lineId h).
  { unfold Store.line_of in Hline. apply find_some in Hline as [_ E].
    apply Z.eqb_eq in E. exact E. }
  pose proof (line_of_In _ _ _ Hline) as Hlin.
  assert (Hclaim : BlockProxy.line_in_file_block s this line = true).
  { unfold BlockProxy.on_file_block_line in Hhon. rewrite Hline in Hhon. exact Hhon. }
  assert (Hreload : BlockProxy.reload s' this = BlockRow.setTimestamp this (Store.clock s + 1)).
  { unfold s'. apply reload_setTimestamp. exact Hthis. }
  assert (Wnew : well_formed_versions s').
  { pose proof (newVersion_grows s this line CHANGE true (MultiLineChange.lineText change))
      as [_ G].
    apply (setTimestamp_grows _ this (Store.clock s + 1)). apply G, W. }
  split.
  - unfold BlockProxy.changeLines. rewrite Heol. cbv zeta. rewrite Hstart.
    rewrite Hsw, Hew, Hend, Hsplit, Z.eqb_refl.
    assert (Hblank : match last_opt (Str.split (MultiLineChange.insertedText change) eol) with
                     | Some piece => Str.length (Str.trim piece) =? 0
                     | None => false
                     end = false).
    { destruct (last_opt _) as [piece|] eqn:E; [|reflexivity].
      apply Z.eqb_neq, Hlast. reflexivity. }
    rewrite Hblank. rewrite !andb_false_r. cbn [orb andb].
    rewrite (filter_line_numbers_single _ line).
    2:{ apply (at_index_map snd) in Hstart. exact Hstart. }
    cbn [List.length skipn rev combine app map fst snd fold_left].
    unfold BlockProxy.updateLine, BlockProxy.newVersion, TimestampProvider.getTimestamp.
    cbn [fst snd]. fold v. fold s'.
    rewrite insertLinesAt_nil.
    + cbn [flat_map]. rewrite app_nil_r. reflexivity.
    + exists line. split; [exact Hlin|].
      rewrite Hreload. rewrite <- Hclaim. apply line_in_file_block_ext; reflexivity.
    + apply getActiveLines_length; [apply Wnew | exact Hlines].
  - apply getHeads_iff. rewrite Hreload. split; [|split].
    + simpl. apply in_or_app. right. left. reflexivity.
    + rewrite <- Hhon.
      rewrite (on_file_block_line_same_line _ _ v h) by (simpl; exact Hlid).
      apply on_file_block_line_ext; reflexivity.
    + split.
      * apply filter_In. split; [simpl; apply in_or_app; right; left; reflexivity|].
        apply Z.eqb_refl.
      * left. simpl. split; [lia|]. intros w Hw _.
        apply filter_In in Hw as [Hw _]. simpl in Hw. apply in_app_or in Hw as [Hw | [<- | []]].
        -- destruct W as (_ & _ & W3). apply W3 in Hw. lia.
        -- simpl. lia.
Qed.

Lemma changeLines_within_one_line_witness :
  let v := mkVersion 4 2 4 CHANGE true "Y" (Some 1) None in
  fst (BlockProxy.changeLines loaded (proxy loaded 1) editLine2) = Ok ["/a:root"]
  /\ Store.versions afterEdit = (Store.versions loaded ++ [v])%list
  /\ In v (BlockProxy.getHeads afterEdit (proxy afterEdit 1)).
Proof.
  cbv zeta.
  destruct (changeLines_within_one_line loaded (proxy loaded 1) editLine2 LF
              (imported 2 2 2 "y") (LineRow.mk 2 1 (2 # 1))) as [H1 H2].
  - reflexivity.
  - unfold well_formed_versions. vm_compute.
    repeat split;
      try (repeat (constructor;
                   [ simpl; intro H; repeat (destruct H as [H | H]; [discriminate H|]); exact H
                   | ]); constructor).
    intros v Hv. repeat (destruct Hv as [<- | Hv]; [discriminate|]). destruct Hv.
  - vm_compute.
    repeat (constructor;
            [ simpl; intro H; repeat (destruct H as [H | H]; [discriminate H|]); exact H | ]).
    constructor.
  - reflexivity.
  - vm_compute. reflexivity.
  - reflexivity.
  - vm_compute. reflexivity.
  - vm_compute. reflexivity.
  - vm_compute. reflexivity.
  - intros piece Hp. vm_compute in Hp. injection Hp as <-. vm_compute. discriminate.
  - unfold afterEdit. rewrite H1. split; [|split].
    + vm_compute. reflexivity.
    + vm_compute. reflexivity.
    + vm_compute. auto.
Defined.

(** White space typed in front of the text of a line is no edit of the
    line: [endsWithEol] holds for it, the line is pushed down as it is and
    nothing is written, for the no-break space as for the space. *)
Example changeLines_white_space_before_the_text :
  Str.trim noBreakSpace = ""
  /\ BlockProxy.changeLines loaded (proxy loaded 1) typeNoBreakSpace = (Ok [], loaded)
  /\ BlockProxy.changeLines loaded (proxy loaded 1) (MultiLineChange.mk 2 1 2 1 " " " y")
     = (Ok [], loaded).
Proof. repeat split; vm_compute; reflexivity. Qed.

(** X24 -- [insertLinesAt] accepts every line number: for a block that
    claims a line of its file, in a store of unique line ids with one version
    per line and timestamp, it finds the neighbours of the new lines and
    succeeds whatever the line number and the contents, and without contents
    it leaves the store as it is. *)
Theorem insertLinesAt_accepts_every_line_number
        (s : Store.t) (this : BlockRow.t) (lineNumber : Z) (lineContents : list string) :
  NoDup (map (fun v => (lineId v, timestamp v)) (Store.versions s)) ->
  NoDup (map LineRow.id (Store.lines s)) ->
  (exists l, In l (Store.lines s) /\ BlockProxy.line_in_file_block s this l = true) ->
  (exists created s',
      BlockProxy.insertLinesAt s this lineNumber lineContents = (Ok created, s'))
  /\ BlockProxy.insertLinesAt s this lineNumber [] = (Ok [], s).
Proof.
  intros Hkeys Hlines Hclaim.
  pose proof (getActiveLines_length s this Hkeys Hlines) as Hcount.
  split.
  - apply insertLinesAt_succeeds; assumption.
  - apply insertLinesAt_nil; assumption.
Qed.

Lemma insertLinesAt_accepts_every_line_number_witness :
  (exists created s',
      BlockProxy.insertLinesAt loaded (proxy loaded 1) (-5) ["new"] = (Ok created, s'))
  /\ BlockProxy.insertLinesAt loaded (proxy loaded 1) (-5) [] = (Ok [], loaded).
Proof.
  apply insertLinesAt_accepts_every_line_number.
  - vm_compute.
    repeat (constructor;
            [ simpl; intro H; repeat (destruct H as [H | H]; [discriminate H|]); exact H | ]).
    constructor.
  - vm_compute.
    repeat (constructor;
            [ simpl; intro H; repeat (destruct H as [H | H]; [discriminate H|]); exact H | ]).
    constructor.
  - exists (LineRow.mk 1 1 (1 # 1)). split; [vm_compute; auto | vm_compute; reflexivity].
Defined.
